(** * Capsule: sandbox lifecycle manager and execution gateway

A shallow embedding of the Go sources
  - core/api/rpc.go        (package rpc: JSON-RPC dispatcher)
  - core/api/websocket.go  (package rpc: terminal bridge)
  - core/cmd/server/main.go (package docker: DockerProvider, limitedWriter)
and the properties of the specification checked against it.

Conventions.  Go [int]/[int64] values are [Z]; the only place where the
64-bit wrap-around can be reached (the ttl conversion) writes it out.
Byte slices are [list byte].  Go's [error] values are the inductive
[error] below, which keeps the [%w] wrapping chain so that [errors.Is]
can be modelled.  Instants ([time.Time]) and durations are [Z]
nanoseconds.  A function that mutates its receiver or talks to the
container runtime is a state transformer. *)

From Stdlib Require Import ZArith List Lia Bool.
From Stdlib Require Import Strings.Byte Strings.Ascii.
From stdpp Require Import base option list strings gmap pretty.

Local Open Scope string_scope.
Local Open Scope list_scope.
Local Open Scope Z_scope.

(** ** Go errors *)

Module GoErr.

Inductive error : Type :=
  | DeadlineExceeded                          (* context.DeadlineExceeded *)
  | Canceled                                  (* context.Canceled *)
  | ErrShortWrite                             (* io.ErrShortWrite *)
  | errorString (s : string)                  (* errors.New, fmt.Errorf without %w *)
  | wrapError (prefix : string) (err : error). (* fmt.Errorf(prefix + "%w", err) *)

(** [err.Error()] *)
Fixpoint Error (e : error) : string :=
  match e with
  | DeadlineExceeded => "context deadline exceeded"
  | Canceled => "context canceled"
  | ErrShortWrite => "short write"
  | errorString s => s
  | wrapError p e' => p +:+ Error e'
  end.

(** [errors.Is(err, context.DeadlineExceeded)] *)
Fixpoint IsDeadlineExceeded (e : error) : bool :=
  match e with
  | DeadlineExceeded => true
  | wrapError _ e' => IsDeadlineExceeded e'
  | _ => false
  end.

End GoErr.
Export GoErr.

(** [len(p)] of a byte slice, as a Go [int]. *)
Definition len {A} (p : list A) : Z := Z.of_nat (length p).

(** ** Package docker: the limited writer (main.go, [limitedWriter]) *)

Module LimitedWriter.

(** [limitedWriter]; the wrapped [W] is always a [bytes.Buffer] in this
    program, whose content is the field [W] here. *)
Record limitedWriter : Type := mk {
    W : list byte;
    Max : Z;
    Written : Z;
    Truncated : bool
  }.

(** [bytes.Buffer.Write]: appends all of [p], returns [len(p), nil]. *)
Definition Buffer_Write (buf : list byte) (p : list byte)
  : list byte * (Z * option error) :=
  (buf ++ p, (len p, None)).

(** [func (lw *limitedWriter) Write(p []byte) (int, error)] *)
Definition Write (lw : limitedWriter) (p : list byte)
  : limitedWriter * (Z * option error) :=
  if Max lw <=? Written lw then
    (mk (W lw) (Max lw) (Written lw) true, (len p, None))
  else
    let remaining := Max lw - Written lw in
    let '(trunc, p) :=
      if remaining <? len p
      then (true, take (Z.to_nat remaining) p)
      else (Truncated lw, p) in
    let '(buf, (n, err)) := Buffer_Write (W lw) p in
    (mk buf (Max lw) (Written lw + n) trunc, (n, err)).

(** [&limitedWriter{W: &buf, Max: max}] over an empty buffer *)
Definition new (max : Z) : limitedWriter := mk [] max 0 false.

End LimitedWriter.
Export LimitedWriter.

(** ** io.Writer

The interface through which [stdcopy.StdCopy] reaches its two sinks. *)

Class Writer (T : Type) : Type :=
  write : T -> list byte -> T * (Z * option error).

#[export] Instance limitedWriter_Writer : Writer limitedWriter := Write.
#[export] Instance Buffer_Writer : Writer (list byte) := Buffer_Write.

(** ** The runtime's multiplexed stream (github.com/docker/docker/pkg/stdcopy)

The demultiplexer is library code.  Its reader is modelled after
framing: the attach stream is the list of frames it carries, followed by
end-of-stream or a read error.  ([StdCopy] drops a frame cut short by
end-of-stream, so such a stream equals the one without that frame.) *)

Module StdCopy.

Inductive StdType : Type := Stdin | Stdout | Stderr | Systemerr | Unknown (b : Z).

Record Frame : Type := frame { stream : StdType; payload : list byte }.

Record Reader : Type := reader {
    frames : list Frame;
    readErr : option error       (* what Read yields after the frames: nil = io.EOF *)
  }.

Section Copy.
Context {O E : Type} `{!Writer O, !Writer E}.

(** The loop of [stdcopy.StdCopy]: for each frame, pick the sink by the
    header's stream byte, write the payload to it, stop on a write error
    or on a write that reports fewer bytes than the frame holds
    ([io.ErrShortWrite]).  Returns both sinks, the part of the stream
    left unread, the byte count and the error. *)
Fixpoint copy_frames (dstout : O) (dsterr : E) (written : Z) (fs : list Frame)
    (rerr : option error) : O * E * list Frame * (Z * option error) :=
  match fs with
  | [] =>
      match rerr with
      | None => (dstout, dsterr, [], (written, None))
      | Some e => (dstout, dsterr, [], (0, Some e))
      end
  | f :: rest =>
      match stream f with
      | Stdin | Stdout =>
          let '(out, (nw, err)) := write dstout (payload f) in
          match err with
          | Some e => (out, dsterr, rest, (0, Some e))
          | None =>
              if negb (nw =? len (payload f))
              then (out, dsterr, rest, (0, Some ErrShortWrite))
              else copy_frames out dsterr (written + nw) rest rerr
          end
      | Stderr =>
          let '(out, (nw, err)) := write dsterr (payload f) in
          match err with
          | Some e => (dstout, out, rest, (0, Some e))
          | None =>
              if negb (nw =? len (payload f))
              then (dstout, out, rest, (0, Some ErrShortWrite))
              else copy_frames dstout out (written + nw) rest rerr
          end
      | Systemerr =>
          (dstout, dsterr, rest,
           (written, Some (errorString ("error from daemon in stream: "
                                        +:+ String.string_of_list_byte (payload f)))))
      | Unknown b =>
          (dstout, dsterr, rest,
           (0, Some (errorString ("Unrecognized input header: " +:+ pretty b))))
      end
  end.

Definition StdCopy (dstout : O) (dsterr : E) (src : Reader)
  : O * E * list Frame * (Z * option error) :=
  copy_frames dstout dsterr 0 (frames src) (readErr src).
End Copy.

End StdCopy.
Export StdCopy.

(** ** encoding/json: how a Go string is rendered

[json.Encoder.Encode] is library code.  It writes a string value byte
for byte where the bytes are valid UTF-8 and replaces every byte that
[utf8.DecodeRuneInString] rejects by U+FFFD; escapes of valid characters
denote the characters themselves.  The model gives the string that a
JSON decoder reads back from the encoded text. *)

Module Json.

Definition val (b : byte) : Z := Z.of_N (Byte.to_N b).

Definition inRange (lo hi : Z) (b : byte) : bool := (lo <=? val b) && (val b <=? hi).

(** A continuation byte, 0x80 to 0xBF *)
Definition cont (b : byte) : bool := inRange 128 191 b.

(** The table [first] of package utf8 with its accept ranges: the size
    of the encoding that a leading byte announces and the range of its
    second byte; [None] for the bytes that lead no encoding. *)
Definition leading (b0 : byte) : option (nat * (Z * Z)) :=
  let v := val b0 in
  if v <? 128 then Some (1%nat, (0, 255))
  else if v <? 194 then None                       (* 0x80..0xC1 *)
  else if v <? 224 then Some (2%nat, (128, 191))   (* 0xC2..0xDF *)
  else if v =? 224 then Some (3%nat, (160, 191))   (* 0xE0 *)
  else if v =? 237 then Some (3%nat, (128, 159))   (* 0xED *)
  else if v <? 240 then Some (3%nat, (128, 191))   (* 0xE1..0xEC, 0xEE, 0xEF *)
  else if v =? 240 then Some (4%nat, (144, 191))   (* 0xF0 *)
  else if v <? 244 then Some (4%nat, (128, 191))   (* 0xF1..0xF3 *)
  else if v =? 244 then Some (4%nat, (128, 143))   (* 0xF4 *)
  else None.                                       (* 0xF5..0xFF *)

(** [utf8.DecodeRune]: the width of the valid encoding at the head of
    [s]; [None] where Go returns [(RuneError, 1)]. *)
Definition runeLen (s : list byte) : option nat :=
  match s with
  | [] => None
  | b0 :: rest =>
      match leading b0, rest with
      | Some (1%nat, _), _ => Some 1%nat
      | Some (2%nat, (lo, hi)), b1 :: _ =>
          if inRange lo hi b1 then Some 2%nat else None
      | Some (3%nat, (lo, hi)), b1 :: b2 :: _ =>
          if inRange lo hi b1 && cont b2 then Some 3%nat else None
      | Some (4%nat, (lo, hi)), b1 :: b2 :: b3 :: _ =>
          if inRange lo hi b1 && cont b2 && cont b3 then Some 4%nat else None
      | _, _ => None
      end
  end.

(** U+FFFD in UTF-8 *)
Definition replacement : list byte := [xef; xbf; xbd].

(** The bytes of [s] as read back: [skip] bytes of an encoding already
    accepted are copied; at the head of an encoding its bytes are kept,
    and a byte that heads none is replaced. *)
Fixpoint readBack (skip : nat) (s : list byte) : list byte :=
  match s with
  | [] => []
  | b :: rest =>
      match skip with
      | S k => b :: readBack k rest
      | O =>
          match runeLen s with
          | Some (S k) => b :: readBack k rest
          | _ => replacement ++ readBack 0 rest
          end
      end
  end.

(** A [string(bytes)] field of a response, as the client reads it *)
Definition encoded (s : list byte) : list byte := readBack 0 s.

(** The same for a Go string held as a [string] *)
Definition encodedString (s : string) : string :=
  String.string_of_list_byte (encoded (String.list_byte_of_string s)).

End Json.

(** ** Package rpc: core/api/rpc.go *)

Module Rpc.

Definition DefaultTimeoutMS : Z := 5000.
Definition DefaultStdoutBytes : Z := Z.shiftl 1 20.
Definition DefaultStderrBytes : Z := Z.shiftl 1 20.
Definition MaxTimeoutMS : Z := 120000.
Definition MaxOutputBytesCap : Z := Z.shiftl 10 20.

(** [time.Millisecond], [time.Minute] in nanoseconds *)
Definition Millisecond : Z := 1000000.
Definition Minute : Z := 60 * 1000 * Millisecond.

(** 64-bit two's complement wrap-around of an [int64] product *)
Definition wrap64 (x : Z) : Z := (x + 2^63) mod 2^64 - 2^63.

(** [appendInt] of package time: [x] in decimal, padded with zeros to
    [width] digits, after the sign if there is one *)
Definition appendInt (x : Z) (width : nat) : string :=
  let digits := pretty (Z.abs x) in
  let pad := String.string_of_list_ascii
               (replicate (width - String.length digits) "0"%char) in
  (if x <? 0 then "-" else "") +:+ pad +:+ digits.

(** The date of the proleptic Gregorian calendar that lies [days] days
    after 1 January 1970: year, month, day *)
Definition civil (days : Z) : Z * Z * Z :=
  let z := days + 719468 in
  let era := z / 146097 in
  let doe := z - era * 146097 in
  let yoe := (doe - doe / 1460 + doe / 36524 - doe / 146096) / 365 in
  let doy := doe - (365 * yoe + yoe / 4 - yoe / 100) in
  let mp := (5 * doy + 2) / 153 in
  let d := doy - (153 * mp + 2) / 5 + 1 in
  let m := if mp <? 10 then mp + 3 else mp - 9 in
  let y := yoe + era * 400 + (if m <=? 2 then 1 else 0) in
  (y, m, d).

(** [t.UTC().Format(time.RFC3339)] for the instant [t], in nanoseconds
    since the Unix epoch: the layout 2006-01-02T15:04:05Z07:00 has no
    fraction, so the nanoseconds below the second are cut off, and the
    zone of a UTC time is written Z.  [time] is library code. *)
Definition Format_RFC3339 (t : Z) : string :=
  let secs := t / (1000 * Millisecond) in
  let '(y, m, d) := civil (secs / 86400) in
  let rem := secs mod 86400 in
  appendInt y 4 +:+ "-" +:+ appendInt m 2 +:+ "-" +:+ appendInt d 2 +:+ "T"
  +:+ appendInt (rem / 3600) 2 +:+ ":" +:+ appendInt (rem mod 3600 / 60) 2 +:+ ":"
  +:+ appendInt (rem mod 60) 2 +:+ "Z".

Record CreateParams : Type := { cp_Template : string; cp_TTLMS : Z }.

Record CreateResult : Type := {
    cr_ID : string;
    cr_Template : string;
    cr_CreatedAt : string;
    cr_ExpiresAt : string
  }.

Record ExecParams : Type := {
    ep_ID : string;
    ep_Cmd : list string;
    ep_Cwd : string;
    ep_Env : gmap string string;
    ep_TimeoutMS : Z;
    ep_MaxStdoutBytes : Z;
    ep_MaxStderrBytes : Z
  }.

Record ExecResult : Type := {
    er_Stdout : list byte;
    er_Stderr : list byte;
    er_ExitCode : Z;
    er_TimedOut : bool;
    er_StdoutTruncated : bool;
    er_StderrTruncated : bool;
    er_DurationMS : Z
  }.

Record DeleteParams : Type := { dp_ID : string }.
Record DeleteResult : Type := { dr_OK : bool }.

(** [json.RawMessage]: the params are kept undecoded until the method is
    known.  The model records what [json.Unmarshal] yields for each of the
    three target structs ([None]: Unmarshal returns an error). *)
Record RawMessage : Type := {
    as_CreateParams : option CreateParams;
    as_ExecParams : option ExecParams;
    as_DeleteParams : option DeleteParams
  }.

Record RPCRequest : Type := {
    req_JSONRPC : string;
    req_ID : option string;
    req_Method : string;
    req_Params : RawMessage
  }.

(** The [details any] handed to [rpcErr] *)
Inductive Details : Type :=
  | DetailsNil
  | DetailsErr (err : string)          (* map[string]any{"err": err.Error()} *)
  | DetailsTimeoutMS (timeout_ms : Z). (* map[string]any{"timeout_ms": timeoutMS} *)

Record ErrorData : Type := {
    Type_ : string;
    Retryable : bool;
    Details_ : Details
  }.

Record RPCError : Type := {
    Code : Z;
    Message : string;
    Data : option ErrorData
  }.

(** The [Result any] of a response *)
Inductive ResultValue : Type :=
  | ResCreate (r : CreateResult)
  | ResExec (r : ExecResult)
  | ResDelete (r : DeleteResult).

Record RPCResponse : Type := {
    resp_JSONRPC : string;
    resp_ID : option string;
    resp_Result : option ResultValue;
    resp_Error : option RPCError
  }.

(** [context.Context] as the handlers build it: the request context,
    possibly with a timeout (a duration in nanoseconds). *)
Record Context : Type := { ctx_Timeout : option Z }.

(** What [Provider.Exec] returns *)
Record ExecReturn : Type := {
    x_stdout : list byte;
    x_stderr : list byte;
    x_exitCode : Z;
    x_timedOut : bool;
    x_outTrunc : bool;
    x_errTrunc : bool;
    x_duration : Z;
    x_err : option error
  }.

(** [type Provider interface]; a provider is a state [P] and each method a
    state transformer. *)
Class Provider (P : Type) : Type := {
    Create : Context -> string -> Z -> P -> (string * Z * option error) * P;
    Exec : Context -> string -> list string -> string -> gmap string string ->
           Z -> Z -> P -> ExecReturn * P;
    Delete : Context -> string -> P -> option error * P
  }.

(** [func rpcErr(code, msg, typ, retryable, details) *RPCError] *)
Definition rpcErr (code : Z) (msg typ : string) (retryable : bool) (details : Details)
  : RPCError :=
  {| Code := code; Message := msg;
     Data := Some {| Type_ := typ; Retryable := retryable; Details_ := details |} |}.

(** The request body as [io.ReadAll] and [json.Unmarshal] see it *)
Inductive Body : Type :=
  | BodyReadError               (* io.ReadAll returns an error *)
  | BodyNotJSON                 (* json.Unmarshal(body, &req) returns an error *)
  | BodyJSON (req : RPCRequest).

Definition errorResponse (id : option string) (e : RPCError) : RPCResponse :=
  {| resp_JSONRPC := "2.0"; resp_ID := id; resp_Result := None; resp_Error := Some e |}.

Definition resultResponse (id : option string) (r : ResultValue) : RPCResponse :=
  {| resp_JSONRPC := "2.0"; resp_ID := id; resp_Result := Some r; resp_Error := None |}.

Definition invalidParams (id : option string) : RPCResponse :=
  errorResponse id (rpcErr (-32001) "invalid params" "INVALID_PARAMS" false DetailsNil).

Section Server.
Context {P : Type} `{!Provider P}.

(** The [sandbox.v1.create] case of the dispatch; [now] is the reading
    of [time.Now()] taken after the provider returned. *)
Definition serveCreate (req : RPCRequest) (now : Z) (s : P) : RPCResponse * P :=
  match as_CreateParams (req_Params req) with
  | None => (invalidParams (req_ID req), s)
  | Some p =>
      if decide (cp_Template p = "") then (invalidParams (req_ID req), s) else
      let ttl := if cp_TTLMS p <=? 0 then 10 * Minute
                 else wrap64 (cp_TTLMS p * Millisecond) in
      let '((id, exp, err), s) :=
        Create {| ctx_Timeout := None |} (cp_Template p) ttl s in
      match err with
      | Some e =>
          (errorResponse (req_ID req)
             (rpcErr (-32003) "container create failed" "CONTAINER_CREATE_FAILED"
                true (DetailsErr (Error e))), s)
      | None =>
          (resultResponse (req_ID req)
             (ResCreate {| cr_ID := id; cr_Template := cp_Template p;
                           cr_CreatedAt := Format_RFC3339 now;
                           cr_ExpiresAt := Format_RFC3339 exp |}), s)
      end
  end.

(** The clamping of one of exec's numeric parameters *)
Definition clamp (v dflt cap : Z) : Z :=
  let v := if v <=? 0 then dflt else v in
  if cap <? v then cap else v.

(** The [sandbox.v1.exec] case *)
Definition serveExec (req : RPCRequest) (s : P) : RPCResponse * P :=
  match as_ExecParams (req_Params req) with
  | None => (invalidParams (req_ID req), s)
  | Some p =>
      if decide (ep_ID p = "") then (invalidParams (req_ID req), s) else
      if len (ep_Cmd p) =? 0 then (invalidParams (req_ID req), s) else
      let timeoutMS := clamp (ep_TimeoutMS p) DefaultTimeoutMS MaxTimeoutMS in
      let maxOut := clamp (ep_MaxStdoutBytes p) DefaultStdoutBytes MaxOutputBytesCap in
      let maxErr := clamp (ep_MaxStderrBytes p) DefaultStderrBytes MaxOutputBytesCap in
      let ctx := {| ctx_Timeout := Some (timeoutMS * Millisecond) |} in
      let '(r, s) := Exec ctx (ep_ID p) (ep_Cmd p) (ep_Cwd p) (ep_Env p) maxOut maxErr s in
      match x_err r with
      | Some e =>
          if IsDeadlineExceeded e || x_timedOut r then
            (errorResponse (req_ID req)
               (rpcErr (-32004) "exec timed out" "EXEC_TIMEOUT" true
                  (DetailsTimeoutMS timeoutMS)), s)
          else
            (errorResponse (req_ID req)
               (rpcErr (-32005) "exec failed" "EXEC_FAILED" true
                  (DetailsErr (Error e))), s)
      | None =>
          (resultResponse (req_ID req)
             (ResExec {| er_Stdout := x_stdout r; er_Stderr := x_stderr r;
                         er_ExitCode := x_exitCode r; er_TimedOut := x_timedOut r;
                         er_StdoutTruncated := x_outTrunc r;
                         er_StderrTruncated := x_errTrunc r;
                         er_DurationMS := Z.quot (x_duration r) Millisecond |}), s)
      end
  end.

(** The [sandbox.v1.delete] case *)
Definition serveDelete (req : RPCRequest) (s : P) : RPCResponse * P :=
  match as_DeleteParams (req_Params req) with
  | None => (invalidParams (req_ID req), s)
  | Some p =>
      if decide (dp_ID p = "") then (invalidParams (req_ID req), s) else
      let '(err, s) := Delete {| ctx_Timeout := None |} (dp_ID p) s in
      match err with
      | Some e =>
          (errorResponse (req_ID req)
             (rpcErr (-32007) "delete failed" "DELETE_FAILED" true
                (DetailsErr (Error e))), s)
      | None => (resultResponse (req_ID req) (ResDelete {| dr_OK := true |}), s)
      end
  end.

(** [func (s *Server) ServeHTTP(w, r)]: the [RPCResponse] that the handler
    passes to [writeRPC], and the provider afterwards.  What the client
    reads from the body that [writeRPC] encodes is [writeRPC] below. *)
Definition ServeHTTP (body : Body) (now : Z) (s : P) : RPCResponse * P :=
  match body with
  | BodyReadError =>
      (errorResponse None
         (rpcErr (-32001) "invalid request body" "INVALID_PARAMS" false DetailsNil), s)
  | BodyNotJSON =>
      (errorResponse None
         (rpcErr (-32001) "invalid json-rpc request" "INVALID_PARAMS" false DetailsNil), s)
  | BodyJSON req =>
      if negb (bool_decide (req_JSONRPC req = "2.0")) || bool_decide (req_Method req = "")
      then
        (errorResponse None
           (rpcErr (-32001) "invalid json-rpc request" "INVALID_PARAMS" false DetailsNil), s)
      else if bool_decide (req_Method req = "sandbox.v1.create") then serveCreate req now s
      else if bool_decide (req_Method req = "sandbox.v1.exec") then serveExec req s
      else if bool_decide (req_Method req = "sandbox.v1.delete") then serveDelete req s
      else
        (errorResponse (req_ID req)
           {| Code := -32601; Message := "method not found"; Data := None |}, s)
  end.
End Server.

(** [func writeRPC(w, resp)]: [json.NewEncoder(w).Encode(resp)], seen from
    the client: the response that a JSON decoder reads from the body.
    Numbers and booleans come back as they are, every string as
    [encoding/json] renders it.  The id is the decoded id of the request,
    encoded again. *)
Definition writeDetails (d : Details) : Details :=
  match d with
  | DetailsErr err => DetailsErr (Json.encodedString err)
  | _ => d
  end.

Definition writeError (e : RPCError) : RPCError :=
  {| Code := Code e; Message := Json.encodedString (Message e);
     Data := (λ d, {| Type_ := Json.encodedString (Type_ d); Retryable := Retryable d;
                      Details_ := writeDetails (Details_ d) |}) <$> Data e |}.

Definition writeResult (r : ResultValue) : ResultValue :=
  match r with
  | ResCreate c =>
      ResCreate {| cr_ID := Json.encodedString (cr_ID c);
                   cr_Template := Json.encodedString (cr_Template c);
                   cr_CreatedAt := Json.encodedString (cr_CreatedAt c);
                   cr_ExpiresAt := Json.encodedString (cr_ExpiresAt c) |}
  | ResExec x =>
      ResExec {| er_Stdout := Json.encoded (er_Stdout x);
                 er_Stderr := Json.encoded (er_Stderr x);
                 er_ExitCode := er_ExitCode x; er_TimedOut := er_TimedOut x;
                 er_StdoutTruncated := er_StdoutTruncated x;
                 er_StderrTruncated := er_StderrTruncated x;
                 er_DurationMS := er_DurationMS x |}
  | ResDelete d => ResDelete d
  end.

Definition writeRPC (resp : RPCResponse) : RPCResponse :=
  {| resp_JSONRPC := Json.encodedString (resp_JSONRPC resp); resp_ID := resp_ID resp;
     resp_Result := writeResult <$> resp_Result resp;
     resp_Error := writeError <$> resp_Error resp |}.

End Rpc.

(** ** Package docker: core/cmd/server/main.go (docker.go) *)

Module Docker.
Import Rpc.

Record Sandbox : Type := {
    ID : string;
    ContainerID : string;
    Template : string;
    CreatedAt : Z;
    ExpiresAt : Z
  }.

(** [var templates = map[string]string{...}] *)
Definition templates : gmap string string :=
  <["python" := "python:3.11-slim"]>
    (<["node" := "node:20-slim"]>
       (<["go" := "golang:1.22-alpine"]> ∅)).

(** The fields of [container.Config] that [Create] sets; every other
    field keeps Go's zero value. *)
Record Config : Type := {
    Image : string;
    Cmd : list string;
    WorkingDir : string;
    Tty : bool;
    OpenStdin : bool;
    AttachStdin : bool;
    AttachStdout : bool;
    AttachStderr : bool
  }.

Record Resources : Type := {
    Memory : Z;
    MemorySwap : Z;
    CPUPeriod : Z;
    CPUQuota : Z;
    PidsLimit : option Z      (* *int64 *)
  }.

Record HostConfig : Type := {
    CapDrop : list string;
    NetworkMode : string;
    SecurityOpt : list string;
    HostResources : Resources
  }.

Record ExecOptions : Type := {
    eo_Cmd : list string;
    eo_WorkingDir : string;
    eo_Env : list string;
    eo_AttachStdout : bool;
    eo_AttachStderr : bool
  }.

Record RemoveOptions : Type := { Force : bool }.

(** [types.HijackedResponse]: only its [Reader] is used by [Exec]. *)
Record HijackedResponse : Type := { hr_Reader : Reader }.

(** The world outside the provider: the Docker client, the clock, the
    uuid generator and the state of the request context.  Each call may
    change the world [R] and fail as the runtime pleases; every call of
    the client also takes the context, which the world subsumes. *)
Class Runtime (R : Type) : Type := {
    ImageInspectWithRaw : string -> R -> option error * R;
    ImagePull : string -> R -> option error * R;
    ContainerCreate : Config -> HostConfig -> string -> R -> (error + string) * R;
    ContainerStart : string -> R -> option error * R;
    ContainerRemove : string -> RemoveOptions -> R -> option error * R;
    ContainerExecCreate : string -> ExecOptions -> R -> (error + string) * R;
    ContainerExecAttach : string -> R -> (error + HijackedResponse) * R;
    ContainerExecInspect : string -> R -> (error + Z) * R;
    uuid_New : R -> string * R;           (* uuid.New().String() *)
    time_Now : R -> Z * R;
    ctx_Err : Context -> R -> option error * R
  }.

(** What the provider did, in order: the updates of [p.sandboxes] and the
    runtime calls that create, start or remove a container, with their
    outcome.  The log is not in the source; it is the instrument through
    which ordering properties are stated. *)
Inductive Event : Type :=
  | EvContainerCreate (config : Config) (hostConfig : HostConfig) (name : string)
      (res : error + string)
  | EvContainerStart (containerID : string) (res : option error)
  | EvContainerRemove (containerID : string) (opts : RemoveOptions) (res : option error)
  | EvInsert (sandboxID : string) (sb : Sandbox)
  | EvDelete (sandboxID : string).

Section Provider.
Context {R : Type} `{!Runtime R}.

(** [type DockerProvider struct]; [mu] guards [sandboxes]: the sections
    executed under it are the atomic definitions [lookup_locked],
    [insert_locked], [delete_locked] and [expired_locked] below. *)
Record DockerProvider : Type := mkProvider {
    client : R;
    sandboxes : gmap string Sandbox;
    gcInterval : Z;
    log : list Event
  }.

Definition M (A : Type) : Type := DockerProvider -> A * DockerProvider.

#[local] Instance M_ret : MRet M := λ A a p, (a, p).
#[local] Instance M_bind : MBind M :=
  λ A B f m p, let '(a, p') := m p in f a p'.

Definition call {A} (f : R -> A * R) : M A :=
  λ p, let '(a, r) := f (client p) in
       (a, mkProvider r (sandboxes p) (gcInterval p) (log p)).

Definition emit (e : Event) : M unit :=
  λ p, (tt, mkProvider (client p) (sandboxes p) (gcInterval p) (log p ++ [e])).

(** [p.mu.RLock(); sandbox, ok := p.sandboxes[id]; p.mu.RUnlock()] *)
Definition lookup_locked (sandboxID : string) : M (option Sandbox) :=
  λ p, (sandboxes p !! sandboxID, p).

(** [p.mu.Lock(); p.sandboxes[id] = &Sandbox{...}; p.mu.Unlock()] *)
Definition insert_locked (sandboxID : string) (sb : Sandbox) : M unit :=
  λ p, (tt, mkProvider (client p) (<[sandboxID := sb]> (sandboxes p))
              (gcInterval p) (log p ++ [EvInsert sandboxID sb])).

(** [p.mu.Lock(); sandbox, ok := p.sandboxes[id]; if ok { delete(...) };
    p.mu.Unlock()] *)
Definition delete_locked (sandboxID : string) : M (option Sandbox) :=
  λ p, match sandboxes p !! sandboxID with
       | Some sb =>
           (Some sb, mkProvider (client p) (delete sandboxID (sandboxes p))
                       (gcInterval p) (log p ++ [EvDelete sandboxID]))
       | None => (None, p)
       end.

(** The three logged runtime calls *)
Definition doContainerCreate (config : Config) (hostConfig : HostConfig) (name : string)
  : M (error + string) :=
  res ← call (ContainerCreate config hostConfig name);
  _ ← emit (EvContainerCreate config hostConfig name res);
  mret res.

Definition doContainerStart (containerID : string) : M (option error) :=
  res ← call (ContainerStart containerID);
  _ ← emit (EvContainerStart containerID res);
  mret res.

Definition doContainerRemove (containerID : string) (opts : RemoveOptions)
  : M (option error) :=
  res ← call (ContainerRemove containerID opts);
  _ ← emit (EvContainerRemove containerID opts res);
  mret res.

Definition zeroTime : Z := 0.     (* time.Time{} *)

(** The [container.Config] and [container.HostConfig] literals of [Create] *)
Definition sandboxConfig (img : string) : Config :=
  {| Image := img;
     Cmd := ["sleep"; "infinity"];
     WorkingDir := "/workspace";
     Tty := false;
     OpenStdin := true;
     AttachStdin := true;
     AttachStdout := true;
     AttachStderr := true |}.

Definition sandboxHostConfig : HostConfig :=
  {| CapDrop := ["ALL"];
     NetworkMode := "none";
     SecurityOpt := ["no-new-privileges"];
     HostResources :=
       {| Memory := 512 * 1024 * 1024;
          MemorySwap := 512 * 1024 * 1024;
          CPUPeriod := 100000;
          CPUQuota := 50000;
          PidsLimit := Some 100 |} |}.

(** [func (p *DockerProvider) Create(ctx, template, ttl)] *)
Definition Create (ctx : Context) (template : string) (ttl : Z)
  : M (string * Z * option error) :=
  match templates !! template with
  | None => mret ("", zeroTime, Some (errorString ("unknown template: " +:+ template)))
  | Some img =>
      inspectErr ← call (ImageInspectWithRaw img);
      pullErr ← match inspectErr with
                | Some _ => call (ImagePull img)
                | None => mret None
                end;
      match pullErr with
      | Some e =>
          mret ("", zeroTime,
                Some (wrapError ("failed to pull image " +:+ img +:+ ": ") e))
      | None =>
          u ← call uuid_New;
          let sandboxID := String.substring 0 8 u in
          let config := sandboxConfig img in
          let hostConfig := sandboxHostConfig in
          resp ← doContainerCreate config hostConfig ("sandbox-" +:+ sandboxID);
          match resp with
          | inl e => mret ("", zeroTime, Some (wrapError "failed to create container: " e))
          | inr respID =>
              startErr ← doContainerStart respID;
              match startErr with
              | Some e =>
                  _ ← doContainerRemove respID {| Force := true |};
                  mret ("", zeroTime, Some (wrapError "failed to start container: " e))
              | None =>
                  now ← call time_Now;
                  let expiresAt := now + ttl in
                  _ ← insert_locked sandboxID
                        {| ID := sandboxID; ContainerID := respID; Template := template;
                           CreatedAt := now; ExpiresAt := expiresAt |};
                  mret (sandboxID, expiresAt, None)
              end
          end
      end
  end.

(** [time.Since(start)] *)
Definition Since (start : Z) : M Z :=
  now ← call time_Now; mret (now - start).

Definition execFailed (d : Z) (e : error) : ExecReturn :=
  {| x_stdout := []; x_stderr := []; x_exitCode := -1; x_timedOut := false;
     x_outTrunc := false; x_errTrunc := false; x_duration := d; x_err := Some e |}.

(** The [container.ExecOptions] that [Exec] builds: the env slice (Go
    ranges over the map in an unspecified order, the model in the order
    of [map_to_list]), the working directory and the attach flags. *)
Definition execOptions (cmd : list string) (cwd : string) (env : gmap string string)
  : ExecOptions :=
  let envSlice := (λ kv : string * string, kv.1 +:+ "=" +:+ kv.2) <$> map_to_list env in
  let workDir := if decide (cwd = "") then "/workspace" else cwd in
  {| eo_Cmd := cmd; eo_WorkingDir := workDir; eo_Env := envSlice;
     eo_AttachStdout := true; eo_AttachStderr := true |}.

(** The "read output with limits" block of [Exec]: two limited writers
    over fresh buffers, filled by [stdcopy.StdCopy] from the attach
    stream. *)
Definition capture (maxOut maxErr : Z) (src : Reader)
  : limitedWriter * limitedWriter * list Frame * (Z * option error) :=
  let stdoutLimited := LimitedWriter.new maxOut in
  let stderrLimited := LimitedWriter.new maxErr in
  StdCopy stdoutLimited stderrLimited src.

(** [func (p *DockerProvider) Exec(ctx, sandboxID, cmd, cwd, env, maxOut, maxErr)] *)
Definition Exec (ctx : Context) (sandboxID : string) (cmd : list string) (cwd : string)
    (env : gmap string string) (maxOut maxErr : Z) : M ExecReturn :=
  start ← call time_Now;
  found ← lookup_locked sandboxID;
  match found with
  | None => mret (execFailed 0 (errorString ("sandbox not found: " +:+ sandboxID)))
  | Some sandbox =>
      let execConfig := execOptions cmd cwd env in
      created ← call (ContainerExecCreate (ContainerID sandbox) execConfig);
      match created with
      | inl e =>
          d ← Since start; mret (execFailed d (wrapError "exec create failed: " e))
      | inr execID =>
          attached ← call (ContainerExecAttach execID);
          match attached with
          | inl e =>
              d ← Since start; mret (execFailed d (wrapError "exec attach failed: " e))
          | inr resp =>
              let '(stdoutLimited, stderrLimited, _, _) :=
                capture maxOut maxErr (hr_Reader resp) in
              ctxErr ← call (ctx_Err ctx);
              let timedOut :=
                match ctxErr with Some DeadlineExceeded => true | _ => false end in
              inspected ← call (ContainerExecInspect execID);
              d ← Since start;
              mret {| x_stdout := W stdoutLimited; x_stderr := W stderrLimited;
                      x_exitCode := match inspected with inl _ => -1 | inr c => c end;
                      x_timedOut := timedOut;
                      x_outTrunc := Truncated stdoutLimited;
                      x_errTrunc := Truncated stderrLimited;
                      x_duration := d; x_err := None |}
          end
      end
  end.

(** [func (p *DockerProvider) Delete(ctx, sandboxID) error] *)
Definition Delete (ctx : Context) (sandboxID : string) : M (option error) :=
  found ← delete_locked sandboxID;
  match found with
  | None => mret (Some (errorString ("sandbox not found: " +:+ sandboxID)))
  | Some sandbox =>
      err ← doContainerRemove (ContainerID sandbox) {| Force := true |};
      match err with
      | Some e => mret (Some (wrapError "failed to remove container: " e))
      | None => mret None
      end
  end.

(** [t.After(u)] *)
Definition After (t u : Z) : bool := u <? t.

(** The read-locked scan of [cleanupExpired]; Go ranges over the map in
    an unspecified order, the model in the order of [map_to_list]. *)
Definition expired_locked (now : Z) : M (list string) :=
  λ p, (fst <$> filter (λ kv, After now (ExpiresAt kv.2) = true)
                  (map_to_list (sandboxes p)), p).

Fixpoint deleteAll (toDelete : list string) : M unit :=
  match toDelete with
  | [] => mret tt
  | id :: rest =>
      _ ← Delete {| ctx_Timeout := Some (10 * 1000 * Millisecond) |} id;
      deleteAll rest
  end.

(** [func (p *DockerProvider) cleanupExpired()] *)
Definition cleanupExpired : M unit :=
  now ← call time_Now;
  toDelete ← expired_locked now;
  deleteAll toDelete.

(** [func (p *DockerProvider) GetContainerID(sandboxID) (string, error)] *)
Definition GetContainerID (sandboxID : string) : M (string * option error) :=
  found ← lookup_locked sandboxID;
  match found with
  | None => mret ("", Some (errorString ("sandbox not found: " +:+ sandboxID)))
  | Some sandbox => mret (ContainerID sandbox, None)
  end.

(** [NewDockerProvider]: the provider around a connected client, with an
    empty registry and the 30 s collection interval. *)
Definition NewDockerProvider (cli : R) : DockerProvider :=
  mkProvider cli ∅ (30 * 1000 * Millisecond) [].

#[export] Instance DockerProvider_Provider : Provider DockerProvider :=
  {| Rpc.Create := Create; Rpc.Exec := Exec; Rpc.Delete := Delete |}.

(** *** Histories of provider calls

The provider is driven by the RPC handlers, the terminal handler and
the collector; each drives it through the methods above only. *)
Inductive Op : Type :=
  | OpCreate (ctx : Context) (template : string) (ttl : Z)
  | OpExec (ctx : Context) (sandboxID : string) (cmd : list string) (cwd : string)
      (env : gmap string string) (maxOut maxErr : Z)
  | OpDelete (ctx : Context) (sandboxID : string)
  | OpCleanupExpired
  | OpGetContainerID (sandboxID : string).

Inductive Ret : Type :=
  | RetCreate (r : string * Z * option error)
  | RetExec (r : ExecReturn)
  | RetDelete (r : option error)
  | RetCleanupExpired
  | RetGetContainerID (r : string * option error).

Definition run_op (op : Op) : M Ret :=
  match op with
  | OpCreate ctx template ttl => r ← Create ctx template ttl; mret (RetCreate r)
  | OpExec ctx id cmd cwd env maxOut maxErr =>
      r ← Exec ctx id cmd cwd env maxOut maxErr; mret (RetExec r)
  | OpDelete ctx id => r ← Delete ctx id; mret (RetDelete r)
  | OpCleanupExpired => _ ← cleanupExpired; mret RetCleanupExpired
  | OpGetContainerID id => r ← GetContainerID id; mret (RetGetContainerID r)
  end.

Fixpoint run_ops (ops : list Op) : M (list Ret) :=
  match ops with
  | [] => mret []
  | op :: rest => r ← run_op op; rs ← run_ops rest; mret (r :: rs)
  end.

(** *** Concurrent deletes

[Delete] has two atomic sections: the one under [p.mu] and the
runtime call.  A goroutine inside [Delete] is at one of these
points; a schedule picks which goroutine runs its next section. *)
Inductive DeleteThread : Type :=
  | AtLock (sandboxID : string)          (* about to take p.mu *)
  | AtRemove (sandbox : Sandbox)         (* lock released, ok = true *)
  | Returned (err : option error).

Definition delete_step (t : DeleteThread) : M DeleteThread :=
  match t with
  | AtLock sandboxID =>
      found ← delete_locked sandboxID;
      match found with
      | None => mret (Returned (Some (errorString ("sandbox not found: " +:+ sandboxID))))
      | Some sandbox => mret (AtRemove sandbox)
      end
  | AtRemove sandbox =>
      err ← doContainerRemove (ContainerID sandbox) {| Force := true |};
      match err with
      | Some e => mret (Returned (Some (wrapError "failed to remove container: " e)))
      | None => mret (Returned None)
      end
  | Returned err => mret (Returned err)
  end.

Fixpoint run_schedule (sched : list nat) (ts : list DeleteThread)
  : M (list DeleteThread) :=
  match sched with
  | [] => mret ts
  | i :: rest =>
      match ts !! i with
      | None => run_schedule rest ts
      | Some t => t' ← delete_step t; run_schedule rest (<[i := t']> ts)
      end
  end.

End Provider.
Arguments DockerProvider R : clear implicits.
Arguments M R : clear implicits.

End Docker.

(** ** Package rpc: core/api/websocket.go, the terminal bridge

After the set-up, [TerminalHandler.ServeHTTP] is three goroutines:
the container-to-client loop, the client-to-container loop and the
handler itself, blocked in [<-done].  The model is their transition
system; a step is an event of the container stream, an event of the
client, or the scheduling of a goroutine whose blocking call can
return because of what another goroutine did. *)

Module Terminal.

Inductive Loop : Type := Running | Exited.
Inductive Handler : Type := WaitingDone | HandlerReturned.

Record Bridge : Type := mkBridge {
    downstream : Loop;          (* go func: resp.Reader.Read -> conn.WriteMessage *)
    upstream : Loop;            (* go func: conn.ReadMessage -> resp.Conn.Write *)
    handler : Handler;          (* ServeHTTP at <-done *)
    done : bool;                (* close(done) has run *)
    connClosed : bool;          (* deferred conn.Close() has run *)
    respClosed : bool;          (* deferred resp.Close() has run *)
    clientGone : bool;          (* the client closed its end *)
    containerGone : bool;       (* the exec stream ended *)
    toClient : list (list byte);    (* binary frames delivered to the client *)
    toContainer : list (list byte)  (* payloads written to the exec's stdin *)
  }.

(** The state when both goroutines have been spawned *)
Definition start : Bridge :=
  mkBridge Running Running WaitingDone false false false false false [] [].

Inductive ContainerEvent : Type :=
  | Output (data : list byte)     (* Read returns n > 0 bytes *)
  | EndOfStream                   (* Read returns io.EOF *)
  | ReadFailure.                  (* Read returns another error *)

Inductive ClientEvent : Type :=
  | Message (data : list byte)    (* ReadMessage returns a text or binary frame *)
  | Close.                        (* ReadMessage returns an error: the client left *)

Inductive Goroutine : Type := GoDownstream | GoUpstream | GoHandler.

Inductive Event : Type :=
  | FromContainer (e : ContainerEvent)
  | FromClient (e : ClientEvent)
  | Schedule (g : Goroutine).

(** The container-to-client goroutine returns: [defer close(done)] runs. *)
Definition exitDownstream (b : Bridge) : Bridge :=
  mkBridge Exited (upstream b) (handler b) true (connClosed b) (respClosed b)
    (clientGone b) (containerGone b) (toClient b) (toContainer b).

(** The client-to-container goroutine returns: nothing is deferred. *)
Definition exitUpstream (b : Bridge) : Bridge :=
  mkBridge (downstream b) Exited (handler b) (done b) (connClosed b) (respClosed b)
    (clientGone b) (containerGone b) (toClient b) (toContainer b).

Definition step (b : Bridge) (ev : Event) : Bridge :=
  match ev with
  | FromContainer e =>
      let b := match e with
               | Output _ => b
               | EndOfStream | ReadFailure =>
                   mkBridge (downstream b) (upstream b) (handler b) (done b)
                     (connClosed b) (respClosed b) (clientGone b) true
                     (toClient b) (toContainer b)
               end in
      match downstream b with
      | Exited => b
      | Running =>
          match e with
          | Output data =>
              (* conn.WriteMessage(websocket.BinaryMessage, buf[:n]) *)
              if connClosed b || clientGone b then exitDownstream b
              else mkBridge Running (upstream b) (handler b) (done b) (connClosed b)
                     (respClosed b) (clientGone b) (containerGone b)
                     (toClient b ++ [data]) (toContainer b)
          | EndOfStream | ReadFailure => exitDownstream b
          end
      end
  | FromClient e =>
      let b := match e with
               | Message _ => b
               | Close =>
                   mkBridge (downstream b) (upstream b) (handler b) (done b)
                     (connClosed b) (respClosed b) true (containerGone b)
                     (toClient b) (toContainer b)
               end in
      match upstream b with
      | Exited => b
      | Running =>
          match e with
          | Message data =>
              (* resp.Conn.Write(message) *)
              if respClosed b || containerGone b then exitUpstream b
              else mkBridge (downstream b) Running (handler b) (done b) (connClosed b)
                     (respClosed b) (clientGone b) (containerGone b)
                     (toClient b) (toContainer b ++ [data])
          | Close => exitUpstream b
          end
      end
  | Schedule GoHandler =>
      (* <-done returns once the channel is closed; then the deferred
         resp.Close() and conn.Close() run *)
      match handler b with
      | HandlerReturned => b
      | WaitingDone =>
          if done b
          then mkBridge (downstream b) (upstream b) HandlerReturned true true true
                 (clientGone b) (containerGone b) (toClient b) (toContainer b)
          else b
      end
  | Schedule GoDownstream =>
      (* a Read blocked on a stream that resp.Close() closed returns an error *)
      match downstream b with
      | Exited => b
      | Running => if respClosed b then exitDownstream b else b
      end
  | Schedule GoUpstream =>
      (* a ReadMessage blocked on a connection that conn.Close() closed
         returns an error *)
      match upstream b with
      | Exited => b
      | Running => if connClosed b then exitUpstream b else b
      end
  end.

Definition run (b : Bridge) (evs : list Event) : Bridge := foldl step b evs.

(** The bridge is torn down: the handler returned and closed both streams. *)
Definition tornDown (b : Bridge) : bool :=
  match handler b with
  | HandlerReturned => connClosed b && respClosed b
  | WaitingDone => false
  end.

(** Events that do not come from the container *)
Inductive LocalEvent : Type :=
  | LocalClient (e : ClientEvent)
  | LocalSchedule (g : Goroutine).

Definition local (e : LocalEvent) : Event :=
  match e with
  | LocalClient c => FromClient c
  | LocalSchedule g => Schedule g
  end.

(** The state of a bridge whose client has left while the container is
    silent: the client-to-container loop has exited, and nothing else has
    moved. *)
Definition abandoned (b : Bridge) : Prop :=
  upstream b = Exited /\ downstream b = Running /\ handler b = WaitingDone /\
  done b = false /\ connClosed b = false /\ respClosed b = false.

(** In every reachable state, the container-to-client loop has exited
    only after closing the done channel, and the handler has returned only
    after closing both streams. *)
Definition coherent (b : Bridge) : Prop :=
  (downstream b = Exited -> done b = true) /\
  (handler b = HandlerReturned -> connClosed b = true /\ respClosed b = true).

End Terminal.

(** ** A scripted runtime, for running the model on concrete inputs *)

Module Script.
Import Rpc Docker.

Record T : Type := mk {
    clock : Z;
    uuid : string;
    startErr : option error;
    removeErr : option error;
    attach : Reader;
    exitCode : Z
  }.

Definition tick (r : T) : T :=
  mk (clock r + 1) (uuid r) (startErr r) (removeErr r) (attach r) (exitCode r).

#[export] Instance T_Runtime : Runtime T := {|
    ImageInspectWithRaw _ r := (None, r);
    ImagePull _ r := (None, r);
    ContainerCreate _ _ name r := (inr ("c-" +:+ name), r);
    ContainerStart _ r := (startErr r, r);
    ContainerRemove _ _ r := (removeErr r, r);
    ContainerExecCreate _ _ r := (inr "exec-1", r);
    ContainerExecAttach _ r := (inr {| hr_Reader := attach r |}, r);
    ContainerExecInspect _ r := (inr (exitCode r), r);
    uuid_New r := (uuid r, r);
    time_Now r := (clock r, tick r);
    ctx_Err _ r := (None, r)
  |}.

Definition quiet : T :=
  mk 1000 "0a1b2c3d-0000-4000-8000-000000000000" None None (reader [] None) 0.

(** A runtime whose exec attach stream is [src] *)
Definition streaming (src : Reader) : T :=
  mk 1000 "0a1b2c3d-0000-4000-8000-000000000000" None None src 0.

(** A runtime whose container removal fails *)
Definition stubborn : T :=
  mk 1000 "0a1b2c3d-0000-4000-8000-000000000000" None
    (Some (errorString "removal of container is already in progress")) (reader [] None) 0.

(** A runtime whose container start fails *)
Definition stillborn : T :=
  mk 1000 "0a1b2c3d-0000-4000-8000-000000000000"
    (Some (errorString "OCI runtime create failed")) None (reader [] None) 0.

Definition background : Context := {| ctx_Timeout := None |}.

(** An exec stream: "hel" on stdout, "!" on stderr, "lo" on stdout *)
Definition hello : Reader :=
  reader [frame Stdout ["h"; "e"; "l"]%byte; frame Stderr ["!"]%byte;
          frame Stdout ["l"; "o"]%byte] None.

(** A provider over runtime [r] that has created one python sandbox, whose
    id is "0a1b2c3d", with a ttl of one second *)
Definition serving (r : T) : DockerProvider T :=
  (Create background "python" (1000 * Millisecond) (NewDockerProvider r)).2.

End Script.

(** ** Package docker: the file operations of docker.go

The three operations run a shell utility inside the container through
the same client calls as [Exec].  Three library functions they use are
taken as parameters: [base64.StdEncoding.EncodeToString],
[bytes.TrimSpace] and the scan of [fmt.Sscanf(s, "%d", &size)] (which
leaves [size] untouched when it fails). *)

Module Files.
Import Rpc Docker.

(** Modelled from the spec: the declaration of [rpc.FileInfo] is missing
    from rpc.go; its fields are those [ListDir] fills in and the listDir
    result of the RPC surface names ([name], [path], [is_dir], [size]). *)
Record FileInfo : Type := {
    Name : string;
    Path : string;
    IsDir : bool;
    Size : Z
  }.

(** [bytes.Split(s, sep)] for a separator of one byte: the pieces between
    the occurrences of [sep]; one piece more than there are occurrences. *)
Fixpoint Split (sep : byte) (s : list byte) : list (list byte) :=
  match s with
  | [] => [[]]
  | b :: rest =>
      if Byte.eqb b sep then [] :: Split sep rest
      else match Split sep rest with
           | piece :: pieces => (b :: piece) :: pieces
           | [] => [[b]]
           end
  end.

Definition newline : byte := x0a.    (* []byte("\n") *)
Definition tab : byte := x09.        (* []byte("\t") *)

Section Files.
Context {R : Type} `{!Runtime R}.
Variable EncodeToString : list byte -> string.
Variable TrimSpace : list byte -> list byte.
Variable Sscan_d : list byte -> option Z.

#[local] Existing Instances M_ret M_bind.

(** The [container.ExecOptions] of the file operations: the command and the
    two attach flags; working directory and environment are left empty. *)
Definition shellOptions (cmd : list string) : ExecOptions :=
  {| eo_Cmd := cmd; eo_WorkingDir := ""; eo_Env := [];
     eo_AttachStdout := true; eo_AttachStderr := true |}.

(** [func (p *DockerProvider) WriteFile(ctx, sandboxID, path, content) error] *)
Definition WriteFile (ctx : Context) (sandboxID path : string) (content : list byte)
  : M R (option error) :=
  found ← lookup_locked sandboxID;
  match found with
  | None => mret (Some (errorString ("sandbox not found: " +:+ sandboxID)))
  | Some sandbox =>
      let encoded := EncodeToString content in
      let cmd := "mkdir -p $(dirname " +:+ path +:+ ") && echo " +:+ encoded
                 +:+ " | base64 -d > " +:+ path in
      let execConfig := shellOptions ["sh"; "-c"; cmd] in
      created ← call (ContainerExecCreate (ContainerID sandbox) execConfig);
      match created with
      | inl e => mret (Some (wrapError "exec create failed: " e))
      | inr execID =>
          attached ← call (ContainerExecAttach execID);
          match attached with
          | inl e => mret (Some (wrapError "exec attach failed: " e))
          | inr resp =>
              (* io.Copy(io.Discard, resp.Reader): wait for completion *)
              inspected ← call (ContainerExecInspect execID);
              match inspected with
              | inl e => mret (Some (wrapError "exec inspect failed: " e))
              | inr exitCode =>
                  if decide (exitCode = 0) then mret None
                  else mret (Some (errorString ("write file failed with exit code "
                                                +:+ pretty exitCode)))
              end
          end
      end
  end.

(** [func (p *DockerProvider) ReadFile(ctx, sandboxID, path) ([]byte, error)] *)
Definition ReadFile (ctx : Context) (sandboxID path : string)
  : M R (list byte * option error) :=
  found ← lookup_locked sandboxID;
  match found with
  | None => mret ([], Some (errorString ("sandbox not found: " +:+ sandboxID)))
  | Some sandbox =>
      let execConfig := shellOptions ["cat"; path] in
      created ← call (ContainerExecCreate (ContainerID sandbox) execConfig);
      match created with
      | inl e => mret ([], Some (wrapError "exec create failed: " e))
      | inr execID =>
          attached ← call (ContainerExecAttach execID);
          match attached with
          | inl e => mret ([], Some (wrapError "exec attach failed: " e))
          | inr resp =>
              let '(stdoutBuf, stderrBuf, _, _) :=
                StdCopy ([] : list byte) ([] : list byte) (hr_Reader resp) in
              inspected ← call (ContainerExecInspect execID);
              match inspected with
              | inl e => mret ([], Some (wrapError "exec inspect failed: " e))
              | inr exitCode =>
                  if decide (exitCode = 0) then mret (stdoutBuf, None)
                  else mret ([], Some (errorString
                                         ("file not found or read error: "
                                          +:+ String.string_of_list_byte stderrBuf)))
              end
          end
      end
  end.

(** The loop of [ListDir] over the lines of the listing: empty lines and
    lines of fewer than four tab-separated fields are skipped. *)
Fixpoint parseLines (path : string) (lines : list (list byte)) : list FileInfo :=
  match lines with
  | [] => []
  | line :: rest =>
      if len line =? 0 then parseLines path rest else
      let parts := Split tab line in
      if len parts <? 4 then parseLines path rest else
      let name := String.string_of_list_byte (parts !!! 0%nat) in
      let size := default 0 (Sscan_d (parts !!! 1%nat)) in
      let isDir := bool_decide (String.string_of_list_byte (parts !!! 2%nat) = "d") in
      {| Name := name; Path := path +:+ "/" +:+ name; IsDir := isDir; Size := size |}
        :: parseLines path rest
  end.

(** The "parse output" block of [ListDir] *)
Definition parseListing (path : string) (stdout : list byte) : list FileInfo :=
  parseLines path (Split newline (TrimSpace stdout)).

(** [func (p *DockerProvider) ListDir(ctx, sandboxID, path) ([]rpc.FileInfo, error)] *)
Definition ListDir (ctx : Context) (sandboxID path : string)
  : M R (list FileInfo * option error) :=
  found ← lookup_locked sandboxID;
  match found with
  | None => mret ([], Some (errorString ("sandbox not found: " +:+ sandboxID)))
  | Some sandbox =>
      let cmd := "find " +:+ path
                 +:+ " -maxdepth 1 -printf '%f\t%s\t%Y\t%T@\n' 2>/dev/null | tail -n +2" in
      let execConfig := shellOptions ["sh"; "-c"; cmd] in
      created ← call (ContainerExecCreate (ContainerID sandbox) execConfig);
      match created with
      | inl e => mret ([], Some (wrapError "exec create failed: " e))
      | inr execID =>
          attached ← call (ContainerExecAttach execID);
          match attached with
          | inl e => mret ([], Some (wrapError "exec attach failed: " e))
          | inr resp =>
              let '(stdoutBuf, stderrBuf, _, _) :=
                StdCopy ([] : list byte) ([] : list byte) (hr_Reader resp) in
              mret (parseListing path stdoutBuf, None)
          end
      end
  end.

End Files.

(** One line of the listing as [find -printf '%f\t%s\t%Y\t%T@\n'] prints it,
    without the newline: name, size, type and modification time. *)
Record Listed : Type := {
    l_name : list byte;
    l_size : list byte;
    l_type : list byte;
    l_mtime : list byte
  }.

Definition printLine (e : Listed) : list byte :=
  l_name e ++ tab :: l_size e ++ tab :: l_type e ++ tab :: l_mtime e.

(** The lines joined by newlines, as they are after the trailing newline
    has been trimmed *)
Fixpoint joinLines (lines : list (list byte)) : list byte :=
  match lines with
  | [] => []
  | [line] => line
  | line :: rest => line ++ newline :: joinLines rest
  end.

(** A field of a listing line holds neither a tab nor a newline. *)
Definition plain (field : list byte) : Prop := (tab ∉ field) /\ (newline ∉ field).

Definition wellFormed (e : Listed) : Prop :=
  plain (l_name e) /\ plain (l_size e) /\ plain (l_type e) /\ plain (l_mtime e).

End Files.

(** ** Package rpc: core/api/websocket.go, the terminal handler

[TerminalHandler.ServeHTTP] from the request to its return.  What the
handler does is recorded, in order, as a list of actions.  The exec
calls go to the client that [h.P.GetClient()] hands out, which is the
provider's own; the websocket upgrade is library code and an oracle [W].
Once the exec is started the handler spawns the two copy loops and
waits on [done]: what happens from there is the bridge of [Terminal],
driven by the events that reach it. *)

Module TerminalSetup.
Import Rpc.

(** [strings.HasPrefix(s, prefix)] with the rest of [s] when it holds *)
Fixpoint stripPrefix (prefix s : string) : option string :=
  match prefix, s with
  | EmptyString, _ => Some s
  | String a prefix', String b s' =>
      if Ascii.eqb a b then stripPrefix prefix' s' else None
  | String _ _, EmptyString => None
  end.

(** [strings.TrimPrefix(s, prefix)] *)
Definition TrimPrefix (s prefix : string) : string :=
  default s (stripPrefix prefix s).

(** [strings.Split(s, "/")[0]]: what precedes the first slash *)
Fixpoint firstSegment (s : string) : string :=
  match s with
  | EmptyString => EmptyString
  | String c rest =>
      if Ascii.eqb c "/"%char then EmptyString else String c (firstSegment rest)
  end.

(** The sandbox id that the handler reads off [r.URL.Path] *)
Definition sandboxIDOf (path : string) : string :=
  firstSegment (TrimPrefix path "/terminal/").

(** The [container.ExecOptions] of the terminal's exec *)
Record TtyExecOptions : Type := {
    t_Cmd : list string;
    t_Tty : bool;
    t_AttachStdin : bool;
    t_AttachStdout : bool;
    t_AttachStderr : bool
  }.

(** The methods of [*client.Client] that the handler calls, with the
    options it passes; [C] is the state of the client and of the daemon
    behind it. *)
Class TerminalClient (C : Type) : Type := {
    (* cli.ContainerExecCreate(ctx, containerID, execConfig) *)
    ExecCreate : string -> TtyExecOptions -> C -> (error + string) * C;
    (* cli.ContainerExecAttach(ctx, execID, container.ExecAttachOptions{Tty: tty}) *)
    ExecAttach : string -> bool -> C -> option error * C;
    (* cli.ContainerExecStart(ctx, execID, container.ExecStartOptions{Tty: tty}) *)
    ExecStart : string -> bool -> C -> option error * C
  }.

(** [type TerminalProvider interface].  [GetClient] returns a pointer:
    the client that the handler calls is the provider's, and what the
    calls do to it the provider sees; [withClient] is the provider over
    the client as the calls left it. *)
Class TerminalProvider (P C : Type) : Type := {
    GetContainerID : string -> P -> (string * option error) * P;
    GetClient : P -> C;
    withClient : C -> P -> P
  }.

(** What a failed [upgrader.Upgrade(w, r, nil)] of gorilla/websocket
    leaves behind: the error it returns and the HTTP error with which it
    has answered the request, if the connection was still its to answer. *)
Record UpgradeFailure : Type := {
    uf_err : error;
    uf_reply : option (Z * string)
  }.

Class Upgrader (W : Type) : Type :=
  Upgrade : W -> option UpgradeFailure * W.

Inductive Action : Type :=
  | HttpError (status : Z) (body : string)        (* http.Error(w, body, status) *)
  | UpgradeRefused (status : Z) (body : string)   (* the upgrader's own HTTP error *)
  | Upgraded                                      (* upgrader.Upgrade succeeded *)
  | CallExecCreate (containerID : string) (config : TtyExecOptions) (res : error + string)
  | CallExecAttach (execID : string) (tty : bool) (res : option error)
  | CallExecStart (execID : string) (tty : bool) (res : option error)
  | WriteText (message : string)             (* conn.WriteMessage(TextMessage, ...) *)
  | Bridge                                   (* both copy loops spawned, <-done reached *)
  | CloseResp                                (* deferred resp.Close() *)
  | CloseConn.                               (* deferred conn.Close() *)

Definition StatusBadRequest : Z := 400.
Definition StatusNotFound : Z := 404.

Definition shell : TtyExecOptions :=
  {| t_Cmd := ["/bin/sh"]; t_Tty := true; t_AttachStdin := true;
     t_AttachStdout := true; t_AttachStderr := true |}.

Section Handler.
Context {P C W : Type} `{!TerminalProvider P C, !TerminalClient C, !Upgrader W}.

(** A call on [h.P.GetClient()] *)
Definition onClient {A : Type} (call : C -> A * C) (p : P) : A * P :=
  let '(a, c) := call (GetClient p) in (a, withClient c p).

(** What the handler does once [<-done] is reached, while the events
    [evs] reach the bridge: it returns, and its deferred closes run, when
    it is scheduled after [done] was closed; otherwise it is still
    waiting and nothing is closed. *)
Definition afterBridge (evs : list Terminal.Event) : list Action :=
  match Terminal.handler (Terminal.run Terminal.start evs) with
  | Terminal.HandlerReturned => [CloseResp; CloseConn]
  | Terminal.WaitingDone => []
  end.

(** [func (h *TerminalHandler) ServeHTTP(w, r)] for the request path
    [path]: the actions taken, the provider and the world afterwards. *)
Definition ServeHTTP (path : string) (evs : list Terminal.Event) (p : P) (w : W)
  : list Action * P * W :=
  let sandboxID := sandboxIDOf path in
  if decide (sandboxID = "") then
    ([HttpError StatusBadRequest "sandbox ID required"], p, w)
  else
    let '((containerID, err), p) := GetContainerID sandboxID p in
    match err with
    | Some _ => ([HttpError StatusNotFound "sandbox not found"], p, w)
    | None =>
        let '(failure, w) := Upgrade w in
        match failure with
        | Some f =>
            (match uf_reply f with
             | Some (status, body) => [UpgradeRefused status body]
             | None => []
             end, p, w)
        | None =>
            let '(created, p) := onClient (ExecCreate containerID shell) p in
            let create := CallExecCreate containerID shell created in
            match created with
            | inl e =>
                ([Upgraded; create; WriteText ("Error: " +:+ Error e); CloseConn], p, w)
            | inr execID =>
                let '(attachErr, p) := onClient (ExecAttach execID true) p in
                let attach := CallExecAttach execID true attachErr in
                match attachErr with
                | Some e =>
                    ([Upgraded; create; attach; WriteText ("Error: " +:+ Error e);
                      CloseConn], p, w)
                | None =>
                    let '(startErr, p) := onClient (ExecStart execID true) p in
                    let start := CallExecStart execID true startErr in
                    match startErr with
                    | Some e =>
                        ([Upgraded; create; attach; start;
                          WriteText ("Error: " +:+ Error e); CloseResp; CloseConn], p, w)
                    | None =>
                        ([Upgraded; create; attach; start; Bridge] ++ afterBridge evs,
                         p, w)
                    end
                end
            end
        end
    end.

End Handler.

(** [GetContainerID] and [GetClient] of the Docker provider (main.go) *)
#[export] Instance DockerProvider_TerminalProvider {R : Type}
  : TerminalProvider (Docker.DockerProvider R) R :=
  {| GetContainerID := Docker.GetContainerID;
     GetClient := Docker.client;
     withClient r p :=
       Docker.mkProvider r (Docker.sandboxes p) (Docker.gcInterval p) (Docker.log p) |}.

End TerminalSetup.

(** ** Scripted library functions and a scripted upgrade, for running the
    file operations and the terminal set-up on concrete inputs *)

Module ScriptLib.
Import Rpc Docker.

(** Leading and trailing ASCII white space removed *)
Definition isSpace (b : byte) : bool :=
  match b with
  | x09 | x0a | x0b | x0c | x0d | x20 => true
  | _ => false
  end.

Fixpoint dropSpace (s : list byte) : list byte :=
  match s with
  | b :: rest => if isSpace b then dropSpace rest else s
  | [] => []
  end.

Definition trimSpace (s : list byte) : list byte :=
  reverse (dropSpace (reverse (dropSpace s))).

Definition digit (b : byte) : option Z :=
  match b with
  | x30 => Some 0 | x31 => Some 1 | x32 => Some 2 | x33 => Some 3 | x34 => Some 4
  | x35 => Some 5 | x36 => Some 6 | x37 => Some 7 | x38 => Some 8 | x39 => Some 9
  | _ => None
  end.

(** A run of decimal digits read as a number *)
Definition scanDigits (s : list byte) : option Z :=
  match s with
  | [] => None
  | _ => foldl (λ acc b, a ← acc; d ← digit b; Some (10 * a + d)) (Some 0) s
  end.

Definition encode (content : list byte) : string := "aGVsbG8=".

(** An upgrade that fails where told to *)
Record Peer : Type := mkPeer { upgradeFailure : option TerminalSetup.UpgradeFailure }.

#[export] Instance Peer_Upgrader : TerminalSetup.Upgrader Peer :=
  λ w, (upgradeFailure w, w).

Definition willing : Peer := mkPeer None.

(** A daemon whose terminal exec fails where told to, and that counts
    the calls it has served *)
Record Daemon : Type := mkDaemon {
    createErr : option error;
    attachErr : option error;
    startErr : option error;
    calls : nat
  }.

Definition served (d : Daemon) : Daemon :=
  mkDaemon (createErr d) (attachErr d) (startErr d) (S (calls d)).

#[export] Instance Daemon_TerminalClient : TerminalSetup.TerminalClient Daemon := {|
    TerminalSetup.ExecCreate _ _ d :=
      (match createErr d with Some e => inl e | None => inr "exec-tty" end, served d);
    TerminalSetup.ExecAttach _ _ d := (attachErr d, served d);
    TerminalSetup.ExecStart _ _ d := (startErr d, served d)
  |}.

(** The scripted runtime of the provider serves a terminal exec too. *)
#[export] Instance T_TerminalClient : TerminalSetup.TerminalClient Script.T := {|
    TerminalSetup.ExecCreate _ _ r := (inr "exec-tty", Script.tick r);
    TerminalSetup.ExecAttach _ _ r := (None, r);
    TerminalSetup.ExecStart _ _ r := (None, r)
  |}.

(** A provider over the daemon [d] with one registered sandbox *)
Definition attended (d : Daemon) : DockerProvider Daemon :=
  mkProvider d
    {[ "0a1b2c3d" := {| ID := "0a1b2c3d"; ContainerID := "c-sandbox-0a1b2c3d";
                        Template := "python"; CreatedAt := 1000;
                        ExpiresAt := 1000001000 |} ]}
    (30 * 1000 * Millisecond) [].

(** A runtime whose exec prints [src] and exits with [code] *)
Definition exiting (code : Z) (src : Reader) : Script.T :=
  Script.mk 1000 "0a1b2c3d-0000-4000-8000-000000000000" None None src code.

(** The listing of a directory with a file of five bytes and a directory *)
Definition listing : list Files.Listed :=
  [ {| Files.l_name := ["b"; "."; "t"; "x"; "t"]%byte; Files.l_size := ["5"]%byte;
       Files.l_type := ["f"]%byte; Files.l_mtime := ["1"; "."; "0"]%byte |};
    {| Files.l_name := ["s"; "r"; "c"]%byte; Files.l_size := ["4"; "0"; "9"; "6"]%byte;
       Files.l_type := ["d"]%byte; Files.l_mtime := ["2"; "."; "5"]%byte |} ].

(** What [find] prints for it: each line ended by a newline *)
Definition printed : list byte :=
  Files.joinLines (Files.printLine <$> listing) ++ [Files.newline].

End ScriptLib.

(** * Vocabulary of the specification *)

Module Vocabulary.
Import Rpc Docker.

(** Which sink the demultiplexer routes a frame to *)
Definition to_stdout (f : Frame) : bool :=
  match stream f with Stdin | Stdout => true | _ => false end.

Definition to_stderr (f : Frame) : bool :=
  match stream f with Stderr => true | _ => false end.

(** The bytes that a list of frames carries for one sink, in order *)
Fixpoint routed (sel : Frame -> bool) (fs : list Frame) : list byte :=
  match fs with
  | [] => []
  | f :: rest => if sel f then payload f ++ routed sel rest else routed sel rest
  end.

(** A limited sink that has been handed the bytes [data] so far: it holds
    the first [Max] of them, has counted what it holds, and has raised its
    flag if [data] did not fit. *)
Definition SinkInv (lw : limitedWriter) (data : list byte) : Prop :=
  0 <= Max lw /\
  W lw = take (Z.to_nat (Max lw)) data /\
  Written lw = len (W lw) /\
  (Max lw < len data -> Truncated lw = true).

(** The frames that [capture] consumed from the stream before it returned:
    all but those it left unread. *)
Definition handed (maxOut maxErr : Z) (src : Reader) : list Frame :=
  let '(_, _, rest, _) := capture maxOut maxErr src in
  take (length (frames src) - length rest)%nat (frames src).

(** A frame that carries at least one byte *)
Definition nonempty (f : Frame) : Prop := payload f <> [].

(** The flag is raised only if [data] did not fit. *)
Definition SinkExact (lw : limitedWriter) (data : list byte) : Prop :=
  Truncated lw = true -> Max lw < len data.

(** The response is a JSON-RPC error of the given kind and retry hint. *)
Definition fails_with (resp : RPCResponse) (kind : string) (retryable : bool) : Prop :=
  exists e d, resp_Error resp = Some e /\ Data e = Some d /\
              Type_ d = kind /\ Retryable d = retryable.

(** The JSON-RPC error code of a response, if it is an error *)
Definition error_code (resp : RPCResponse) : option Z := Code <$> resp_Error resp.

(** The methods that [ServeHTTP] has a case for *)
Definition dispatched : list string :=
  ["sandbox.v1.create"; "sandbox.v1.exec"; "sandbox.v1.delete"].

(** A well-formed JSON-RPC 2.0 request for method [m] *)
Definition request (id : option string) (m : string) (params : RawMessage) : Body :=
  BodyJSON {| req_JSONRPC := "2.0"; req_ID := id; req_Method := m; req_Params := params |}.

Definition createParams (template : string) (ttl_ms : Z) : RawMessage :=
  {| as_CreateParams := Some {| cp_Template := template; cp_TTLMS := ttl_ms |};
     as_ExecParams := None; as_DeleteParams := None |}.

Definition deleteParams (id : string) : RawMessage :=
  {| as_CreateParams := None; as_ExecParams := None;
     as_DeleteParams := Some {| dp_ID := id |} |}.

(** The closed set of templates of the specification *)
Definition known_templates : list string := ["python"; "node"; "go"].

Definition methodNotFound (id : option string) : RPCResponse :=
  errorResponse id {| Code := -32601; Message := "method not found"; Data := None |}.

Section Lifecycle.
Context {R : Type} `{!Runtime R}.

(** The container was created, and started successfully, according to
    the log. *)
Definition created (l : list Event) (containerID : string) : Prop :=
  exists config hostConfig name,
    EvContainerCreate config hostConfig name (inr containerID) ∈ l.

Definition started (l : list Event) (containerID : string) : Prop :=
  EvContainerStart containerID None ∈ l.

(** Every record of the registry corresponds to a container that was
    created and successfully started. *)
Definition registry_started (p : DockerProvider R) : Prop :=
  forall id sb, sandboxes p !! id = Some sb ->
    created (log p) (ContainerID sb) /\ started (log p) (ContainerID sb).

(** The four ways in which a call of [Create] can end, with what it
    leaves in the log and in the registry. *)
Inductive CreateOutcome (template : string) (p p' : DockerProvider R)
    : string * Z * option error -> Prop :=
  | CreateRejected e :
      (* unknown template, or the image pull failed *)
      sandboxes p' = sandboxes p -> log p' = log p ->
      CreateOutcome template p p' ("", zeroTime, Some e)
  | CreateRefused img name e :
      (* the runtime did not create the container *)
      sandboxes p' = sandboxes p ->
      log p' = log p ++
        [EvContainerCreate (sandboxConfig img) sandboxHostConfig name (inl e)] ->
      CreateOutcome template p p'
        ("", zeroTime, Some (wrapError "failed to create container: " e))
  | CreateStartFailed img name containerID e res :
      (* the container did not start: it is force-removed, nothing is inserted *)
      sandboxes p' = sandboxes p ->
      log p' = log p ++
        [EvContainerCreate (sandboxConfig img) sandboxHostConfig name (inr containerID);
         EvContainerStart containerID (Some e);
         EvContainerRemove containerID {| Force := true |} res] ->
      CreateOutcome template p p'
        ("", zeroTime, Some (wrapError "failed to start container: " e))
  | CreateInserted img sandboxID sb :
      (* created, started, and only then inserted *)
      templates !! template = Some img ->
      ID sb = sandboxID -> Template sb = template ->
      sandboxes p' = <[sandboxID := sb]> (sandboxes p) ->
      log p' = log p ++
        [EvContainerCreate (sandboxConfig img) sandboxHostConfig
           ("sandbox-" +:+ sandboxID) (inr (ContainerID sb));
         EvContainerStart (ContainerID sb) None;
         EvInsert sandboxID sb] ->
      CreateOutcome template p p' (sandboxID, ExpiresAt sb, None).

(** Every container creation in the log asked for the sandbox
    configuration. *)
Definition log_configured (l : list Event) : Prop :=
  forall config hostConfig name res,
    EvContainerCreate config hostConfig name res ∈ l ->
    hostConfig = sandboxHostConfig /\ exists img, config = sandboxConfig img.

(** Events of a removal: the registry delete and the runtime call *)
Definition removal_event (ev : Event) : Prop :=
  match ev with
  | EvDelete _ | EvContainerRemove _ _ _ => True
  | _ => False
  end.

(** [p'] comes from [p] by removals only: no record was added or
    changed, and the log grew by removal events. *)
Definition shrinks (p p' : DockerProvider R) : Prop :=
  (forall id sb, sandboxes p' !! id = Some sb -> sandboxes p !! id = Some sb) /\
  (forall id, sandboxes p !! id = None -> sandboxes p' !! id = None) /\
  exists suffix, log p' = log p ++ suffix /\ Forall removal_event suffix.

(** The two invariants of the provider *)
Definition invariant (p : DockerProvider R) : Prop :=
  registry_started p /\ log_configured (log p).

(** Where a race of deletes of the registered sandbox [id] stands, seen
    from the state [p] in which it began: either nobody has passed the
    lock, or exactly one goroutine (the winner) took the record, and
    every other goroutine is still before the lock or has returned
    "not found". *)
Definition RaceInv (p : DockerProvider R) (id : string) (sb : Sandbox)
    (ts : list DeleteThread) (q : DockerProvider R) : Prop :=
  (sandboxes q !! id = Some sb /\ log q = log p /\
   Forall (λ t, t = AtLock id) ts)
  \/
  (sandboxes q !! id = None /\
   exists i w removals,
     ts !! i = Some w /\
     log q = log p ++ EvDelete id :: removals /\
     ((w = AtRemove sb /\ removals = []) \/
      (exists res, w = Returned (wrapError "failed to remove container: " <$> res) /\
                   removals = [EvContainerRemove (ContainerID sb)
                                 {| Force := true |} res])) /\
     forall j t, j <> i -> ts !! j = Some t ->
                 t = AtLock id \/
                 t = Returned (Some (errorString ("sandbox not found: " +:+ id)))).

(** The error of a delete, as [Delete] wraps the runtime's *)
Definition removeError (res : option error) : option error :=
  wrapError "failed to remove container: " <$> res.

Definition notFound (sandboxID : string) : error :=
  errorString ("sandbox not found: " +:+ sandboxID).

End Lifecycle.

End Vocabulary.
Import Vocabulary.

(** ** Further vocabulary *)

Module Vocabulary2.
Import Rpc Docker.

(** The sink after the writes [ps], one after the other *)
Definition writeAll (lw : limitedWriter) (ps : list (list byte)) : limitedWriter :=
  foldl (λ lw p, (Write lw p).1) lw ps.

(** A frame of one of the three standard streams *)
Definition std (f : Frame) : Prop := to_stdout f = true \/ to_stderr f = true.

(** An exec request with the given numeric parameters *)
Definition execParams (id : string) (cmd : list string) (timeout_ms maxOut maxErr : Z)
  : RawMessage :=
  {| as_CreateParams := None;
     as_ExecParams := Some {| ep_ID := id; ep_Cmd := cmd; ep_Cwd := ""; ep_Env := ∅;
                              ep_TimeoutMS := timeout_ms;
                              ep_MaxStdoutBytes := maxOut;
                              ep_MaxStderrBytes := maxErr |};
     as_DeleteParams := None |}.

(** What a listing line stands for once parsed *)
Definition entryOf (scan : list byte -> option Z) (path : string) (e : Files.Listed)
  : Files.FileInfo :=
  let name := String.string_of_list_byte (Files.l_name e) in
  {| Files.Name := name;
     Files.Path := path +:+ "/" +:+ name;
     Files.IsDir := bool_decide (String.string_of_list_byte (Files.l_type e) = "d");
     Files.Size := default 0 (scan (Files.l_size e)) |}.

(** The characters of a string hold no slash. *)
Fixpoint slashFree (s : string) : Prop :=
  match s with
  | EmptyString => True
  | String c rest => c <> "/"%char /\ slashFree rest
  end.

(** The payloads of the container's output events, in order *)
Fixpoint outputs (evs : list Terminal.Event) : list (list byte) :=
  match evs with
  | Terminal.FromContainer (Terminal.Output data) :: rest => data :: outputs rest
  | _ :: rest => outputs rest
  | [] => []
  end.

(** The payloads of the client's messages, in order *)
Fixpoint messages (evs : list Terminal.Event) : list (list byte) :=
  match evs with
  | Terminal.FromClient (Terminal.Message data) :: rest => data :: messages rest
  | _ :: rest => messages rest
  | [] => []
  end.

(** Traffic only: output of the container and messages of the client *)
Definition traffic (ev : Terminal.Event) : Prop :=
  match ev with
  | Terminal.FromContainer (Terminal.Output _)
  | Terminal.FromClient (Terminal.Message _) => True
  | _ => False
  end.

(** The error codes of the dispatcher with the kind and retry hint that
    go with each; the method-not-found error carries no data. *)
Definition errorTable : list (Z * option (string * bool)) :=
  [(-32001, Some ("INVALID_PARAMS", false));
   (-32003, Some ("CONTAINER_CREATE_FAILED", true));
   (-32004, Some ("EXEC_TIMEOUT", true));
   (-32005, Some ("EXEC_FAILED", true));
   (-32007, Some ("DELETE_FAILED", true));
   (-32601, None)].

(** A response is either a result or an error of the table. *)
Definition wellShaped (r : RPCResponse) : Prop :=
  resp_JSONRPC r = "2.0" /\
  match resp_Error r, resp_Result r with
  | Some e, None => (Code e, (λ d, (Type_ d, Retryable d)) <$> Data e) ∈ errorTable
  | None, Some _ => True
  | _, _ => False
  end.

End Vocabulary2.
Import Vocabulary2.

(** * Properties *)

Import Rpc Docker.

(** ** The limited sink *)

Section Sink.

(** [Write] never returns an error, and never changes the cap. *)
Lemma Write_no_error lw p : (Write lw p).2.2 = None.
Proof.
  unfold Write, Buffer_Write.
  destruct (Max lw <=? Written lw); [done|].
  by destruct (Max lw - Written lw <? len p).
Qed.

Lemma Write_Max lw p : Max (Write lw p).1 = Max lw.
Proof.
  unfold Write, Buffer_Write.
  destruct (Max lw <=? Written lw); [done|].
  by destruct (Max lw - Written lw <? len p).
Qed.

(** The count [Write] reports: everything when the sink is already full or
    the chunk fits, only the room that was left when the chunk straddles
    the cap. *)
Lemma Write_count lw p :
  (Write lw p).2.1 =
    if Max lw <=? Written lw then len p
    else if Max lw - Written lw <? len p then Max lw - Written lw
         else len p.
Proof.
  unfold Write, Buffer_Write.
  destruct (Max lw <=? Written lw) eqn:Hfull; [done|].
  destruct (Max lw - Written lw <? len p) eqn:Hroom; [|done].
  cbn. unfold len. rewrite length_take.
  apply Z.leb_gt in Hfull. apply Z.ltb_lt in Hroom. unfold len in Hroom. lia.
Qed.

End Sink.

Section SinkInvariant.

Lemma SinkInv_new max : 0 <= max -> SinkInv (LimitedWriter.new max) [].
Proof.
  intros Hmax. unfold SinkInv, LimitedWriter.new, len; cbn.
  rewrite take_nil. repeat split; try done. lia.
Qed.

Lemma SinkExact_new max : SinkExact (LimitedWriter.new max) [].
Proof. unfold SinkExact; cbn. discriminate. Qed.

Lemma Write_inv lw data p :
  SinkInv lw data -> SinkInv (Write lw p).1 (data ++ p).
Proof.
  intros (Hmax & HW & Hwr & Htr).
  assert (Hlen : len (W lw) = Z.min (Max lw) (len data)).
  { rewrite HW. unfold len. rewrite length_take. lia. }
  unfold Write, Buffer_Write, SinkInv.
  destruct (Max lw <=? Written lw) eqn:Hfull; cbn.
  - apply Z.leb_le in Hfull.
    repeat split; try done.
    rewrite take_app_le; [done|]. unfold len in *. lia.
  - apply Z.leb_gt in Hfull.
    assert (Hall : W lw = data).
    { rewrite HW. apply take_ge. unfold len in *. lia. }
    destruct (Max lw - Written lw <? len p) eqn:Hroom; cbn.
    + apply Z.ltb_lt in Hroom.
      repeat split; try done.
      * rewrite take_app_ge by (unfold len in *; lia).
        rewrite Hall. do 2 f_equal. unfold len in *. lia.
      * unfold len in *. rewrite length_app, length_take. lia.
    + apply Z.ltb_ge in Hroom.
      repeat split; try done.
      * rewrite Hall. symmetry. apply take_ge.
        unfold len in *. rewrite length_app. lia.
      * unfold len in *. rewrite length_app. lia.
      * unfold len in *. rewrite length_app. lia.
Qed.

Lemma Write_exact lw data p :
  SinkInv lw data -> SinkExact lw data -> p <> [] ->
  SinkExact (Write lw p).1 (data ++ p).
Proof.
  intros (Hmax & HW & Hwr & Htr) Hex Hp.
  assert (Hlen : len (W lw) = Z.min (Max lw) (len data)).
  { rewrite HW. unfold len. rewrite length_take. lia. }
  assert (0 < len p) by (destruct p; [done | unfold len; cbn; lia]).
  unfold Write, Buffer_Write, SinkExact.
  destruct (Max lw <=? Written lw) eqn:Hfull; cbn.
  - apply Z.leb_le in Hfull. intros _.
    unfold len in *. rewrite length_app. lia.
  - apply Z.leb_gt in Hfull.
    destruct (Max lw - Written lw <? len p) eqn:Hroom; cbn.
    + apply Z.ltb_lt in Hroom. intros _.
      unfold len in *. rewrite length_app. lia.
    + intros Ht. apply Hex in Ht. unfold len in *. lia.
Qed.

End SinkInvariant.

Section Demux.

(** What the demultiplexer leaves behind: the frames it consumed ([dl]) are
    a prefix of the stream, and each sink has been handed exactly the bytes
    those frames route to it. *)
Lemma copy_frames_inv fs : forall (o e : limitedWriter) w rerr dout derr o' e' rest res,
  SinkInv o dout -> SinkInv e derr ->
  copy_frames o e w fs rerr = (o', e', rest, res) ->
  exists dl,
    fs = dl ++ rest /\
    SinkInv o' (dout ++ routed to_stdout dl) /\
    SinkInv e' (derr ++ routed to_stderr dl) /\
    (Forall nonempty dl -> SinkExact o dout ->
     SinkExact o' (dout ++ routed to_stdout dl)) /\
    (Forall nonempty dl -> SinkExact e derr ->
     SinkExact e' (derr ++ routed to_stderr dl)).
Proof.
  induction fs as [|f fs IH]; intros o e w rerr dout derr o' e' rest res Ho He Hrun.
  - exists []. cbn in Hrun. rewrite !app_nil_r.
    destruct rerr; inversion Hrun; subst; auto.
  - cbn [copy_frames] in Hrun. unfold write, limitedWriter_Writer in Hrun.
    destruct (stream f) eqn:Hs.
    1,2: (* routed to the stdout sink *)
      assert (Hto : to_stdout f = true) by (unfold to_stdout; by rewrite Hs);
      assert (Hte : to_stderr f = false) by (unfold to_stderr; by rewrite Hs);
      pose proof (Write_inv o dout (payload f) Ho) as Ho1;
      pose proof (Write_exact o dout (payload f) Ho) as Hx1;
      pose proof (Write_no_error o (payload f)) as Hne;
      destruct (Write o (payload f)) as [o1 [nw err]]; cbn in Ho1, Hx1, Hne; subst err;
      destruct (negb (nw =? len (payload f)));
      [ inversion Hrun; subst; exists [f]; cbn [routed app]; rewrite Hto, Hte;
        rewrite !app_nil_r; split_and!; auto;
        intros Hall Hex; apply Hx1; auto; by inversion Hall
      | destruct (IH _ _ _ _ _ derr _ _ _ _ Ho1 He Hrun) as (dl & -> & Ho' & He' & Hxo & Hxe);
        exists (f :: dl); cbn [routed app]; rewrite Hto, Hte;
        rewrite !app_assoc; split_and!; auto;
        intros Hall Hex; inversion Hall; subst;
        first [ by apply Hxe | apply Hxo; auto ] ].
    + (* routed to the stderr sink *)
      assert (Hto : to_stdout f = false) by (unfold to_stdout; by rewrite Hs).
      assert (Hte : to_stderr f = true) by (unfold to_stderr; by rewrite Hs).
      pose proof (Write_inv e derr (payload f) He) as He1.
      pose proof (Write_exact e derr (payload f) He) as Hx1.
      pose proof (Write_no_error e (payload f)) as Hne.
      destruct (Write e (payload f)) as [e1 [nw err]]; cbn in He1, Hx1, Hne; subst err.
      destruct (negb (nw =? len (payload f))).
      * inversion Hrun; subst. exists [f]. cbn [routed app]. rewrite Hto, Hte.
        rewrite !app_nil_r. split_and!; auto.
        intros Hall Hex. apply Hx1; auto. by inversion Hall.
      * destruct (IH _ _ _ _ dout _ _ _ _ _ Ho He1 Hrun) as (dl & -> & Ho' & He' & Hxo & Hxe).
        exists (f :: dl). cbn [routed app]. rewrite Hto, Hte.
        rewrite !app_assoc. split_and!; auto;
          intros Hall Hex; inversion Hall; subst;
          first [ by apply Hxo | apply Hxe; auto ].
    + inversion Hrun; subst. exists [f]. cbn. unfold to_stdout, to_stderr. rewrite Hs.
      rewrite !app_nil_r. split_and!; auto.
    + inversion Hrun; subst. exists [f]. cbn. unfold to_stdout, to_stderr. rewrite Hs.
      rewrite !app_nil_r. split_and!; auto.
Qed.

(** The demultiplexer never changes a sink's cap. *)
Lemma copy_frames_Max fs : forall (o e : limitedWriter) w rerr o' e' rest res,
  copy_frames o e w fs rerr = (o', e', rest, res) ->
  Max o' = Max o /\ Max e' = Max e.
Proof.
  induction fs as [|f fs IH]; intros o e w rerr o' e' rest res Hrun.
  - cbn in Hrun. destruct rerr; by inversion Hrun.
  - cbn [copy_frames] in Hrun. unfold write, limitedWriter_Writer in Hrun.
    destruct (stream f).
    1,2: pose proof (Write_Max o (payload f)) as HM;
         destruct (Write o (payload f)) as [o1 [nw [err|]]]; cbn in HM;
         [ by inversion Hrun; subst
         | destruct (negb (nw =? len (payload f)));
           [ by inversion Hrun; subst
           | apply IH in Hrun as [-> ->]; by rewrite HM ] ].
    + pose proof (Write_Max e (payload f)) as HM.
      destruct (Write e (payload f)) as [e1 [nw [err|]]]; cbn in HM.
      * by inversion Hrun; subst.
      * destruct (negb (nw =? len (payload f))).
        -- by inversion Hrun; subst.
        -- apply IH in Hrun as [-> ->]. by rewrite HM.
    + by inversion Hrun; subst.
    + by inversion Hrun; subst.
Qed.

(** A chunk that straddles the cap is reported as partly consumed. *)
Lemma Write_short lw p :
  Written lw < Max lw -> Max lw - Written lw < len p ->
  (Write lw p).2 = (Max lw - Written lw, None) /\ Max lw - Written lw < len p.
Proof.
  intros Hroom Hbig. split; [|done].
  pose proof (Write_count lw p) as Hn. pose proof (Write_no_error lw p) as He.
  destruct (Write lw p) as [lw' [n err]]; cbn in *. subst err.
  destruct (Max lw <=? Written lw) eqn:H1; [apply Z.leb_le in H1; lia|].
  destruct (Max lw - Written lw <? len p) eqn:H2; [by subst|].
  apply Z.ltb_ge in H2. lia.
Qed.

End Demux.

(** ** Stepping through the provider's code

[unfold_M] exposes the state passing of the monad; [run_calls] then
follows the code, splitting on the outcome of each runtime call. *)

Ltac unfold_M :=
  unfold Since, doContainerCreate, doContainerStart, doContainerRemove in *;
  unfold mbind, M_bind, mret, M_ret, call, emit, lookup_locked, insert_locked,
    delete_locked in *.

Ltac run_calls :=
  repeat (cbn in *;
          match goal with
          | |- context [let '(_, _) := ?e in _] =>
              lazymatch e with
              | context [let '(_, _) := _ in _] => fail
              | context [match _ with Some _ => _ | None => _ end] => fail
              | context [match _ with inl _ => _ | inr _ => _ end] => fail
              | _ => destruct e as [? ?] eqn:?
              end
          | |- context [match ?x with Some _ => _ | None => _ end] => is_var x; destruct x
          | |- context [match ?x with inl _ => _ | inr _ => _ end] => is_var x; destruct x
          end).

(** ** Exec: bounded capture *)

Section Capture.
Context {R : Type} `{!Runtime R}.

(** The frames [capture] consumed and the frames it left make up the stream. *)
Lemma capture_spec maxOut maxErr src o e rest res :
  0 <= maxOut -> 0 <= maxErr ->
  capture maxOut maxErr src = (o, e, rest, res) ->
  let dl := handed maxOut maxErr src in
  frames src = dl ++ rest /\
  SinkInv o (routed to_stdout dl) /\ SinkInv e (routed to_stderr dl) /\
  (Forall nonempty dl -> SinkExact o (routed to_stdout dl)) /\
  (Forall nonempty dl -> SinkExact e (routed to_stderr dl)).
Proof.
  intros Hout Herr Hcap. unfold handed. rewrite Hcap. unfold capture, StdCopy in Hcap.
  destruct (copy_frames_inv _ _ _ _ _ [] [] _ _ _ _
              (SinkInv_new _ Hout) (SinkInv_new _ Herr) Hcap)
    as (dl & Hfs & Ho & He & Hxo & Hxe).
  cbn [app] in Ho, He, Hxo, Hxe.
  assert (Hdl : take (length (frames src) - length rest) (frames src) = dl).
  { rewrite Hfs, length_app.
    replace (length dl + length rest - length rest)%nat with (length dl) by lia.
    by rewrite take_app_length. }
  cbn zeta. rewrite Hdl. split_and!; auto.
  - intros Hall. apply Hxo; auto using SinkExact_new.
  - intros Hall. apply Hxe; auto using SinkExact_new.
Qed.

(** What [Exec] returns once the runtime attached a stream: the capture of
    that stream. *)
Lemma Exec_attached ctx id cmd cwd env maxOut maxErr (p : DockerProvider R)
    sb t0 r1 execID r2 resp r3 o e rest res :
  sandboxes p !! id = Some sb ->
  time_Now (client p) = (t0, r1) ->
  ContainerExecCreate (ContainerID sb) (execOptions cmd cwd env) r1 = (inr execID, r2) ->
  ContainerExecAttach execID r2 = (inr resp, r3) ->
  capture maxOut maxErr (hr_Reader resp) = (o, e, rest, res) ->
  let r := (Exec ctx id cmd cwd env maxOut maxErr p).1 in
  x_stdout r = W o /\ x_stderr r = W e /\
  x_outTrunc r = Truncated o /\ x_errTrunc r = Truncated e /\ x_err r = None.
Proof.
  intros Hsb Hnow Hcreate Hattach Hcap.
  unfold Exec. unfold_M. cbn.
  rewrite Hnow; cbn. rewrite Hsb; cbn. rewrite Hcreate; cbn. rewrite Hattach; cbn.
  rewrite Hcap. run_calls. done.
Qed.

End Capture.

Section ExecCaps.
Context {R : Type} `{!Runtime R}.

(** C3 on the code: the caps do bound what is returned, but the flags do
    not tell what the stream produced.  When the first stdout frame is
    longer than a positive stdout cap, the limited writer reports a short
    count, the demultiplexer stops, and whatever follows in the stream is
    never read: stderr comes back empty with [stderr_truncated] false,
    also when the stream carries more than [maxErr] stderr bytes. *)
Theorem C3_short_write_hides_truncation ctx id cmd cwd env maxOut maxErr
    (p : DockerProvider R) sb t0 r1 execID r2 resp r3 data rest :
  0 < maxOut < len data ->
  sandboxes p !! id = Some sb ->
  time_Now (client p) = (t0, r1) ->
  ContainerExecCreate (ContainerID sb) (execOptions cmd cwd env) r1 = (inr execID, r2) ->
  ContainerExecAttach execID r2 = (inr resp, r3) ->
  frames (hr_Reader resp) = frame Stdout data :: rest ->
  0 <= maxErr < len (routed to_stderr rest) ->
  let r := (Exec ctx id cmd cwd env maxOut maxErr p).1 in
  x_err r = None /\
  x_stdout r = take (Z.to_nat maxOut) data /\ x_outTrunc r = true /\
  x_stderr r = [] /\ x_errTrunc r = false /\
  len (x_stdout r) <= maxOut /\ len (x_stderr r) <= maxErr /\
  ~ (x_errTrunc r = true <->
     maxErr < len (routed to_stderr (frames (hr_Reader resp)))).
Proof.
  intros Hcap Hsb Hnow Hcreate Hattach Hframes Hmore r.
  assert (Hrouted : routed to_stderr (frames (hr_Reader resp)) = routed to_stderr rest).
  { rewrite Hframes. reflexivity. }
  assert (Hlen : length (take (Z.to_nat maxOut) data) = Z.to_nat maxOut).
  { rewrite length_take. unfold len in Hcap. lia. }
  assert (Hcapture : capture maxOut maxErr (hr_Reader resp) =
            (LimitedWriter.mk (take (Z.to_nat maxOut) data) maxOut maxOut true,
             LimitedWriter.new maxErr, rest, (0, Some ErrShortWrite))).
  { unfold capture, StdCopy. rewrite Hframes.
    cbn [copy_frames stream payload].
    change (write (LimitedWriter.new maxOut) data) with (Write (LimitedWriter.new maxOut) data).
    unfold Write, Buffer_Write, LimitedWriter.new. cbn [Max Written W Truncated].
    destruct (maxOut <=? 0) eqn:H0; [apply Z.leb_le in H0; lia|].
    rewrite Z.sub_0_r.
    destruct (maxOut <? len data) eqn:H1; [|apply Z.ltb_ge in H1; lia].
    cbn [app].
    assert (Hl : len (take (Z.to_nat maxOut) data) = maxOut)
      by (unfold len; rewrite Hlen; lia).
    rewrite !Hl.
    destruct (maxOut =? len data) eqn:H2; [apply Z.eqb_eq in H2; lia|].
    cbn [negb]. by rewrite Z.add_0_l. }
  destruct (Exec_attached ctx id cmd cwd env maxOut maxErr p _ _ _ _ _ _ _ _ _ _ _
              Hsb Hnow Hcreate Hattach Hcapture) as (Hso & Hse & Hto & Hte & Herr).
  fold r in Hso, Hse, Hto, Hte, Herr. cbn in Hso, Hse, Hto, Hte.
  rewrite Hso, Hse, Hto, Hte, Herr, Hrouted.
  split_and!; try done.
  - unfold len. rewrite Hlen. lia.
  - unfold len. cbn. lia.
  - intros [_ Hflag]. by specialize (Hflag (proj2 Hmore)).
Qed.

End ExecCaps.

Section ExecCapsExamples.
Import Script.

Lemma C3_short_write_hides_truncation_witness :
  let src := reader [frame Stdout ["a"; "b"]%byte; frame Stderr ["c"; "d"]%byte] None in
  let r := (Exec background "0a1b2c3d" ["sh"] "" ∅ 1 1 (serving (streaming src))).1 in
  x_err r = None /\
  x_stdout r = take (Z.to_nat 1) ["a"; "b"]%byte /\ x_outTrunc r = true /\
  x_stderr r = [] /\ x_errTrunc r = false /\
  len (x_stdout r) <= 1 /\ len (x_stderr r) <= 1 /\
  ~ (x_errTrunc r = true <-> 1 < len (routed to_stderr (frames src))).
Proof.
  pose (src := reader [frame Stdout ["a"; "b"]%byte; frame Stderr ["c"; "d"]%byte] None).
  refine (C3_short_write_hides_truncation background "0a1b2c3d" ["sh"] "" ∅ 1 1
            (serving (streaming src))
            {| ID := "0a1b2c3d"; ContainerID := "c-sandbox-0a1b2c3d";
               Template := "python"; CreatedAt := 1000; ExpiresAt := 1000001000 |}
            1001 (tick (tick (streaming src))) "exec-1"
            (tick (tick (streaming src))) {| hr_Reader := src |}
            (tick (tick (streaming src)))
            ["a"; "b"]%byte [frame Stderr ["c"; "d"]%byte] _ _ _ _ _ _ _).
  - vm_compute. split; reflexivity.
  - vm_compute. reflexivity.
  - vm_compute. reflexivity.
  - reflexivity.
  - reflexivity.
  - reflexivity.
  - vm_compute. split; [discriminate|reflexivity].
Defined.

(** The flag is not exact in the other direction either: a frame without
    payload that reaches a sink filled to the brim raises it, although
    exactly [max_stdout] stdout bytes were produced. *)
Lemma empty_frame_raises_the_flag :
  let src := reader [frame Stdout ["a"]%byte; frame Stdout []] None in
  let r := (Exec background "0a1b2c3d" ["true"] "" ∅ 1 1 (serving (streaming src))).1 in
  ~ (x_outTrunc r = true <-> 1 < len (routed to_stdout (frames src))).
Proof.
  vm_compute. intros [H _]. specialize (H eq_refl). discriminate.
Qed.

(** C2 on the code: a limited sink with room for one byte reports the
    write of two bytes as one byte consumed; the demultiplexer takes that
    for a short write and returns, leaving the rest of the stream unread. *)
Theorem C2_straddling_write_stops_demux :
  let src := reader [frame Stdout ["a"; "b"]%byte; frame Stdout ["c"]%byte] None in
  (Write (LimitedWriter.new 1) ["a"; "b"]%byte).2 = (1, None) /\
  len ["a"; "b"]%byte = 2 /\
  (capture 1 1 src).1.2 = [frame Stdout ["c"]%byte] /\
  (capture 1 1 src).2 = (0, Some ErrShortWrite).
Proof. vm_compute. done. Qed.

End ExecCapsExamples.

(** ** The JSON-RPC dispatcher *)

Section Dispatch.
Context {P : Type} `{!Provider P}.

(** C1 on the code: the three file methods have no case in the dispatch
    and are answered with "method not found". *)
Theorem C1_file_methods_not_dispatched (id : option string) (params : RawMessage)
    (now : Z) (s : P) :
  ServeHTTP (request id "sandbox.v1.writeFile" params) now s = (methodNotFound id, s) /\
  ServeHTTP (request id "sandbox.v1.readFile" params) now s = (methodNotFound id, s) /\
  ServeHTTP (request id "sandbox.v1.listDir" params) now s = (methodNotFound id, s).
Proof. split_and!; reflexivity. Qed.

Lemma serveCreate_code req now s :
  error_code (serveCreate req now s).1 <> Some (-32601).
Proof.
  unfold serveCreate.
  destruct (as_CreateParams (req_Params req)) as [p|]; [|done].
  destruct (decide (cp_Template p = "")); [done|].
  destruct (Rpc.Create _ _ _ s) as [[[sid exp] [e|]] s']; done.
Qed.

Lemma serveExec_code req s :
  error_code (serveExec req s).1 <> Some (-32601).
Proof.
  unfold serveExec.
  destruct (as_ExecParams (req_Params req)) as [p|]; [|done].
  destruct (decide (ep_ID p = "")); [done|].
  destruct (len (ep_Cmd p) =? 0); [done|].
  destruct (Rpc.Exec _ _ _ _ _ _ _ s) as [r s'].
  destruct (x_err r) as [e|]; [|done].
  destruct (IsDeadlineExceeded e || x_timedOut r); done.
Qed.

Lemma serveDelete_code req s :
  error_code (serveDelete req s).1 <> Some (-32601).
Proof.
  unfold serveDelete.
  destruct (as_DeleteParams (req_Params req)) as [p|]; [|done].
  destruct (decide (dp_ID p = "")); [done|].
  destruct (Rpc.Delete _ _ s) as [[e|] s']; done.
Qed.

(** What does hold of the dispatch: a well-formed request is answered
    with code -32601 exactly when its method is none of create, exec and
    delete. *)
Lemma ServeHTTP_method_not_found_iff id m params now s :
  m <> "" ->
  (error_code (ServeHTTP (request id m params) now s).1 = Some (-32601)
   <-> m ∉ dispatched).
Proof.
  intros Hm. unfold ServeHTTP, request, dispatched. cbn.
  rewrite (bool_decide_eq_false_2 (m = "")) by done.
  rewrite (bool_decide_eq_true_2 ("2.0" = "2.0")) by done. cbn.
  repeat case_bool_decide; subst.
  - split; [intros Hc; by apply serveCreate_code in Hc|].
    intros Hn. contradict Hn. apply list_elem_of_here.
  - split; [intros Hc; by apply serveExec_code in Hc|].
    intros Hn. contradict Hn. apply list_elem_of_further, list_elem_of_here.
  - split; [intros Hc; by apply serveDelete_code in Hc|].
    intros Hn. contradict Hn. do 2 apply list_elem_of_further. apply list_elem_of_here.
  - split; [intros _|done]. intros Hin.
    repeat (apply elem_of_cons in Hin as [?|Hin]; [done|]).
    by apply elem_of_nil in Hin.
Qed.

(** The caps that the exec case hands to the provider are positive and at
  most the 10 MiB ceiling. *)
Lemma clamp_range v dflt cap :
  0 < dflt <= cap -> 0 < clamp v dflt cap <= cap.
Proof.
  intros Hd. unfold clamp.
  destruct (v <=? 0) eqn:Hv.
  - destruct (cap <? dflt) eqn:Hc; [apply Z.ltb_lt in Hc|]; lia.
  - apply Z.leb_gt in Hv.
    destruct (cap <? v) eqn:Hc; [apply Z.ltb_lt in Hc | apply Z.ltb_ge in Hc]; lia.
Qed.

End Dispatch.

(** ** Create with an unknown template *)

Section UnknownTemplate.
Context {R : Type} `{!Runtime R}.

Lemma templates_lookup_None t : templates !! t = None <-> t ∉ known_templates.
Proof.
  unfold templates, known_templates.
  rewrite !lookup_insert_None, lookup_empty, !not_elem_of_cons.
  pose proof (not_elem_of_nil t). intuition congruence.
Qed.

(** The provider rejects an unknown template before it touches the
    runtime or the registry. *)
Lemma Create_unknown_template ctx t ttl (p : DockerProvider R) :
  t ∉ known_templates ->
  Create ctx t ttl p = (("", zeroTime, Some (errorString ("unknown template: " +:+ t))), p).
Proof.
  intros Ht%templates_lookup_None. unfold Create. by rewrite Ht.
Qed.

(** C4, as the code has it.  A create request whose template is outside
    {python, node, go} fails and creates nothing: with INVALID_PARAMS, not
    retryable, when the template is empty; with CONTAINER_CREATE_FAILED
    (code -32003), marked retryable and carrying the provider's "unknown
    template" message, when it is not. *)
Theorem C4_unknown_template_create id params t ttl_ms now (p : DockerProvider R) :
  as_CreateParams params = Some {| cp_Template := t; cp_TTLMS := ttl_ms |} ->
  t ∉ known_templates ->
  ServeHTTP (request id "sandbox.v1.create" params) now p =
    (if decide (t = "") then invalidParams id
     else errorResponse id
            (rpcErr (-32003) "container create failed" "CONTAINER_CREATE_FAILED" true
               (DetailsErr ("unknown template: " +:+ t))),
     p).
Proof.
  intros Hp Ht. unfold ServeHTTP, request. cbn. unfold serveCreate. cbn. rewrite Hp. cbn.
  destruct (decide (t = "")); [done|].
  change (Rpc.Create ?c ?t ?l ?s) with (Create c t l s).
  by rewrite Create_unknown_template.
Qed.

End UnknownTemplate.

Section UnknownTemplateExamples.
Import Script.

Lemma C4_unknown_template_create_witness :
  ServeHTTP (request (Some "1") "sandbox.v1.create" (createParams "ruby" 0)) 0
    (NewDockerProvider quiet) =
  (errorResponse (Some "1")
     (rpcErr (-32003) "container create failed" "CONTAINER_CREATE_FAILED" true
        (DetailsErr "unknown template: ruby")),
   NewDockerProvider quiet).
Proof.
  apply (C4_unknown_template_create (Some "1") (createParams "ruby" 0) "ruby" 0 0
           (NewDockerProvider quiet)).
  - reflexivity.
  - apply templates_lookup_None. reflexivity.
Defined.

(** C4 as stated fails: the unknown template "ruby" is not answered with
    INVALID_PARAMS, and the error it is answered with is marked retryable. *)
Lemma C4_counterexample :
  let resp := (ServeHTTP (request (Some "1") "sandbox.v1.create" (createParams "ruby" 0)) 0
                 (NewDockerProvider quiet)).1 in
  ("ruby" ∉ known_templates) /\
  ~ fails_with resp "INVALID_PARAMS" false /\
  fails_with resp "CONTAINER_CREATE_FAILED" true.
Proof.
  split_and!.
  - apply templates_lookup_None. reflexivity.
  - intros (e & d & He & Hd & Hk & _). vm_compute in He. inversion He; subst e.
    vm_compute in Hd. inversion Hd; subst d. vm_compute in Hk. discriminate.
  - eexists _, _. split_and!; reflexivity.
Qed.

End UnknownTemplateExamples.

(** ** The registry and the container lifecycle *)

Section Lifecycle.
Context {R : Type} `{!Runtime R}.
Implicit Types p : DockerProvider R.

Lemma Create_outcome ctx template ttl p :
  CreateOutcome template p (Create ctx template ttl p).2 (Create ctx template ttl p).1.
Proof.
  unfold Create. destruct (templates !! template) as [img|] eqn:Himg.
  - unfold_M. run_calls.
    all: try (by apply CreateRejected).
    all: try (by eapply CreateRefused).
    all: try (by eapply CreateStartFailed; cbn; rewrite <- ?app_assoc).
    all: eapply (CreateInserted _ _ _ img _
                   {| ID := _; ContainerID := _; Template := _;
                      CreatedAt := _; ExpiresAt := _ |});
      cbn; rewrite <- ?app_assoc; done.
  - by apply CreateRejected.
Qed.

Lemma Delete_registered ctx id p sb :
  sandboxes p !! id = Some sb ->
  exists res r',
    ContainerRemove (ContainerID sb) {| Force := true |} (client p) = (res, r') /\
    Delete ctx id p =
      (removeError res,
       mkProvider r' (delete id (sandboxes p)) (gcInterval p)
         (log p ++ [EvDelete id; EvContainerRemove (ContainerID sb) {| Force := true |} res])).
Proof.
  intros Hsb. unfold Delete. unfold_M. cbn. rewrite Hsb. cbn.
  destruct (ContainerRemove _ _ (client p)) as [res r'] eqn:Hrm.
  exists res, r'. split; [done|]. cbn. rewrite <- app_assoc.
  by destruct res.
Qed.

Lemma Delete_unregistered ctx id p :
  sandboxes p !! id = None ->
  Delete ctx id p = (Some (notFound id), p).
Proof.
  intros Hsb. unfold Delete. unfold_M. cbn. by rewrite Hsb.
Qed.

Lemma Exec_state ctx id cmd cwd env maxOut maxErr p :
  let p' := (Exec ctx id cmd cwd env maxOut maxErr p).2 in
  sandboxes p' = sandboxes p /\ log p' = log p.
Proof.
  unfold Exec. unfold_M. cbn.
  destruct (time_Now (client p)) as [t0 r1]. cbn.
  destruct (sandboxes p !! id); [|done]. run_calls; done.
Qed.

Lemma Exec_unregistered ctx id cmd cwd env maxOut maxErr p :
  sandboxes p !! id = None ->
  x_err (Exec ctx id cmd cwd env maxOut maxErr p).1 = Some (notFound id).
Proof.
  intros Hsb. unfold Exec. unfold_M. cbn.
  destruct (time_Now (client p)) as [t0 r1]. cbn. by rewrite Hsb.
Qed.

Lemma GetContainerID_state id p : (GetContainerID id p).2 = p.
Proof. unfold GetContainerID. unfold_M. cbn. by destruct (sandboxes p !! id). Qed.

Lemma GetContainerID_unregistered id p :
  sandboxes p !! id = None ->
  GetContainerID id p = (("", Some (notFound id)), p).
Proof. intros Hsb. unfold GetContainerID. unfold_M. cbn. by rewrite Hsb. Qed.

End Lifecycle.

Section Invariants.
Context {R : Type} `{!Runtime R}.
Implicit Types p : DockerProvider R.

Lemma shrinks_refl p : shrinks p p.
Proof.
  split_and!; auto. exists []. by rewrite app_nil_r.
Qed.

Lemma shrinks_trans p1 p2 p3 : shrinks p1 p2 -> shrinks p2 p3 -> shrinks p1 p3.
Proof.
  intros (Hs1 & Hn1 & l1 & Hl1 & Hf1) (Hs2 & Hn2 & l2 & Hl2 & Hf2).
  split_and!; auto.
  exists (l1 ++ l2). rewrite Hl2, Hl1, app_assoc. split; [done|].
  by apply Forall_app.
Qed.

Lemma Delete_shrinks ctx id p : shrinks p (Delete ctx id p).2.
Proof.
  destruct (sandboxes p !! id) as [sb|] eqn:Hsb.
  - destruct (Delete_registered ctx id p sb Hsb) as (res & r' & _ & ->). cbn.
    unfold shrinks; cbn. split_and!.
    + intros id' sb'. rewrite lookup_delete_Some. tauto.
    + intros id' Hn. rewrite lookup_delete_None. tauto.
    + eexists. split; [done|]. repeat constructor.
  - rewrite Delete_unregistered by done. apply shrinks_refl.
Qed.

Lemma deleteAll_shrinks ids : forall p, shrinks p (deleteAll ids p).2.
Proof.
  induction ids as [|id ids IH]; intros p; [apply shrinks_refl|].
  cbn [deleteAll]. unfold mbind, M_bind.
  pose proof (Delete_shrinks {| ctx_Timeout := Some (10 * 1000 * Millisecond) |} id p) as Hd.
  destruct (Delete _ id p) as [err p1]. cbn in Hd.
  eapply shrinks_trans; [exact Hd | apply IH].
Qed.

Lemma cleanupExpired_shrinks p : shrinks p (cleanupExpired p).2.
Proof.
  unfold cleanupExpired, expired_locked. unfold_M. cbn.
  destruct (time_Now (client p)) as [now r1]. cbn.
  eapply shrinks_trans; [|apply deleteAll_shrinks].
  split_and!; auto. exists []. by rewrite app_nil_r.
Qed.

Lemma shrinks_registry_started p p' :
  shrinks p p' -> registry_started p -> registry_started p'.
Proof.
  intros (Hs & _ & l & Hl & _) Hinv id sb Hsb.
  destruct (Hinv id sb (Hs _ _ Hsb)) as [(c & h & n & Hc) Hst].
  unfold created, started. rewrite Hl. split.
  - exists c, h, n. apply elem_of_app. by left.
  - apply elem_of_app. by left.
Qed.

Lemma shrinks_log_configured p p' :
  shrinks p p' -> log_configured (log p) -> log_configured (log p').
Proof.
  intros (_ & _ & l & Hl & Hf) Hinv c h n res. rewrite Hl, elem_of_app.
  intros [Hin|Hin]; [by eapply Hinv|].
  rewrite Forall_forall in Hf. by apply Hf in Hin.
Qed.

Lemma CreateOutcome_registry_started template p p' ret :
  CreateOutcome template p p' ret -> registry_started p -> registry_started p'.
Proof.
  intros Hout Hinv.
  assert (Hgrow : forall l, sandboxes p' = sandboxes p -> log p' = log p ++ l ->
                            registry_started p').
  { intros l Hs Hl id sb. rewrite Hs, Hl. intros Hsb.
    destruct (Hinv id sb Hsb) as [(c & h & n & Hc) Hst]. split.
    - exists c, h, n. apply elem_of_app. by left.
    - apply elem_of_app. by left. }
  destruct Hout as [e Hs Hl | img name e Hs Hl | img name cid e res Hs Hl
                   | img sid sb Himg Hid Ht Hs Hl].
  - apply (Hgrow []); [done | by rewrite app_nil_r].
  - by eapply Hgrow.
  - by eapply Hgrow.
  - intros id sb'. rewrite Hs, Hl. unfold created, started.
    intros [[-> ->]|[_ Hsb]]%lookup_insert_Some.
    + split.
      * eexists _, _, _. apply elem_of_app. right. apply list_elem_of_here.
      * apply elem_of_app. right. apply list_elem_of_further, list_elem_of_here.
    + destruct (Hinv id sb' Hsb) as [(c & h & n & Hc) Hst]. split.
      * exists c, h, n. apply elem_of_app. by left.
      * apply elem_of_app. by left.
Qed.

Lemma CreateOutcome_log_configured template p p' ret :
  CreateOutcome template p p' ret -> log_configured (log p) -> log_configured (log p').
Proof.
  intros Hout Hinv c h n r.
  destruct Hout as [e Hs Hl | img name e Hs Hl | img name cid e res Hs Hl
                   | img sid sb Himg Hid Ht Hs Hl]; rewrite Hl.
  - apply Hinv.
  - rewrite elem_of_app. intros [Hin|Hin]; [by eapply Hinv|].
    apply list_elem_of_singleton in Hin. inversion Hin; subst. eauto.
  - rewrite elem_of_app. intros [Hin|Hin]; [by eapply Hinv|].
    repeat (apply elem_of_cons in Hin as [Hin|Hin]; [inversion Hin; subst; eauto|]).
    by apply elem_of_nil in Hin.
  - rewrite elem_of_app. intros [Hin|Hin]; [by eapply Hinv|].
    repeat (apply elem_of_cons in Hin as [Hin|Hin]; [inversion Hin; subst; eauto|]).
    by apply elem_of_nil in Hin.
Qed.

Lemma run_op_invariant op p : invariant p -> invariant (run_op op p).2.
Proof.
  intros [Hreg Hlog].
  assert (Hsh : forall p', shrinks p p' -> invariant p').
  { intros p' Hsh. split; [by eapply shrinks_registry_started
                          | by eapply shrinks_log_configured]. }
  destruct op as [ctx t ttl | ctx id cmd cwd env mo me | ctx id | | id];
    cbn [run_op]; unfold mbind, M_bind, mret, M_ret.
  - pose proof (Create_outcome ctx t ttl p) as Hout.
    destruct (Create ctx t ttl p) as [ret p']. cbn in *.
    split; [by eapply CreateOutcome_registry_started
           | by eapply CreateOutcome_log_configured].
  - pose proof (Exec_state ctx id cmd cwd env mo me p) as [Hs Hl].
    destruct (Exec ctx id cmd cwd env mo me p) as [ret p']. cbn in *.
    split.
    + intros i sb. rewrite Hs, Hl. apply Hreg.
    + by rewrite Hl.
  - pose proof (Delete_shrinks ctx id p) as Hd.
    destruct (Delete ctx id p) as [ret p']. cbn in *. by apply Hsh.
  - pose proof (cleanupExpired_shrinks p) as Hd.
    destruct (cleanupExpired p) as [ret p']. cbn in *. by apply Hsh.
  - pose proof (GetContainerID_state id p) as Hd.
    destruct (GetContainerID id p) as [ret p']. cbn in *. by subst.
Qed.

Lemma run_ops_invariant ops : forall p, invariant p -> invariant (run_ops ops p).2.
Proof.
  induction ops as [|op ops IH]; intros p Hinv; [done|].
  cbn [run_ops]. unfold mbind, M_bind, mret, M_ret.
  pose proof (run_op_invariant op p Hinv) as H1.
  destruct (run_op op p) as [r p1]. cbn in H1.
  specialize (IH p1 H1). destruct (run_ops ops p1) as [rs p2]. done.
Qed.

Lemma NewDockerProvider_invariant (cli : R) : invariant (NewDockerProvider cli).
Proof.
  split.
  - intros id sb. cbn. by rewrite lookup_empty.
  - intros c h n r. cbn. by rewrite elem_of_nil.
Qed.

End Invariants.

(** ** Delete *)

Section DeleteRace.
Context {R : Type} `{!Runtime R}.
Implicit Types p q : DockerProvider R.

(** [Delete] is its two atomic sections run back to back. *)
Lemma Delete_as_steps ctx id p :
  let '(t1, p1) := delete_step (AtLock id) p in
  let '(t2, p2) := delete_step t1 p1 in
  t2 = Returned (Delete ctx id p).1 /\ p2 = (Delete ctx id p).2.
Proof.
  unfold Delete, delete_step. unfold_M. cbn.
  destruct (sandboxes p !! id) as [sb|]; cbn; [|done].
  destruct (ContainerRemove _ _ (client p)) as [[e|] r']; done.
Qed.

Lemma delete_step_race p id sb ts q k t :
  RaceInv p id sb ts q -> ts !! k = Some t ->
  RaceInv p id sb (<[k := (delete_step t q).1]> ts) (delete_step t q).2.
Proof.
  intros [(Hsb & Hlog & Hall) | (Hsb & i & w & rm & Hi & Hlog & Hw & Hothers)] Hk.
  - (* nobody has passed the lock: [k] is the first *)
    rewrite Forall_lookup in Hall. pose proof (Hall _ _ Hk) as ->.
    unfold delete_step. unfold_M. cbn. rewrite Hsb. cbn.
    right. split; [apply lookup_delete_eq|].
    exists k, (AtRemove sb), []. split_and!.
    + apply list_lookup_insert_eq. by eapply lookup_lt_Some.
    + by rewrite Hlog.
    + by left.
    + intros j t' Hj. rewrite list_lookup_insert_ne by done.
      intros Ht'. left. by eapply Hall.
  - destruct (decide (k = i)) as [->|Hne].
    + (* the winner moves on *)
      assert (t = w) as -> by congruence.
      destruct Hw as [[-> ->] | (res & -> & ->)].
      * unfold delete_step. unfold_M. cbn.
        destruct (ContainerRemove _ _ (client q)) as [res r'] eqn:Hrm.
        destruct res as [e|]; cbn.
        -- right; split; [done|].
           exists i, (Returned (Some (wrapError "failed to remove container: " e))),
             [EvContainerRemove (ContainerID sb) {| Force := true |} (Some e)].
           split_and!;
             [ apply list_lookup_insert_eq; by eapply lookup_lt_Some
             | by rewrite Hlog, <- app_assoc
             | right; by exists (Some e)
             | intros j t' Hj; rewrite list_lookup_insert_ne by done; by apply Hothers ].
        -- right; split; [done|].
           exists i, (Returned None),
             [EvContainerRemove (ContainerID sb) {| Force := true |} None].
           split_and!;
             [ apply list_lookup_insert_eq; by eapply lookup_lt_Some
             | by rewrite Hlog, <- app_assoc
             | right; by exists None
             | intros j t' Hj; rewrite list_lookup_insert_ne by done; by apply Hothers ].
      * cbn. rewrite list_insert_id by done.
        right. split; [done|].
        exists i, (Returned (wrapError "failed to remove container: " <$> res)),
          [EvContainerRemove (ContainerID sb) {| Force := true |} res].
        split_and!; eauto.
    + (* a loser: it finds the registry without the record *)
      destruct (Hothers _ _ Hne Hk) as [-> | ->].
      * unfold delete_step. unfold_M. cbn. rewrite Hsb. cbn.
        right. split; [done|]. exists i, w, rm. split_and!; auto.
        -- by rewrite list_lookup_insert_ne.
        -- intros j t' Hj. destruct (decide (j = k)) as [->|Hjk].
           ++ rewrite list_lookup_insert_eq by (by eapply lookup_lt_Some).
              intros [= <-]. by right.
           ++ rewrite list_lookup_insert_ne by done. by apply Hothers.
      * cbn. rewrite list_insert_id by done.
        right. split; [done|]. exists i, w, rm. split_and!; auto.
Qed.

Lemma run_schedule_race p id sb sched : forall ts q,
  RaceInv p id sb ts q ->
  RaceInv p id sb (run_schedule sched ts q).1 (run_schedule sched ts q).2.
Proof.
  induction sched as [|k sched IH]; intros ts q Hinv; [done|].
  cbn [run_schedule]. destruct (ts !! k) as [t|] eqn:Hk; [|by apply IH].
  unfold mbind, M_bind.
  pose proof (delete_step_race _ _ _ _ _ _ _ Hinv Hk) as Hstep.
  destruct (delete_step t q) as [t' q']. cbn in Hstep. by apply IH.
Qed.

End DeleteRace.

Section DeleteClaims.
Context {R : Type} `{!Runtime R}.
Implicit Types p q : DockerProvider R.

Lemma ServeHTTP_delete rid id now p :
  id <> "" ->
  ServeHTTP (request rid "sandbox.v1.delete" (deleteParams id)) now p =
    (match (Delete {| ctx_Timeout := None |} id p).1 with
     | Some e => errorResponse rid
                   (rpcErr (-32007) "delete failed" "DELETE_FAILED" true
                      (DetailsErr (Error e)))
     | None => resultResponse rid (ResDelete {| dr_OK := true |})
     end,
     (Delete {| ctx_Timeout := None |} id p).2).
Proof.
  intros Hid. unfold ServeHTTP, request. cbn. unfold serveDelete. cbn.
  destruct (decide (id = "")); [done|].
  change (Rpc.Delete ?c ?i ?s) with (Delete c i s).
  by destruct (Delete _ id p) as [[e|] p'].
Qed.

(** The context plays no part in what [Delete] does. *)
Lemma Delete_ctx ctx ctx' id p : Delete ctx id p = Delete ctx' id p.
Proof. reflexivity. Qed.

(** A sandbox id stays unregistered as long as no create returns it. *)
Lemma unregistered_stable id ops : forall p,
  sandboxes p !! id = None ->
  (forall r, RetCreate r ∈ (run_ops ops p).1 -> r.1.1 <> id) ->
  sandboxes (run_ops ops p).2 !! id = None.
Proof.
  induction ops as [|op ops IH]; intros p Hnone Hfresh; [done|].
  cbn [run_ops] in *. unfold mbind, M_bind, mret, M_ret in *.
  assert (Hstep : sandboxes (run_op op p).2 !! id = None
                  \/ exists r, (run_op op p).1 = RetCreate r /\ r.1.1 = id).
  { destruct op as [ctx t ttl | ctx i cmd cwd env mo me | ctx i | | i];
      cbn [run_op]; unfold mbind, M_bind, mret, M_ret.
    - pose proof (Create_outcome ctx t ttl p) as Hout.
      destruct (Create ctx t ttl p) as [ret p1]. cbn in *.
      destruct Hout as [e Hs Hl | img name e Hs Hl | img name cid e res Hs Hl
                       | img sid sb Himg Hsid Ht Hs Hl];
        try (left; by rewrite Hs).
      destruct (decide (sid = id)) as [->|Hne]; [right; by eexists|].
      left. rewrite Hs. by rewrite lookup_insert_ne.
    - pose proof (Exec_state ctx i cmd cwd env mo me p) as [Hs _].
      destruct (Exec ctx i cmd cwd env mo me p) as [ret p1]. cbn in *.
      left. by rewrite Hs.
    - pose proof (Delete_shrinks ctx i p) as (_ & Hn & _).
      destruct (Delete ctx i p) as [ret p1]. cbn in *. left. by apply Hn.
    - pose proof (cleanupExpired_shrinks p) as (_ & Hn & _).
      destruct (cleanupExpired p) as [ret p1]. cbn in *. left. by apply Hn.
    - pose proof (GetContainerID_state i p) as Hs.
      destruct (GetContainerID i p) as [ret p1]. cbn in *. left. by subst. }
  destruct (run_op op p) as [r p1]. cbn in Hstep.
  destruct (run_ops ops p1) as [rs p2] eqn:Hrest. cbn in *.
  destruct Hstep as [Hnone1 | (r0 & -> & Hr0)].
  - specialize (IH p1 Hnone1). rewrite Hrest in IH. cbn in IH. apply IH.
    intros r' Hin. apply Hfresh. by apply list_elem_of_further.
  - exfalso. eapply Hfresh; [apply list_elem_of_here | done].
Qed.


(** C9.  When the runtime fails to remove the container, delete reports
  the failure (DELETE_FAILED, retryable) and the record is gone all the
  same.  From then on, whatever the provider is asked to do, as long as
  no create hands out the id anew, the id is unknown: looking it up,
  exec and delete all report "sandbox not found", and a delete changes
  nothing and calls the runtime no more. *)
Theorem C9_failed_delete_drops_record ctx id sb e r' p rid now ops
    ctx' cmd cwd env maxOut maxErr :
  sandboxes p !! id = Some sb -> id <> "" ->
  ContainerRemove (ContainerID sb) {| Force := true |} (client p) = (Some e, r') ->
  let p' := (Delete ctx id p).2 in
  (forall r, RetCreate r ∈ (run_ops ops p').1 -> r.1.1 <> id) ->
  let q := (run_ops ops p').2 in
  (Delete ctx id p).1 = Some (wrapError "failed to remove container: " e) /\
  ServeHTTP (request rid "sandbox.v1.delete" (deleteParams id)) now p =
    (errorResponse rid
       (rpcErr (-32007) "delete failed" "DELETE_FAILED" true
          (DetailsErr ("failed to remove container: " +:+ Error e))), p') /\
  sandboxes p' !! id = None /\
  sandboxes q !! id = None /\
  GetContainerID id q = (("", Some (notFound id)), q) /\
  x_err (Exec ctx' id cmd cwd env maxOut maxErr q).1 = Some (notFound id) /\
  Delete ctx id q = (Some (notFound id), q).
Proof.
  intros Hsb Hid Hrm p' Hfresh q.
  destruct (Delete_registered ctx id p sb Hsb) as (res & r'' & Hrm' & Hdel).
  rewrite Hrm in Hrm'. inversion Hrm'; subst res r''. clear Hrm'.
  assert (Hgone : sandboxes p' !! id = None).
  { unfold p'. rewrite Hdel. cbn. apply lookup_delete_eq. }
  assert (Hq : sandboxes q !! id = None) by (by apply unregistered_stable).
  split_and!.
  - by rewrite Hdel.
  - rewrite ServeHTTP_delete by done.
    rewrite (Delete_ctx _ ctx). unfold p'. by rewrite Hdel.
  - done.
  - done.
  - by apply GetContainerID_unregistered.
  - by apply Exec_unregistered.
  - by apply Delete_unregistered.
Qed.

End DeleteClaims.

Section DeleteExamples.
Import Script.


Lemma C9_failed_delete_drops_record_witness :
  let p := serving stubborn in
  let id := "0a1b2c3d" in
  let e := errorString "removal of container is already in progress" in
  let ops := [OpGetContainerID id; OpDelete background id; OpCleanupExpired] in
  let p' := (Delete background id p).2 in
  let q := (run_ops ops p').2 in
  (Delete background id p).1 = Some (wrapError "failed to remove container: " e) /\
  ServeHTTP (request (Some "8") "sandbox.v1.delete" (deleteParams id)) 0 p =
    (errorResponse (Some "8")
       (rpcErr (-32007) "delete failed" "DELETE_FAILED" true
          (DetailsErr ("failed to remove container: " +:+ Error e))), p') /\
  sandboxes p' !! id = None /\
  sandboxes q !! id = None /\
  GetContainerID id q = (("", Some (notFound id)), q) /\
  x_err (Exec background id ["true"] "" ∅ 1 1 q).1 = Some (notFound id) /\
  Delete background id q = (Some (notFound id), q).
Proof.
  refine (C9_failed_delete_drops_record background "0a1b2c3d"
            {| ID := "0a1b2c3d"; ContainerID := "c-sandbox-0a1b2c3d";
               Template := "python"; CreatedAt := 1000; ExpiresAt := 1000001000 |}
            (errorString "removal of container is already in progress")
            (tick stubborn) (serving stubborn) (Some "8") 0
            [OpGetContainerID "0a1b2c3d"; OpDelete background "0a1b2c3d"; OpCleanupExpired]
            background ["true"] "" ∅ 1 1
            ltac:(vm_compute; reflexivity) ltac:(discriminate)
            ltac:(vm_compute; reflexivity) _).
  intros r Hin. vm_compute in Hin.
  repeat (apply elem_of_cons in Hin as [Hin|Hin]; [discriminate|]).
  by apply elem_of_nil in Hin.
Defined.

End DeleteExamples.

(** ** Create *)

Section CreateClaims.
Context {R : Type} `{!Runtime R}.
Implicit Types p : DockerProvider R.



End CreateClaims.

Section CreateExamples.
Import Script.


(** A start failure on a concrete runtime: created, start refused,
    force-removed, nothing registered. *)
Example Create_start_failure :
  let p' := (Create background "python" (1000 * Millisecond)
               (NewDockerProvider stillborn)) in
  p'.1 = ("", zeroTime,
          Some (wrapError "failed to start container: "
                  (errorString "OCI runtime create failed"))) /\
  sandboxes p'.2 = ∅ /\
  log p'.2 =
    [EvContainerCreate (sandboxConfig "python:3.11-slim") sandboxHostConfig
       "sandbox-0a1b2c3d" (inr "c-sandbox-0a1b2c3d");
     EvContainerStart "c-sandbox-0a1b2c3d" (Some (errorString "OCI runtime create failed"));
     EvContainerRemove "c-sandbox-0a1b2c3d" {| Force := true |} None].
Proof. vm_compute. done. Qed.

End CreateExamples.

(** ** The collector *)

Section Reaper.
Context {R : Type} `{!Runtime R}.
Implicit Types p : DockerProvider R.

(** [cleanupExpired] deletes what the read-locked scan selected at the
    instant it read the clock. *)
Lemma cleanupExpired_selects p :
  cleanupExpired p =
    let '(now, r) := time_Now (client p) in
    let p1 := mkProvider r (sandboxes p) (gcInterval p) (log p) in
    deleteAll (expired_locked now p1).1 p1.
Proof.
  unfold cleanupExpired, expired_locked. unfold_M. cbn.
  by destruct (time_Now (client p)).
Qed.

(** C7, as the code has it.  At a tick that reads the clock as [now], the
    ids selected for deletion are exactly the registered ids whose
    [expires_at] lies strictly before [now]. *)
Theorem C7_reaper_selects_strictly_expired (now : Z) p (id : string) :
  id ∈ (expired_locked now p).1 <->
  exists sb, sandboxes p !! id = Some sb /\ ExpiresAt sb < now.
Proof.
  unfold expired_locked, After. cbn. rewrite list_elem_of_fmap. split.
  - intros ([id' sb] & -> & Hin). apply list_elem_of_filter in Hin as [Hexp Hin].
    apply elem_of_map_to_list in Hin. cbn in *. exists sb. split; [done|]. lia.
  - intros (sb & Hsb & Hexp). exists (id, sb). split; [done|].
    apply list_elem_of_filter. split; [cbn; lia|]. by apply elem_of_map_to_list.
Qed.

End Reaper.

Section ReaperExamples.
Import Script.

(** C7 as stated fails: a sandbox whose [expires_at] equals [now] is
    registered and not selected. *)
Lemma C7_counterexample :
  let p := serving quiet in
  let now := 1000001000 in
  ~ (forall id, id ∈ (expired_locked now p).1 <->
                exists sb, sandboxes p !! id = Some sb /\ ExpiresAt sb <= now).
Proof.
  intros p now Hclaim. destruct (Hclaim "0a1b2c3d") as [_ Hsel].
  assert (Hin : "0a1b2c3d" ∈ (expired_locked now p).1).
  { apply Hsel. eexists. split; [vm_compute; reflexivity|]. cbn. lia. }
  vm_compute in Hin. by apply elem_of_nil in Hin.
Qed.

End ReaperExamples.

(** ** The terminal bridge *)

Section Bridge.
Import Terminal.

Lemma abandoned_step b (ev : LocalEvent) : abandoned b -> abandoned (step b (local ev)).
Proof.
  intros (Hu & Hd & Hh & Hdone & Hc & Hr).
  destruct b as [d u h dn cc rc cg gg tc tk]. cbn in *. subst.
  destruct ev as [[data|]|[| |]]; cbn; done.
Qed.

Lemma abandoned_run (evs : list LocalEvent) : forall b,
  abandoned b -> abandoned (run b (local <$> evs)).
Proof.
  induction evs as [|ev evs IH]; intros b Hb; [done|].
  cbn. apply IH. by apply abandoned_step.
Qed.

(** C10 on the code: when the client closes first, the client-to-container
    loop exits, and that is all.  Whatever the client and the scheduler do
    from then on, as long as the container stream stays silent the done
    channel stays open, the handler stays blocked on it, neither stream is
    closed and the container-to-client loop stays blocked in its read. *)
Theorem C10_client_close_leaves_bridge_up (evs : list LocalEvent) :
  let b := run (step start (FromClient Close)) (local <$> evs) in
  upstream b = Exited /\ downstream b = Running /\ handler b = WaitingDone /\
  done b = false /\ tornDown b = false.
Proof.
  intros b.
  assert (Hb : abandoned b) by (apply abandoned_run; by repeat split).
  destruct Hb as (Hu & Hd & Hh & Hdone & _ & _).
  unfold tornDown. rewrite Hh. done.
Qed.

Lemma coherent_step b ev : coherent b -> coherent (step b ev).
Proof.
  intros [Hd Hh].
  destruct b as [d u h dn cc rc cg gg tc tk]. unfold coherent in *. cbn in *.
  destruct ev as [[data| |]|[data|]|[| |]]; cbn;
    destruct d, u, h, dn, cc, rc, cg, gg; cbn in *; intuition congruence.
Qed.

Lemma coherent_run evs : forall b, coherent b -> coherent (run b evs).
Proof.
  induction evs as [|ev evs IH]; intros b Hb; [done|].
  cbn. apply IH. by apply coherent_step.
Qed.

(** The other direction does hold: once the container-to-client loop has
    exited, the handler, when scheduled, returns and closes both streams,
    and the client-to-container loop, when scheduled, exits. *)
Lemma downstream_exit_tears_down evs :
  let b := run start evs in
  downstream b = Exited ->
  let b' := run b [Schedule GoHandler; Schedule GoUpstream] in
  tornDown b' = true /\ upstream b' = Exited /\ downstream b' = Exited.
Proof.
  intros b Hd.
  assert (Hb : coherent b) by (apply coherent_run; split; cbn; [discriminate|discriminate]).
  destruct Hb as [Hdone Hret]. specialize (Hdone Hd).
  destruct b as [d u h dn cc rc cg gg tc tk]. cbn in *. subst.
  destruct h; cbn.
  - by destruct u.
  - destruct (Hret eq_refl) as [-> ->]. by destruct u.
Qed.

End Bridge.


(** * Further properties of the code *)

(** ** The limited sink and the demultiplexer *)

Section SinkSequences.

Lemma writeAll_inv ps : forall lw data,
  SinkInv lw data -> SinkInv (writeAll lw ps) (data ++ concat ps).
Proof.
  induction ps as [|p ps IH]; intros lw data Hinv; cbn.
  - by rewrite app_nil_r.
  - rewrite app_assoc. apply IH. by apply Write_inv.
Qed.

Lemma writeAll_exact ps : forall lw data,
  Forall (λ p, p <> []) ps -> SinkInv lw data -> SinkExact lw data ->
  SinkExact (writeAll lw ps) (data ++ concat ps).
Proof.
  induction ps as [|p ps IH]; intros lw data Hall Hinv Hex; cbn.
  - by rewrite app_nil_r.
  - inversion Hall; subst. rewrite app_assoc. apply IH; [done | by apply Write_inv |].
    by apply Write_exact.
Qed.

Lemma writeAll_Max ps : forall lw, Max (writeAll lw ps) = Max lw.
Proof.
  induction ps as [|p ps IH]; intros lw; cbn; [done|].
  unfold writeAll in IH. by rewrite IH, Write_Max.
Qed.

(** X1.  A limited writer with a non-negative cap that has been written the
    chunks [ps] holds exactly the first [max] bytes of their concatenation
    and has counted them; its flag is raised if the chunks did not fit and,
    when no chunk is empty, only then. *)
Theorem limitedWriter_keeps_prefix (max : Z) (ps : list (list byte)) :
  0 <= max ->
  let lw := writeAll (LimitedWriter.new max) ps in
  W lw = take (Z.to_nat max) (concat ps) /\
  Written lw = Z.min max (len (concat ps)) /\
  (max < len (concat ps) -> Truncated lw = true) /\
  (Forall (λ p, p <> []) ps -> Truncated lw = true -> max < len (concat ps)).
Proof.
  intros Hmax lw.
  pose proof (writeAll_inv ps _ [] (SinkInv_new max Hmax)) as (_ & HW & Hwr & Htr).
  pose proof (writeAll_Max ps (LimitedWriter.new max)) as HM.
  fold lw in HW, Hwr, Htr, HM. cbn in HM, HW, Htr. rewrite HM in *.
  split_and!; auto.
  - rewrite Hwr, HW. unfold len. rewrite length_take. lia.
  - intros Hall.
    pose proof (writeAll_exact ps _ [] Hall (SinkInv_new max Hmax) (SinkExact_new max)) as Hex.
    unfold SinkExact in Hex. fold lw in Hex. cbn in Hex. by rewrite HM in Hex.
Qed.

Lemma limitedWriter_keeps_prefix_witness :
  let lw := writeAll (LimitedWriter.new 3) [["a"; "b"]%byte; ["c"; "d"]%byte] in
  W lw = take (Z.to_nat 3) (concat [["a"; "b"]%byte; ["c"; "d"]%byte]) /\
  Written lw = Z.min 3 (len (concat [["a"; "b"]%byte; ["c"; "d"]%byte])) /\
  (3 < len (concat [["a"; "b"]%byte; ["c"; "d"]%byte]) -> Truncated lw = true) /\
  (Forall (λ p, p <> []) [["a"; "b"]%byte; ["c"; "d"]%byte] ->
   Truncated lw = true -> 3 < len (concat [["a"; "b"]%byte; ["c"; "d"]%byte])).
Proof.
  exact (limitedWriter_keeps_prefix 3 [["a"; "b"]%byte; ["c"; "d"]%byte] ltac:(lia)).
Defined.

(** A chunk that fits is stored whole and reported whole. *)
Lemma Write_fits lw p :
  Written lw = len (W lw) -> len (W lw) + len p <= Max lw ->
  let r := Write lw p in
  W r.1 = W lw ++ p /\ Written r.1 = len (W r.1) /\ Max r.1 = Max lw /\
  r.2 = (len p, None) /\ (p <> [] -> Truncated r.1 = Truncated lw).
Proof.
  intros Hwr Hfit. unfold Write, Buffer_Write.
  destruct (Max lw <=? Written lw) eqn:Hfull; cbn.
  - apply Z.leb_le in Hfull.
    assert (p = []) as -> by (destruct p; [done | unfold len in *; cbn in *; lia]).
    rewrite app_nil_r. split_and!; done.
  - destruct (Max lw - Written lw <? len p) eqn:Hroom; cbn.
    + apply Z.ltb_lt in Hroom. lia.
    + split_and!; try done. unfold len in *. rewrite length_app. lia.
Qed.

Lemma copy_frames_fits fs : forall (o e : limitedWriter) w,
  Forall std fs ->
  Written o = len (W o) -> len (W o) + len (routed to_stdout fs) <= Max o ->
  Written e = len (W e) -> len (W e) + len (routed to_stderr fs) <= Max e ->
  exists o' e',
    copy_frames o e w fs None =
      (o', e', [], (w + len (routed to_stdout fs) + len (routed to_stderr fs), None)) /\
    W o' = W o ++ routed to_stdout fs /\ W e' = W e ++ routed to_stderr fs /\
    (Forall nonempty fs -> Truncated o' = Truncated o /\ Truncated e' = Truncated e).
Proof.
  induction fs as [|f fs IH]; intros o e w Hstd Hwo Hfo Hwe Hfe.
  - exists o, e. cbn. rewrite !app_nil_r, !Z.add_0_r. by split_and!.
  - inversion Hstd as [|? ? Hf Hrest]; subst.
    cbn [copy_frames].
    change (write o (payload f)) with (Write o (payload f)).
    change (write e (payload f)) with (Write e (payload f)).
    cbn [routed] in Hfo, Hfe.
    destruct (stream f) eqn:Hs;
      try (destruct Hf as [Hf|Hf]; unfold to_stdout, to_stderr in Hf;
           rewrite Hs in Hf; discriminate).
    1,2: (* a frame for the stdout sink *)
      assert (Hto : to_stdout f = true) by (unfold to_stdout; by rewrite Hs);
      assert (Hte : to_stderr f = false) by (unfold to_stderr; by rewrite Hs);
      rewrite Hto in Hfo; rewrite Hte in Hfe;
      assert (Hfit : len (W o) + len (payload f) <= Max o)
        by (unfold len in *; rewrite length_app in Hfo; lia);
      destruct (Write_fits o (payload f) Hwo Hfit) as (HW1 & Hwr1 & HM1 & Hr1 & Ht1);
      destruct (Write o (payload f)) as [o1 [nw err]]; cbn in HW1, Hwr1, HM1, Hr1, Ht1;
      inversion Hr1; subst nw err; rewrite Z.eqb_refl; cbn [negb];
      destruct (IH o1 e (w + len (payload f)) Hrest Hwr1) as (o' & e' & Hrun & HWo & HWe & Htr);
      [ rewrite HW1, HM1; unfold len in *; rewrite length_app in Hfo;
        rewrite length_app; lia | done | done | ];
      exists o', e'; cbn [routed]; rewrite Hto, Hte, Hrun, HWo, HWe, HW1, <- app_assoc;
      split_and!; [ unfold len; rewrite length_app; do 2 f_equal; lia | done | done | ];
      intros Hne; inversion Hne as [|? ? Hnf Hnrest]; subst;
      destruct (Htr Hnrest) as [-> ->]; split; [by apply Ht1 | done].
    (* a frame for the stderr sink *)
    assert (Hto : to_stdout f = false) by (unfold to_stdout; by rewrite Hs).
    assert (Hte : to_stderr f = true) by (unfold to_stderr; by rewrite Hs).
    rewrite Hto in Hfo. rewrite Hte in Hfe.
    assert (Hfit : len (W e) + len (payload f) <= Max e)
      by (unfold len in *; rewrite length_app in Hfe; lia).
    destruct (Write_fits e (payload f) Hwe Hfit) as (HW1 & Hwr1 & HM1 & Hr1 & Ht1).
    destruct (Write e (payload f)) as [e1 [nw err]]; cbn in HW1, Hwr1, HM1, Hr1, Ht1.
    inversion Hr1; subst nw err. rewrite Z.eqb_refl. cbn [negb].
    destruct (IH o e1 (w + len (payload f)) Hrest Hwo Hfo Hwr1) as (o' & e' & Hrun & HWo & HWe & Htr).
    { rewrite HW1, HM1. unfold len in *. rewrite length_app in Hfe.
      rewrite length_app. lia. }
    exists o', e'. cbn [routed]. rewrite Hto, Hte, Hrun, HWo, HWe, HW1, <- app_assoc.
    split_and!; [ unfold len; rewrite length_app; do 2 f_equal; lia | done | done | ].
    intros Hne. inversion Hne as [|? ? Hnf Hnrest]; subst.
    destruct (Htr Hnrest) as [-> ->]. split; [done | by apply Ht1].
Qed.

(** X2.  When all the output fits (the stream carries frames of the
    standard streams only, ends with end-of-stream, and the bytes for each
    sink are within its cap), the capture of [Exec] drains the stream to
    its end without error and hands back the complete stdout and stderr;
    if no frame is empty, neither flag is raised. *)
Theorem capture_complete_when_output_fits (maxOut maxErr : Z) (fs : list Frame) :
  Forall std fs ->
  len (routed to_stdout fs) <= maxOut ->
  len (routed to_stderr fs) <= maxErr ->
  let '(o, e, rest, res) := capture maxOut maxErr (reader fs None) in
  rest = [] /\
  res = (len (routed to_stdout fs) + len (routed to_stderr fs), None) /\
  W o = routed to_stdout fs /\ W e = routed to_stderr fs /\
  (Forall nonempty fs -> Truncated o = false /\ Truncated e = false).
Proof.
  intros Hstd Hout Herr. unfold capture, StdCopy. cbn [frames readErr].
  destruct (copy_frames_fits fs (LimitedWriter.new maxOut) (LimitedWriter.new maxErr) 0
              Hstd eq_refl Hout eq_refl Herr) as (o' & e' & -> & HWo & HWe & Htr).
  cbn in HWo, HWe. by split_and!.
Qed.

Lemma capture_complete_when_output_fits_witness :
  let '(o, e, rest, res) := capture 8 8 (reader (frames Script.hello) None) in
  rest = [] /\
  res = (len (routed to_stdout (frames Script.hello))
         + len (routed to_stderr (frames Script.hello)), None) /\
  W o = routed to_stdout (frames Script.hello) /\
  W e = routed to_stderr (frames Script.hello) /\
  (Forall nonempty (frames Script.hello) -> Truncated o = false /\ Truncated e = false).
Proof.
  refine (capture_complete_when_output_fits 8 8 (frames Script.hello) _ _ _).
  - repeat (apply List.Forall_cons; [vm_compute; auto|]). apply List.Forall_nil.
  - vm_compute. discriminate.
  - vm_compute. discriminate.
Defined.

Lemma copy_frames_buffers fs : forall (o e : list byte) w rerr,
  Forall std fs ->
  copy_frames o e w fs rerr =
    (o ++ routed to_stdout fs, e ++ routed to_stderr fs, [],
     match rerr with
     | None => (w + len (routed to_stdout fs) + len (routed to_stderr fs), None)
     | Some err => (0, Some err)
     end).
Proof.
  induction fs as [|f fs IH]; intros o e w rerr Hstd.
  - cbn. rewrite !app_nil_r, !Z.add_0_r. by destruct rerr.
  - inversion Hstd as [|? ? Hf Hrest]; subst.
    assert (Hroute : (to_stdout f = true /\ to_stderr f = false /\
                      (stream f = Stdin \/ stream f = Stdout)) \/
                     (to_stdout f = false /\ to_stderr f = true /\ stream f = Stderr)).
    { unfold std, to_stdout, to_stderr in *. destruct (stream f); intuition congruence. }
    cbn [copy_frames routed]. unfold write, Buffer_Writer, Buffer_Write.
    destruct Hroute as [(Hto & Hte & [Hs|Hs]) | (Hto & Hte & Hs)];
      rewrite Hs, Hto, Hte, Z.eqb_refl; cbn [negb];
      rewrite IH by done; rewrite <- ?app_assoc; destruct rerr; try done;
      unfold len; rewrite length_app;
      match goal with
      | |- (_, _, _, (?a, _)) = (_, _, _, (?b, _)) => by replace a with b by lia
      end.
Qed.

(** X3.  Into plain buffers (the sinks of [ReadFile] and [ListDir]) the
    demultiplexer copies a stream of standard frames to its end: nothing is
    left unread, the stdout buffer is all the stdout bytes in order, the
    stderr buffer all the stderr bytes, and the count their total; a read
    error at the end of the stream is returned with a count of zero. *)
Theorem StdCopy_into_buffers_is_complete (src : Reader) :
  Forall std (frames src) ->
  StdCopy ([] : list byte) ([] : list byte) src =
    (routed to_stdout (frames src), routed to_stderr (frames src), [],
     match readErr src with
     | None => (len (routed to_stdout (frames src)) + len (routed to_stderr (frames src)), None)
     | Some err => (0, Some err)
     end).
Proof.
  intros Hstd. unfold StdCopy. by rewrite copy_frames_buffers.
Qed.

Lemma StdCopy_into_buffers_is_complete_witness :
  StdCopy ([] : list byte) ([] : list byte) Script.hello =
    (["h"; "e"; "l"; "l"; "o"]%byte, ["!"]%byte, [], (6, None)).
Proof.
  refine (StdCopy_into_buffers_is_complete Script.hello _).
  repeat (apply List.Forall_cons; [vm_compute; auto|]). apply List.Forall_nil.
Defined.

End SinkSequences.

(** ** The file operations *)

Section FileOps.
Context {R : Type} `{!Runtime R}.
Variable EncodeToString : list byte -> string.
Variable TrimSpace : list byte -> list byte.
Variable Sscan_d : list byte -> option Z.
Implicit Types p : DockerProvider R.

(** X4.  On an unknown sandbox id each of the three file operations
    returns "sandbox not found: <id>" and leaves the provider, the runtime
    included, exactly as it was. *)
Theorem file_operations_on_unknown_sandbox ctx id path content p :
  sandboxes p !! id = None ->
  Files.WriteFile EncodeToString ctx id path content p = (Some (notFound id), p) /\
  Files.ReadFile ctx id path p = (([], Some (notFound id)), p) /\
  Files.ListDir TrimSpace Sscan_d ctx id path p = (([], Some (notFound id)), p).
Proof.
  intros Hsb. unfold Files.WriteFile, Files.ReadFile, Files.ListDir. unfold_M. cbn.
  by rewrite Hsb.
Qed.

(** X5.  Exec, the three file operations and the container lookup never
    change the registry and never create, start or remove a container,
    whatever the runtime answers. *)
Theorem reading_operations_keep_registry ctx id path content cmd cwd env maxOut maxErr p :
  let unchanged (p' : DockerProvider R) :=
    sandboxes p' = sandboxes p /\ log p' = log p in
  unchanged (Exec ctx id cmd cwd env maxOut maxErr p).2 /\
  unchanged (Files.WriteFile EncodeToString ctx id path content p).2 /\
  unchanged (Files.ReadFile ctx id path p).2 /\
  unchanged (Files.ListDir TrimSpace Sscan_d ctx id path p).2 /\
  unchanged (GetContainerID id p).2.
Proof.
  cbn zeta. split_and!.
  - apply Exec_state.
  - apply Exec_state.
  - unfold Files.WriteFile. unfold_M. cbn.
    destruct (sandboxes p !! id); [|done]. run_calls; try done.
    all: by destruct (decide _).
  - unfold Files.WriteFile. unfold_M. cbn.
    destruct (sandboxes p !! id); [|done]. run_calls; try done.
    all: by destruct (decide _).
  - unfold Files.ReadFile. unfold_M. cbn.
    destruct (sandboxes p !! id); [|done]. run_calls; try done.
    all: by destruct (decide _).
  - unfold Files.ReadFile. unfold_M. cbn.
    destruct (sandboxes p !! id); [|done]. run_calls; try done.
    all: by destruct (decide _).
  - unfold Files.ListDir. unfold_M. cbn.
    destruct (sandboxes p !! id); [|done]. run_calls; done.
  - unfold Files.ListDir. unfold_M. cbn.
    destruct (sandboxes p !! id); [|done]. run_calls; done.
  - by rewrite GetContainerID_state.
  - by rewrite GetContainerID_state.
Qed.

(** X6.  Once the shell command of [WriteFile] has run, the exit code alone
    decides the outcome: nil for 0, otherwise "write file failed with exit
    code <n>"; what the command printed, on either stream, is discarded. *)
Theorem WriteFile_outcome_is_the_exit_code ctx id path content p
    sb execID r1 resp r2 exitCode r3 :
  sandboxes p !! id = Some sb ->
  ContainerExecCreate (ContainerID sb)
    (Files.shellOptions
       ["sh"; "-c";
        "mkdir -p $(dirname " +:+ path +:+ ") && echo " +:+ EncodeToString content
        +:+ " | base64 -d > " +:+ path]) (client p) = (inr execID, r1) ->
  ContainerExecAttach execID r1 = (inr resp, r2) ->
  ContainerExecInspect execID r2 = (inr exitCode, r3) ->
  (Files.WriteFile EncodeToString ctx id path content p).1 =
    if decide (exitCode = 0) then None
    else Some (errorString ("write file failed with exit code " +:+ pretty exitCode)).
Proof.
  intros Hsb Hcreate Hattach Hinspect.
  unfold Files.WriteFile. unfold_M. cbn. rewrite Hsb. cbn.
  rewrite Hcreate. cbn. rewrite Hattach. cbn. rewrite Hinspect. cbn.
  by destruct (decide (exitCode = 0)).
Qed.

(** X7.  [ReadFile] has no cap: when [cat] exits with 0 it returns every
    stdout byte of the stream, in order; when it exits with another code
    it returns no bytes and the error "file not found or read error: "
    followed by all that was printed on stderr. *)
Theorem ReadFile_returns_all_of_stdout ctx id path p sb execID r1 resp r2 exitCode r3 :
  sandboxes p !! id = Some sb ->
  ContainerExecCreate (ContainerID sb) (Files.shellOptions ["cat"; path]) (client p)
    = (inr execID, r1) ->
  ContainerExecAttach execID r1 = (inr resp, r2) ->
  Forall std (frames (hr_Reader resp)) ->
  ContainerExecInspect execID r2 = (inr exitCode, r3) ->
  (Files.ReadFile ctx id path p).1 =
    if decide (exitCode = 0)
    then (routed to_stdout (frames (hr_Reader resp)), None)
    else ([], Some (errorString
                      ("file not found or read error: "
                       +:+ String.string_of_list_byte
                             (routed to_stderr (frames (hr_Reader resp)))))).
Proof.
  intros Hsb Hcreate Hattach Hstd Hinspect.
  unfold Files.ReadFile. unfold_M. cbn. rewrite Hsb. cbn.
  rewrite Hcreate. cbn. rewrite Hattach. cbn.
  unfold StdCopy. rewrite copy_frames_buffers by done. cbn.
  rewrite Hinspect. cbn. by destruct (decide (exitCode = 0)).
Qed.

(** X8.  [ListDir] never reports a failed listing: once the stream is
    attached it returns the parse of whatever arrived on stdout with a nil
    error, and does not ask the runtime for the exit code (the runtime is
    left in the state in which the attach left it). *)
Theorem ListDir_swallows_failures ctx id path p sb execID r1 resp r2 :
  sandboxes p !! id = Some sb ->
  ContainerExecCreate (ContainerID sb)
    (Files.shellOptions
       ["sh"; "-c";
        "find " +:+ path
        +:+ " -maxdepth 1 -printf '%f\t%s\t%Y\t%T@\n' 2>/dev/null | tail -n +2"])
    (client p) = (inr execID, r1) ->
  ContainerExecAttach execID r1 = (inr resp, r2) ->
  Forall std (frames (hr_Reader resp)) ->
  Files.ListDir TrimSpace Sscan_d ctx id path p =
    ((Files.parseListing TrimSpace Sscan_d path (routed to_stdout (frames (hr_Reader resp))),
      None),
     mkProvider r2 (sandboxes p) (gcInterval p) (log p)).
Proof.
  intros Hsb Hcreate Hattach Hstd.
  unfold Files.ListDir. unfold_M. cbn. rewrite Hsb. cbn.
  rewrite Hcreate. cbn. rewrite Hattach. cbn.
  unfold StdCopy. by rewrite copy_frames_buffers by done.
Qed.

End FileOps.

Section FileOpsExamples.
Import Script ScriptLib.

Lemma file_operations_on_unknown_sandbox_witness :
  let p := serving quiet in
  Files.WriteFile encode background "ffffffff" "/workspace/a" ["h"; "i"]%byte p
    = (Some (notFound "ffffffff"), p) /\
  Files.ReadFile background "ffffffff" "/workspace/a" p
    = (([], Some (notFound "ffffffff")), p) /\
  Files.ListDir trimSpace scanDigits background "ffffffff" "/workspace/a" p
    = (([], Some (notFound "ffffffff")), p).
Proof.
  exact (file_operations_on_unknown_sandbox encode trimSpace scanDigits background
           "ffffffff" "/workspace/a" ["h"; "i"]%byte (serving quiet)
           ltac:(vm_compute; reflexivity)).
Defined.

Lemma WriteFile_outcome_is_the_exit_code_witness :
  (Files.WriteFile encode background "0a1b2c3d" "/workspace/a" ["h"; "i"]%byte
     (serving (exiting 2 hello))).1 =
    if decide (2 = 0) then None
    else Some (errorString ("write file failed with exit code " +:+ pretty 2)).
Proof.
  exact (WriteFile_outcome_is_the_exit_code encode background "0a1b2c3d" "/workspace/a"
           ["h"; "i"]%byte (serving (exiting 2 hello))
           {| ID := "0a1b2c3d"; ContainerID := "c-sandbox-0a1b2c3d";
              Template := "python"; CreatedAt := 1000; ExpiresAt := 1000001000 |}
           "exec-1" (tick (exiting 2 hello)) {| hr_Reader := hello |}
           (tick (exiting 2 hello)) 2 (tick (exiting 2 hello))
           ltac:(vm_compute; reflexivity) ltac:(reflexivity) ltac:(reflexivity)
           ltac:(reflexivity)).
Defined.

Lemma ReadFile_returns_all_of_stdout_witness :
  (Files.ReadFile background "0a1b2c3d" "/workspace/a" (serving (exiting 0 hello))).1 =
    if decide (0 = 0)
    then (routed to_stdout (frames hello), None)
    else ([], Some (errorString
                      ("file not found or read error: "
                       +:+ String.string_of_list_byte (routed to_stderr (frames hello))))).
Proof.
  refine (ReadFile_returns_all_of_stdout background "0a1b2c3d" "/workspace/a"
            (serving (exiting 0 hello))
            {| ID := "0a1b2c3d"; ContainerID := "c-sandbox-0a1b2c3d";
               Template := "python"; CreatedAt := 1000; ExpiresAt := 1000001000 |}
            "exec-1" (tick (exiting 0 hello)) {| hr_Reader := hello |}
            (tick (exiting 0 hello)) 0 (tick (exiting 0 hello))
            ltac:(vm_compute; reflexivity) ltac:(reflexivity) ltac:(reflexivity) _
            ltac:(reflexivity)).
  repeat (apply List.Forall_cons; [vm_compute; auto|]). apply List.Forall_nil.
Defined.

Lemma ListDir_swallows_failures_witness :
  let p := serving (exiting 1 hello) in
  Files.ListDir trimSpace scanDigits background "0a1b2c3d" "/nowhere" p =
    ((Files.parseListing trimSpace scanDigits "/nowhere" (routed to_stdout (frames hello)),
      None),
     mkProvider (tick (exiting 1 hello)) (sandboxes p) (gcInterval p) (log p)).
Proof.
  refine (ListDir_swallows_failures trimSpace scanDigits background "0a1b2c3d" "/nowhere"
            (serving (exiting 1 hello))
            {| ID := "0a1b2c3d"; ContainerID := "c-sandbox-0a1b2c3d";
               Template := "python"; CreatedAt := 1000; ExpiresAt := 1000001000 |}
            "exec-1" (tick (exiting 1 hello)) {| hr_Reader := hello |}
            (tick (exiting 1 hello))
            ltac:(vm_compute; reflexivity) ltac:(reflexivity) ltac:(reflexivity) _).
  repeat (apply List.Forall_cons; [vm_compute; auto|]). apply List.Forall_nil.
Defined.

End FileOpsExamples.

(** ** The parse of a directory listing *)

Section Listing.
Import Files.
Variable TrimSpace : list byte -> list byte.
Variable Sscan_d : list byte -> option Z.

Lemma eqb_ne (b sep : byte) : b <> sep -> Byte.eqb b sep = false.
Proof.
  intros Hne. destruct (Byte.eqb b sep) eqn:Heq; [|done].
  by apply Byte.byte_dec_bl in Heq.
Qed.

Lemma Split_absent sep s : sep ∉ s -> Split sep s = [s].
Proof.
  induction s as [|b s IH]; intros Hs; [done|].
  apply not_elem_of_cons in Hs as [Hb Hs]. cbn.
  rewrite eqb_ne by done. by rewrite IH.
Qed.

Lemma Split_field sep a b : sep ∉ a -> Split sep (a ++ sep :: b) = a :: Split sep b.
Proof.
  induction a as [|c a IH]; intros Ha; cbn.
  - by rewrite Byte.byte_dec_lb by done.
  - apply not_elem_of_cons in Ha as [Hc Ha].
    rewrite eqb_ne by done. by rewrite IH.
Qed.

Lemma Split_printLine e :
  wellFormed e ->
  Split tab (printLine e) = [l_name e; l_size e; l_type e; l_mtime e].
Proof.
  intros ([Hn _] & [Hs _] & [Ht _] & [Hm _]). unfold printLine.
  rewrite !Split_field by done. by rewrite Split_absent.
Qed.

Lemma printLine_one_line e : wellFormed e -> newline ∉ printLine e.
Proof.
  intros ([_ Hn] & [_ Hs] & [_ Ht] & [_ Hm]). unfold printLine.
  intros Hin.
  repeat (apply elem_of_app in Hin as [Hin|Hin]; [done|];
          apply elem_of_cons in Hin as [Hin|Hin]; [discriminate|]).
  done.
Qed.

Lemma Split_joinLines lines :
  lines <> [] -> Forall (λ l, newline ∉ l) lines ->
  Split newline (joinLines lines) = lines.
Proof.
  induction lines as [|l lines IH]; intros Hne Hall; [done|].
  inversion Hall as [|? ? Hl Hrest]; subst.
  destruct lines as [|l' lines]; [by apply Split_absent|].
  change (joinLines (l :: l' :: lines)) with (l ++ newline :: joinLines (l' :: lines)).
  rewrite Split_field by done. by rewrite IH.
Qed.

Lemma parseLines_printed path es :
  Forall wellFormed es ->
  parseLines Sscan_d path (printLine <$> es) = entryOf Sscan_d path <$> es.
Proof.
  induction es as [|e es IH]; intros Hall; [done|].
  inversion Hall as [|? ? He Hrest]; subst.
  cbn [fmap list_fmap parseLines]. rewrite Split_printLine by done.
  assert (Hlen : (len (printLine e) =? 0) = false).
  { apply Z.eqb_neq. unfold printLine, len. rewrite length_app. cbn. lia. }
  rewrite Hlen. cbn. by rewrite <- IH.
Qed.

(** X9.  The parse undoes the print: when the trimmed stdout of [find] is
    the lines "name TAB size TAB type TAB mtime" of some entries whose
    fields hold neither tab nor newline, [ListDir]'s parse returns those
    entries in order, each with its name, with [path + "/" + name] as
    path, with [is_dir] set exactly for type "d", and with the scanned
    size. *)
Theorem parseListing_reads_back_the_listing path es stdout :
  Forall wellFormed es ->
  TrimSpace stdout = joinLines (printLine <$> es) ->
  parseListing TrimSpace Sscan_d path stdout = entryOf Sscan_d path <$> es.
Proof.
  intros Hall Htrim. unfold parseListing. rewrite Htrim.
  destruct es as [|e es]; [done|].
  rewrite Split_joinLines.
  - by apply parseLines_printed.
  - done.
  - apply Forall_fmap. eapply Forall_impl; [exact Hall|].
    intros e' He'. by apply printLine_one_line.
Qed.

Lemma parseLines_app path l1 l2 :
  parseLines Sscan_d path (l1 ++ l2)
  = parseLines Sscan_d path l1 ++ parseLines Sscan_d path l2.
Proof.
  induction l1 as [|l l1 IH]; [done|]. cbn.
  destruct (len l =? 0); [done|].
  destruct (len (Split tab l) <? 4); [done|]. cbn. by rewrite IH.
Qed.

(** X10.  Whatever the listing holds: every entry returned has the path
    [path + "/" + name]; there are at most as many entries as lines; a line
    with fewer than three tabs is skipped wherever it stands; and an output
    that is empty once trimmed gives no entry. *)
Theorem parseListing_skips_and_joins path stdout :
  (forall f, f ∈ parseListing TrimSpace Sscan_d path stdout ->
             Path f = path +:+ "/" +:+ Name f) /\
  (length (parseListing TrimSpace Sscan_d path stdout)
   <= length (Split newline (TrimSpace stdout)))%nat /\
  (forall before line after,
     (length (Split tab line) < 4)%nat ->
     parseLines Sscan_d path (before ++ line :: after)
     = parseLines Sscan_d path (before ++ after)) /\
  (TrimSpace stdout = [] -> parseListing TrimSpace Sscan_d path stdout = []).
Proof.
  unfold parseListing. split_and!.
  - generalize (Split newline (TrimSpace stdout)). intros lines.
    induction lines as [|l lines IH]; intros f; cbn; [by rewrite elem_of_nil|].
    destruct (len l =? 0); [apply IH|].
    destruct (len (Split tab l) <? 4); [apply IH|].
    rewrite elem_of_cons. intros [->|Hin]; [done | by apply IH].
  - generalize (Split newline (TrimSpace stdout)). intros lines.
    induction lines as [|l lines IH]; cbn; [done|].
    destruct (len l =? 0); [lia|].
    destruct (len (Split tab l) <? 4); cbn; lia.
  - intros before line after Hshort. rewrite !parseLines_app. f_equal. cbn.
    destruct (len line =? 0); [done|].
    assert (Hlt : (len (Split tab line) <? 4) = true) by (apply Z.ltb_lt; unfold len; lia).
    by rewrite Hlt.
  - intros ->. done.
Qed.

End Listing.

Section ListingExamples.
Import Script ScriptLib.

Lemma parseListing_reads_back_the_listing_witness :
  Files.parseListing trimSpace scanDigits "/workspace" printed =
    [ {| Files.Name := "b.txt"; Files.Path := "/workspace/b.txt";
         Files.IsDir := false; Files.Size := 5 |};
      {| Files.Name := "src"; Files.Path := "/workspace/src";
         Files.IsDir := true; Files.Size := 4096 |} ].
Proof.
  refine (parseListing_reads_back_the_listing trimSpace scanDigits "/workspace"
            listing printed _ _).
  - unfold listing.
    repeat (apply List.Forall_cons;
            [ unfold Files.wellFormed, Files.plain; cbn;
              split_and!; intros Hin;
              repeat (apply elem_of_cons in Hin as [Hin|Hin]; [discriminate|]);
              by apply elem_of_nil in Hin |]).
    apply List.Forall_nil.
  - vm_compute. reflexivity.
Defined.

End ListingExamples.

(** ** The registry through create, delete and the collector *)

Section Registry.
Context {R : Type} `{!Runtime R}.
Implicit Types p : DockerProvider R.

(** What the read-locked scan selects *)
Lemma expired_locked_selection (now : Z) p (id : string) :
  id ∈ (expired_locked now p).1 <->
  exists sb, sandboxes p !! id = Some sb /\ ExpiresAt sb < now.
Proof.
  unfold expired_locked, After. cbn. rewrite list_elem_of_fmap. split.
  - intros ([id' sb] & -> & Hin). apply list_elem_of_filter in Hin as [Hexp Hin].
    apply elem_of_map_to_list in Hin. cbn in *. exists sb. split; [done|]. lia.
  - intros (sb & Hsb & Hexp). exists (id, sb). split; [done|].
    apply list_elem_of_filter. split; [cbn; lia|]. by apply elem_of_map_to_list.
Qed.

(** The registry after a delete *)
Lemma Delete_sandboxes ctx id p :
  sandboxes (Delete ctx id p).2 = delete id (sandboxes p).
Proof.
  destruct (sandboxes p !! id) as [sb|] eqn:Hsb.
  - by destruct (Delete_registered ctx id p sb Hsb) as (res & r' & _ & ->).
  - rewrite Delete_unregistered by done. cbn. by rewrite delete_id.
Qed.

(** X11.  [Delete] takes exactly its own record out of the registry,
    whether or not the id was registered and whether or not the runtime
    removed the container; every other record stays as it is.  It reports
    success exactly when the id was registered and the runtime removed
    the container of its record. *)
Theorem Delete_removes_exactly_its_record ctx id p :
  sandboxes (Delete ctx id p).2 = delete id (sandboxes p) /\
  ((Delete ctx id p).1 = None <->
   exists sb, sandboxes p !! id = Some sb /\
     (ContainerRemove (ContainerID sb) {| Force := true |} (client p)).1 = None).
Proof.
  split; [apply Delete_sandboxes|].
  destruct (sandboxes p !! id) as [sb|] eqn:Hsb.
  - destruct (Delete_registered ctx id p sb Hsb) as (res & r' & Hrm & ->).
    cbn. split.
    + intros Hres. exists sb. split; [done|]. rewrite Hrm. by destruct res.
    + intros (sb' & [= <-] & Hnone). rewrite Hrm in Hnone. cbn in Hnone. by subst res.
  - rewrite Delete_unregistered by done. cbn. split; [done|].
    by intros (sb & ? & _).
Qed.

Lemma deleteAll_sandboxes ids : forall p id,
  sandboxes (deleteAll ids p).2 !! id
  = if decide (id ∈ ids) then None else sandboxes p !! id.
Proof.
  induction ids as [|i ids IH]; intros p id.
  - cbn. destruct (decide (id ∈ [])) as [Hin|]; [by apply elem_of_nil in Hin | done].
  - cbn [deleteAll]. unfold mbind, M_bind.
    pose proof (Delete_sandboxes
                  {| ctx_Timeout := Some (10 * 1000 * Millisecond) |} i p) as Hd.
    destruct (Delete _ i p) as [err p1]. cbn in Hd. rewrite IH, Hd.
    destruct (decide (id ∈ ids)) as [Hin|Hnin].
    + rewrite decide_True; [done | by apply list_elem_of_further].
    + destruct (decide (id = i)) as [->|Hne].
      * rewrite decide_True by apply list_elem_of_here. apply lookup_delete_eq.
      * rewrite decide_False; [by apply lookup_delete_ne|].
        intros [?|?]%elem_of_cons; done.
Qed.

Lemma deleteAll_removes ids : forall p id sb,
  id ∈ ids -> sandboxes p !! id = Some sb ->
  exists res, EvContainerRemove (ContainerID sb) {| Force := true |} res
                ∈ log (deleteAll ids p).2.
Proof.
  induction ids as [|i ids IH]; intros p id sb Hin Hsb; [by apply elem_of_nil in Hin|].
  cbn [deleteAll]. unfold mbind, M_bind.
  set (ctx := {| ctx_Timeout := Some (10 * 1000 * Millisecond) |}).
  destruct (decide (id = i)) as [->|Hne].
  - destruct (Delete_registered ctx i p sb Hsb) as (res & r' & _ & Hdel).
    rewrite Hdel. exists res.
    match goal with |- _ ∈ log (deleteAll ids ?q).2 =>
      destruct (deleteAll_shrinks ids q) as (_ & _ & l & -> & _) end.
    cbn. rewrite !elem_of_app, !elem_of_cons. tauto.
  - apply elem_of_cons in Hin as [?|Hin]; [done|].
    pose proof (Delete_sandboxes ctx i p) as Hd.
    destruct (Delete ctx i p) as [err p1]. cbn in Hd.
    apply (IH p1 id sb Hin). rewrite Hd. by rewrite lookup_delete_ne.
Qed.


End Registry.

Section CreateRegistry.
Context {R : Type} `{!Runtime R}.
Implicit Types p : DockerProvider R.

(** What a successful create has put into the registry *)
Lemma Create_success ctx template ttl p id exp :
  (Create ctx template ttl p).1 = (id, exp, None) ->
  exists sb,
    sandboxes (Create ctx template ttl p).2 = <[id := sb]> (sandboxes p) /\
    ID sb = id /\ Template sb = template /\ ExpiresAt sb = exp /\
    exp = CreatedAt sb + ttl /\
    exists img name,
      templates !! template = Some img /\
      log (Create ctx template ttl p).2 = log p ++
        [EvContainerCreate (sandboxConfig img) sandboxHostConfig name (inr (ContainerID sb));
         EvContainerStart (ContainerID sb) None;
         EvInsert id sb].
Proof.
  unfold Create. destruct (templates !! template) as [img|] eqn:Himg; [|done].
  unfold_M. run_calls; try done.
  all: intros [= <- <-]; eexists; split_and!; try reflexivity;
    eexists _, _; split; [done|]; cbn; by rewrite <- ?app_assoc.
Qed.

(** X13.  When create succeeds, the id it returns is registered with a
    record that carries that id, the requested template and an expiry of
    exactly creation time plus ttl; the container lookup of the id
    answers with the record's container; the template is one of python,
    node and go; and no other id's record has changed. *)
Theorem Create_registers_what_it_returns ctx template ttl p id exp :
  (Create ctx template ttl p).1 = (id, exp, None) ->
  let p' := (Create ctx template ttl p).2 in
  exists sb,
    sandboxes p' !! id = Some sb /\
    ID sb = id /\ Template sb = template /\
    ExpiresAt sb = exp /\ exp = CreatedAt sb + ttl /\
    GetContainerID id p' = ((ContainerID sb, None), p') /\
    template ∈ known_templates /\
    (forall id', id' <> id -> sandboxes p' !! id' = sandboxes p !! id').
Proof.
  intros Hok p'.
  destruct (Create_success _ _ _ _ _ _ Hok)
    as (sb & Hs & Hid & Ht & He & Hexp & img & name & Himg & _).
  fold p' in Hs. exists sb.
  assert (Hl : sandboxes p' !! id = Some sb) by (rewrite Hs; apply lookup_insert_eq).
  split_and!; try done.
  - unfold GetContainerID. unfold_M. cbn. by rewrite Hl.
  - destruct (decide (template ∈ known_templates)) as [|Hnin]; [done|].
    apply templates_lookup_None in Hnin. congruence.
  - intros id' Hne. rewrite Hs. by apply lookup_insert_ne.
Qed.



End CreateRegistry.

Section CreateRegistryExamples.
Import Script.

Lemma Create_registers_what_it_returns_witness :
  let p := NewDockerProvider quiet in
  let p' := (Create background "python" (1000 * Millisecond) p).2 in
  exists sb,
    sandboxes p' !! "0a1b2c3d" = Some sb /\
    ID sb = "0a1b2c3d" /\ Template sb = "python" /\
    ExpiresAt sb = 1000001000 /\ 1000001000 = CreatedAt sb + 1000 * Millisecond /\
    GetContainerID "0a1b2c3d" p' = ((ContainerID sb, None), p') /\
    "python" ∈ known_templates /\
    (forall id', id' <> "0a1b2c3d" -> sandboxes p' !! id' = sandboxes p !! id').
Proof.
  refine (Create_registers_what_it_returns background "python" (1000 * Millisecond)
            (NewDockerProvider quiet) "0a1b2c3d" 1000001000 _).
  vm_compute. reflexivity.
Defined.



End CreateRegistryExamples.

(** ** The dispatcher's answers *)

Section Envelope.
Context {P : Type} `{!Provider P}.

Ltac in_table :=
  unfold wellShaped, errorTable; cbn; split; [done|];
  rewrite !elem_of_cons; tauto.

Lemma serveCreate_wellShaped req now s : wellShaped (serveCreate req now s).1.
Proof.
  unfold serveCreate.
  destruct (as_CreateParams (req_Params req)) as [p|]; [|in_table].
  destruct (decide (cp_Template p = "")); [in_table|].
  destruct (Rpc.Create _ _ _ s) as [[[sid exp] [e|]] s']; [in_table|].
  by split.
Qed.

Lemma serveExec_wellShaped req s : wellShaped (serveExec req s).1.
Proof.
  unfold serveExec.
  destruct (as_ExecParams (req_Params req)) as [p|]; [|in_table].
  destruct (decide (ep_ID p = "")); [in_table|].
  destruct (len (ep_Cmd p) =? 0); [in_table|].
  destruct (Rpc.Exec _ _ _ _ _ _ _ s) as [r s'].
  destruct (x_err r) as [e|]; [|by split].
  destruct (IsDeadlineExceeded e || x_timedOut r); in_table.
Qed.

Lemma serveDelete_wellShaped req s : wellShaped (serveDelete req s).1.
Proof.
  unfold serveDelete.
  destruct (as_DeleteParams (req_Params req)) as [p|]; [|in_table].
  destruct (decide (dp_ID p = "")); [in_table|].
  destruct (Rpc.Delete _ _ s) as [[e|] s']; [in_table|]. by split.
Qed.

(** X16.  Whatever the request and whatever the provider does, the answer
    of the dispatcher is a JSON-RPC 2.0 response that is either a result
    or an error, never both and never neither, and an error is one of six:
    -32001 INVALID_PARAMS (not retryable), -32003 CONTAINER_CREATE_FAILED,
    -32004 EXEC_TIMEOUT, -32005 EXEC_FAILED, -32007 DELETE_FAILED (all
    retryable) and -32601 without data. *)
Theorem ServeHTTP_answers_are_well_shaped (body : Body) (now : Z) (s : P) :
  wellShaped (ServeHTTP body now s).1.
Proof.
  unfold ServeHTTP. destruct body as [| |req]; [in_table | in_table |].
  destruct (negb _ || _); [in_table|].
  repeat case_bool_decide.
  - apply serveCreate_wellShaped.
  - apply serveExec_wellShaped.
  - apply serveDelete_wellShaped.
  - in_table.
Qed.

(** X17.  A request that is answered with -32001 (unreadable body, broken
    envelope, wrong version, missing method, undecodable or incomplete
    params) has not reached the provider: the provider is exactly as it
    was. *)
Theorem invalid_requests_do_not_reach_the_provider (body : Body) (now : Z) (s : P) :
  error_code (ServeHTTP body now s).1 = Some (-32001) ->
  (ServeHTTP body now s).2 = s.
Proof.
  unfold ServeHTTP. destruct body as [| |req]; [done | done |].
  destruct (negb _ || _); [done|].
  repeat case_bool_decide; [| | |done].
  - unfold serveCreate.
    destruct (as_CreateParams (req_Params req)) as [p|]; [|done].
    destruct (decide (cp_Template p = "")); [done|].
    by destruct (Rpc.Create _ _ _ s) as [[[sid exp] [e|]] s'].
  - unfold serveExec.
    destruct (as_ExecParams (req_Params req)) as [p|]; [|done].
    destruct (decide (ep_ID p = "")); [done|].
    destruct (len (ep_Cmd p) =? 0); [done|].
    destruct (Rpc.Exec _ _ _ _ _ _ _ s) as [r s'].
    destruct (x_err r) as [e|]; [|done].
    by destruct (IsDeadlineExceeded e || x_timedOut r).
  - unfold serveDelete.
    destruct (as_DeleteParams (req_Params req)) as [p|]; [|done].
    destruct (decide (dp_ID p = "")); [done|].
    by destruct (Rpc.Delete _ _ s) as [[e|] s'].
Qed.

End Envelope.

Section EnvelopeExamples.
Import Script.

Lemma invalid_requests_do_not_reach_the_provider_witness :
  (ServeHTTP (request (Some "3") "sandbox.v1.exec" (execParams "0a1b2c3d" [] 0 0 0)) 0
     (serving quiet)).2 = serving quiet.
Proof.
  refine (invalid_requests_do_not_reach_the_provider
            (request (Some "3") "sandbox.v1.exec" (execParams "0a1b2c3d" [] 0 0 0)) 0
            (serving quiet) _).
  vm_compute. reflexivity.
Defined.

End EnvelopeExamples.

(** ** The dispatcher over the Docker provider *)

Section Served.
Context {R : Type} `{!Runtime R}.
Implicit Types p : DockerProvider R.

(** Whatever the runtime does, the output that [Exec] returns is within
    the caps it was given. *)
Lemma Exec_output_bounded ctx id cmd cwd env maxOut maxErr p :
  0 <= maxOut -> 0 <= maxErr ->
  let r := (Exec ctx id cmd cwd env maxOut maxErr p).1 in
  len (x_stdout r) <= maxOut /\ len (x_stderr r) <= maxErr.
Proof.
  intros Hout Herr. unfold Exec. unfold_M. cbn.
  destruct (time_Now (client p)) as [t0 r1]; cbn.
  destruct (sandboxes p !! id) as [sb|]; cbn; [|unfold len; cbn; lia].
  destruct (ContainerExecCreate _ _ r1) as [[e|execID] r2]; cbn.
  { destruct (time_Now r2); cbn. unfold len; cbn; lia. }
  destruct (ContainerExecAttach execID r2) as [[e|resp] r3]; cbn.
  { destruct (time_Now r3); cbn. unfold len; cbn; lia. }
  destruct (capture maxOut maxErr (hr_Reader resp)) as [[[o e] rest] res] eqn:Hcap.
  destruct (capture_spec _ _ _ _ _ _ _ Hout Herr Hcap)
    as (_ & (_ & HWo & _) & (_ & HWe & _) & _).
  unfold capture, StdCopy in Hcap. apply copy_frames_Max in Hcap as [HMo HMe].
  cbn in HMo, HMe. rewrite HMo in HWo. rewrite HMe in HWe.
  run_calls. cbn [fst x_stdout x_stderr]. rewrite HWo, HWe. unfold len.
  rewrite !length_take. lia.
Qed.

(** What the encoder does to the length of a string: a byte stays, or
    becomes the three bytes of U+FFFD. *)
Lemma readBack_length s : forall skip,
  (length (Json.readBack skip s) <= 3 * length s)%nat.
Proof.
  induction s as [|b s IH]; intros skip; [done|].
  cbn [Json.readBack].
  destruct skip as [|k]; [destruct (Json.runeLen (b :: s)) as [[|k]|]|].
  - rewrite length_app. cbn [length Json.replacement]. specialize (IH 0%nat). lia.
  - cbn [length]. specialize (IH k). lia.
  - rewrite length_app. cbn [length Json.replacement]. specialize (IH 0%nat). lia.
  - cbn [length]. specialize (IH k). lia.
Qed.

(** ASCII text is encoded as it is. *)
Lemma encoded_ascii s :
  Forall (λ b, Json.val b < 128) s -> Json.encoded s = s.
Proof.
  unfold Json.encoded. induction s as [|b s IH]; intros Hs; [done|].
  apply Forall_cons in Hs as [Hb Hs]. cbn beta in Hb.
  cbn [Json.readBack Json.runeLen]. unfold Json.leading.
  destruct (Json.val b <? 128) eqn:E; [|apply Z.ltb_ge in E; lia].
  cbn [Json.readBack]. by rewrite IH.
Qed.


(** X19.  Once the runtime has attached the exec stream, the request is
    answered with a result and never with an error, whatever happens
    afterwards: a stream that breaks, a deadline that passes and an
    inspection that fails are all reported inside the result.  The
    [timed_out] field tells whether the context reports the deadline as
    exceeded after the stream was read, and the exit code is the one
    inspected, or -1 when the inspection failed. *)
Theorem attached_exec_is_answered_with_a_result rid id cmd timeout_ms maxOut maxErr now p
    sb t0 r1 execID r2 resp r3 ctxErr r4 inspected r5 :
  id <> "" -> cmd <> [] ->
  sandboxes p !! id = Some sb ->
  time_Now (client p) = (t0, r1) ->
  ContainerExecCreate (ContainerID sb) (execOptions cmd "" ∅) r1 = (inr execID, r2) ->
  ContainerExecAttach execID r2 = (inr resp, r3) ->
  ctx_Err {| ctx_Timeout := Some (clamp timeout_ms 5000 120000 * Millisecond) |} r3
    = (ctxErr, r4) ->
  ContainerExecInspect execID r4 = (inspected, r5) ->
  let answer :=
    (ServeHTTP (request rid "sandbox.v1.exec" (execParams id cmd timeout_ms maxOut maxErr))
       now p).1 in
  resp_Error answer = None /\
  exists res,
    resp_Result answer = Some (ResExec res) /\
    er_TimedOut res = match ctxErr with Some DeadlineExceeded => true | _ => false end /\
    er_ExitCode res = match inspected with inl _ => -1 | inr c => c end.
Proof.
  intros Hid Hcmd Hsb Hnow Hcreate Hattach Hctx Hinspect.
  change (ServeHTTP (request rid "sandbox.v1.exec"
                      (execParams id cmd timeout_ms maxOut maxErr)) now p)
    with (serveExec {| req_JSONRPC := "2.0"; req_ID := rid;
                       req_Method := "sandbox.v1.exec";
                       req_Params := execParams id cmd timeout_ms maxOut maxErr |} p).
  unfold serveExec, execParams. cbn.
  destruct (decide (id = "")) as [|_]; [done|].
  destruct (len cmd =? 0) eqn:Hlen.
  { apply Z.eqb_eq in Hlen. destruct cmd; [done|]. unfold len in Hlen. cbn in Hlen. lia. }
  change DefaultTimeoutMS with 5000. change MaxTimeoutMS with 120000.
  unfold Exec. unfold_M. cbn.
  rewrite Hnow; cbn. rewrite Hsb; cbn. rewrite Hcreate; cbn. rewrite Hattach; cbn.
  destruct (capture _ _ (hr_Reader resp)) as [[[o e] rest] res]. cbn.
  cbn in Hctx. rewrite Hctx; cbn. rewrite Hinspect; cbn.
  destruct (time_Now r5); cbn. split; [done|]. eexists. split; [done|]. by cbn.
Qed.

(** A successful create, as the dispatcher needs it *)
Lemma Create_registers_registry ctx template ttl p id exp :
  (Create ctx template ttl p).1 = (id, exp, None) ->
  exists sb,
    sandboxes (Create ctx template ttl p).2 !! id = Some sb /\
    Template sb = template /\ ExpiresAt sb = exp /\ exp = CreatedAt sb + ttl /\
    template ∈ known_templates.
Proof.
  intros Hok.
  destruct (Create_success _ _ _ _ _ _ Hok)
    as (sb & Hs & Hid & Ht & He & Hexp & img & name & Himg & _).
  exists sb. split_and!; try done.
  - rewrite Hs. apply lookup_insert_eq.
  - destruct (decide (template ∈ known_templates)) as [|Hnin]; [done|].
    apply templates_lookup_None in Hnin. congruence.
Qed.

(** X20.  The create result that the dispatcher hands to [writeRPC]
    names a template of the table and an id that the provider has
    registered; [created_at] is the RFC 3339 rendering of the time the
    handler read, [expires_at] that of the expiry recorded, and the
    recorded expiry is the record's creation time plus the requested
    [ttl_ms], or plus ten minutes when the request gives none or a
    non-positive one. *)
Theorem create_results_describe_the_registered_sandbox (body : Body) (now : Z) p
    (res : CreateResult) :
  resp_Result (ServeHTTP body now p).1 = Some (ResCreate res) ->
  let p' := (ServeHTTP body now p).2 in
  exists req cp sb,
    body = BodyJSON req /\ as_CreateParams (req_Params req) = Some cp /\
    cr_Template res = cp_Template cp /\ cp_Template cp ∈ known_templates /\
    cr_CreatedAt res = Format_RFC3339 now /\
    sandboxes p' !! cr_ID res = Some sb /\
    Template sb = cr_Template res /\
    cr_ExpiresAt res = Format_RFC3339 (ExpiresAt sb) /\
    (cp_TTLMS cp <= 0 -> ExpiresAt sb = CreatedAt sb + 600000000000) /\
    (0 < cp_TTLMS cp <= 9223372036854 ->
     ExpiresAt sb = CreatedAt sb + cp_TTLMS cp * 1000000).
Proof.
  unfold ServeHTTP. destruct body as [| |req]; [done | done |].
  destruct (negb _ || _); [done|].
  repeat case_bool_decide.
  - unfold serveCreate.
    destruct (as_CreateParams (req_Params req)) as [cp|] eqn:Hcp; [|done].
    destruct (decide (cp_Template cp = "")); [done|].
    match goal with
    | |- context [Rpc.Create ?c ?t ?l p] =>
        change (Rpc.Create c t l p) with (Create c t l p);
        pose proof (Create_registers_registry c t l p) as Hc
    end.
    destruct (Create _ _ _ p) as [[[sid exp] [e|]] s']; [done|].
    cbn -[Format_RFC3339]. intros [= Hres]. subst res. cbn -[Format_RFC3339].
    destruct (Hc sid exp eq_refl) as (sb & Hl & Ht & He & Hexp & Hk).
    cbn [fst snd] in Hl, Hexp.
    exists req, cp, sb. split_and!; try done.
    + by rewrite He.
    + intros Hle. rewrite He, Hexp.
      destruct (cp_TTLMS cp <=? 0) eqn:E; [|apply Z.leb_gt in E; lia].
      unfold Minute, Millisecond. lia.
    + intros Hr. rewrite He, Hexp.
      destruct (cp_TTLMS cp <=? 0) eqn:E; [apply Z.leb_le in E; lia|].
      unfold wrap64, Millisecond. f_equal.
      rewrite Z.mod_small by lia. lia.
  - unfold serveExec.
    destruct (as_ExecParams (req_Params req)) as [ps|]; [|done].
    destruct (decide (ep_ID ps = "")); [done|].
    destruct (len (ep_Cmd ps) =? 0); [done|].
    destruct (Rpc.Exec _ _ _ _ _ _ _ p) as [r s'].
    destruct (x_err r) as [e|]; [|done].
    by destruct (IsDeadlineExceeded e || x_timedOut r).
  - unfold serveDelete.
    destruct (as_DeleteParams (req_Params req)) as [dp|]; [|done].
    destruct (decide (dp_ID dp = "")); [done|].
    by destruct (Rpc.Delete _ _ p) as [[e|] s'].
  - done.
Qed.

End Served.

Section ServedExamples.
Import Script.


Lemma attached_exec_is_answered_with_a_result_witness :
  let answer :=
    (ServeHTTP (request (Some "3") "sandbox.v1.exec" (execParams "0a1b2c3d" ["cat"] 0 4 0))
       0 (serving (streaming hello))).1 in
  resp_Error answer = None /\
  exists res,
    resp_Result answer = Some (ResExec res) /\
    er_TimedOut res = false /\
    er_ExitCode res = 0.
Proof.
  refine (attached_exec_is_answered_with_a_result (Some "3") "0a1b2c3d" ["cat"] 0 4 0 0
            (serving (streaming hello))
            {| ID := "0a1b2c3d"; ContainerID := "c-sandbox-0a1b2c3d";
               Template := "python"; CreatedAt := 1000; ExpiresAt := 1000001000 |}
            1001 (tick (tick (streaming hello))) "exec-1"
            (tick (tick (streaming hello))) {| hr_Reader := hello |}
            (tick (tick (streaming hello))) None
            (tick (tick (streaming hello))) (inr 0)
            (tick (tick (streaming hello))) _ _ _ _ _ _ _ _).
  - discriminate.
  - discriminate.
  - vm_compute. reflexivity.
  - vm_compute. reflexivity.
  - reflexivity.
  - reflexivity.
  - reflexivity.
  - reflexivity.
Defined.

Lemma create_results_describe_the_registered_sandbox_witness :
  let body := request (Some "1") "sandbox.v1.create" (createParams "node" 0) in
  let now := 1761850466123456789 in
  let res := {| cr_ID := "0a1b2c3d"; cr_Template := "node";
                cr_CreatedAt := "2025-10-30T18:54:26Z";
                cr_ExpiresAt := "1970-01-01T00:10:00Z" |} in
  let p' := (ServeHTTP body now (NewDockerProvider quiet)).2 in
  exists req cp sb,
    body = BodyJSON req /\ as_CreateParams (req_Params req) = Some cp /\
    cr_Template res = cp_Template cp /\ cp_Template cp ∈ known_templates /\
    cr_CreatedAt res = Format_RFC3339 now /\
    sandboxes p' !! cr_ID res = Some sb /\
    Template sb = cr_Template res /\
    cr_ExpiresAt res = Format_RFC3339 (ExpiresAt sb) /\
    (cp_TTLMS cp <= 0 -> ExpiresAt sb = CreatedAt sb + 600000000000) /\
    (0 < cp_TTLMS cp <= 9223372036854 ->
     ExpiresAt sb = CreatedAt sb + cp_TTLMS cp * 1000000).
Proof.
  refine (create_results_describe_the_registered_sandbox
            (request (Some "1") "sandbox.v1.create" (createParams "node" 0))
            1761850466123456789 (NewDockerProvider quiet) _ _).
  vm_compute. reflexivity.
Defined.

End ServedExamples.

(** ** The terminal handler: before the bridge *)

Section TerminalPath.
Import TerminalSetup.

Lemma stripPrefix_app (prefix s : string) : stripPrefix prefix (prefix +:+ s) = Some s.
Proof.
  induction prefix as [|a prefix IH]; [by destruct s|].
  change (String a prefix +:+ s) with (String a (prefix +:+ s)).
  cbn [stripPrefix]. by rewrite Ascii.eqb_refl.
Qed.

Lemma firstSegment_slashFree (id : string) :
  slashFree id -> firstSegment id = id.
Proof.
  induction id as [|c id IH]; [done|]. cbn [firstSegment slashFree]. intros [Hc Hid].
  apply Ascii.eqb_neq in Hc. rewrite Hc. by rewrite IH.
Qed.

Lemma firstSegment_slash (id rest : string) :
  slashFree id -> firstSegment (id +:+ "/" +:+ rest) = id.
Proof.
  induction id as [|c id IH]; [done|].
  change (String c id +:+ "/" +:+ rest) with (String c (id +:+ "/" +:+ rest)).
  cbn [firstSegment slashFree]. intros [Hc Hid].
  apply Ascii.eqb_neq in Hc. rewrite Hc. by rewrite IH.
Qed.

(** X21.  The handler reads the sandbox id off the path as the client
    library builds it: for an id without a slash, the id of
    [/terminal/<id>] is that id, and whatever follows a further slash is
    ignored. *)
Theorem sandboxIDOf_reads_the_id (id rest : string) :
  slashFree id ->
  sandboxIDOf ("/terminal/" +:+ id) = id /\
  sandboxIDOf ("/terminal/" +:+ id +:+ "/" +:+ rest) = id.
Proof.
  intros Hid. unfold sandboxIDOf, TrimPrefix.
  rewrite !stripPrefix_app. cbn [default].
  split; [by apply firstSegment_slashFree | by apply firstSegment_slash].
Qed.

Lemma sandboxIDOf_reads_the_id_witness :
  sandboxIDOf ("/terminal/" +:+ "0a1b2c3d") = "0a1b2c3d" /\
  sandboxIDOf ("/terminal/" +:+ "0a1b2c3d" +:+ "/" +:+ "resize") = "0a1b2c3d".
Proof.
  refine (sandboxIDOf_reads_the_id "0a1b2c3d" "resize" _).
  vm_compute. repeat split; discriminate.
Defined.

End TerminalPath.

Ltac members :=
  repeat match goal with
         | H : _ ∈ _ :: _ |- _ => apply elem_of_cons in H as [H|H]; [try done|]
         | H : _ ∈ [] |- _ => by apply elem_of_nil in H
         end.

Ltac member := repeat first [apply list_elem_of_here | apply list_elem_of_further].

Section TerminalSetupProps.
Import TerminalSetup.

Section AnyProvider.
Context {P C W : Type} `{!TerminalProvider P C, !TerminalClient C, !Upgrader W}.

(** The runs of the handler, by where they end *)
Lemma ServeHTTP_runs (path : string) (evs : list Terminal.Event) (p : P) (w : W) :
  let acts := (ServeHTTP path evs p w).1.1 in
  (exists status body, acts = [HttpError status body]) \/
  (exists status body, acts = [UpgradeRefused status body]) \/
  acts = [] \/
  (exists cid e,
     acts = [Upgraded; CallExecCreate cid shell (inl e);
             WriteText ("Error: " +:+ Error e); CloseConn]) \/
  (exists cid execID e,
     acts = [Upgraded; CallExecCreate cid shell (inr execID);
             CallExecAttach execID true (Some e);
             WriteText ("Error: " +:+ Error e); CloseConn]) \/
  (exists cid execID e,
     acts = [Upgraded; CallExecCreate cid shell (inr execID);
             CallExecAttach execID true None; CallExecStart execID true (Some e);
             WriteText ("Error: " +:+ Error e); CloseResp; CloseConn]) \/
  (exists cid execID,
     acts = [Upgraded; CallExecCreate cid shell (inr execID);
             CallExecAttach execID true None; CallExecStart execID true None; Bridge]
            ++ afterBridge evs).
Proof.
  unfold ServeHTTP.
  destruct (decide (sandboxIDOf path = "")) as [|_]; [left; by eexists _, _|].
  destruct (TerminalSetup.GetContainerID _ p) as [[cid [e|]] p1];
    [left; by eexists _, _|].
  destruct (Upgrade w) as [[f|] w1].
  { destruct (uf_reply f) as [[status body]|]; [right; left; by eexists _, _|].
    right; right; by left. }
  destruct (onClient (ExecCreate cid shell) p1) as [[e|execID] p2].
  { do 3 right. left. by eexists _, _. }
  destruct (onClient (ExecAttach execID true) p2) as [[e|] p3].
  { do 4 right. left. by eexists _, _, _. }
  destruct (onClient (ExecStart execID true) p3) as [[e|] p4].
  { do 5 right. left. by eexists _, _, _. }
  do 6 right. by eexists _, _.
Qed.

(** The handler has returned from the bridge exactly when the deferred
    closes are in what it did. *)
Lemma afterBridge_closes (evs : list Terminal.Event) :
  (afterBridge evs = [CloseResp; CloseConn] /\
   Terminal.handler (Terminal.run Terminal.start evs) = Terminal.HandlerReturned) \/
  (afterBridge evs = [] /\
   Terminal.handler (Terminal.run Terminal.start evs) = Terminal.WaitingDone).
Proof.
  unfold afterBridge.
  destruct (Terminal.handler (Terminal.run Terminal.start evs)); [right|left]; done.
Qed.

(** After the client's close nothing lets the handler return, as long as
    the container is silent. *)
Lemma afterBridge_client_close (evs : list Terminal.LocalEvent) :
  afterBridge (Terminal.FromClient Terminal.Close :: (Terminal.local <$> evs)) = [].
Proof.
  unfold afterBridge.
  change (Terminal.run Terminal.start
            (Terminal.FromClient Terminal.Close :: (Terminal.local <$> evs)))
    with (Terminal.run (Terminal.step Terminal.start (Terminal.FromClient Terminal.Close))
            (Terminal.local <$> evs)).
  assert (Ha : Terminal.abandoned
                 (Terminal.run
                    (Terminal.step Terminal.start (Terminal.FromClient Terminal.Close))
                    (Terminal.local <$> evs))).
  { apply abandoned_run. by repeat split. }
  destruct Ha as (_ & _ & -> & _). done.
Qed.


(** X23.  The exec stream is released exactly when it was attached and
    the handler got to return: [resp.Close()] runs if and only if the
    attach succeeded and either the start of the exec failed or the
    handler has got past its wait on [done]; it does not run when the
    exec could not be created or attached, nor while the handler waits.
    When it runs, [conn.Close()] follows it at once and is the last
    action. *)
Theorem attached_streams_are_released (path : string) (evs : list Terminal.Event)
    (p : P) (w : W) :
  let acts := (ServeHTTP path evs p w).1.1 in
  (CloseResp ∈ acts <->
   (exists execID, CallExecAttach execID true None ∈ acts) /\
   ((exists execID e, CallExecStart execID true (Some e) ∈ acts) \/
    Terminal.handler (Terminal.run Terminal.start evs) = Terminal.HandlerReturned)) /\
  (forall cid config e, CallExecCreate cid config (inl e) ∈ acts -> CloseResp ∉ acts) /\
  (forall execID tty e, CallExecAttach execID tty (Some e) ∈ acts -> CloseResp ∉ acts) /\
  (CloseResp ∈ acts -> exists before, acts = before ++ [CloseResp; CloseConn]).
Proof.
  intros acts.
  destruct (ServeHTTP_runs path evs p w)
    as [(st & bd & Ha)|[(st & bd & Ha)|[Ha|[(cid & e & Ha)|[(cid & x & e & Ha)|
        [(cid & x & e & Ha)|(cid & x & Ha)]]]]]];
    fold acts in Ha; rewrite Ha; clear Ha acts.
  - split_and!.
    + split; [intros Hin; members|]. intros [[y Hin] _]. members.
    + intros c cfg e Hin. members.
    + intros y t e Hin. members.
    + intros Hin. members.
  - split_and!.
    + split; [intros Hin; members|]. intros [[y Hin] _]. members.
    + intros c cfg e Hin. members.
    + intros y t e Hin. members.
    + intros Hin. members.
  - split_and!.
    + split; [intros Hin; members|]. intros [[y Hin] _]. members.
    + intros c cfg e Hin. members.
    + intros y t e Hin. members.
    + intros Hin. members.
  - split_and!.
    + split; [intros Hin; members|]. intros [[y Hin] _]. members.
    + intros c cfg e' _ Hin. members.
    + intros y t e' _ Hin. members.
    + intros Hin. members.
  - split_and!.
    + split; [intros Hin; members|]. intros [[y Hin] _]. members.
    + intros c cfg e' _ Hin. members.
    + intros y t e' _ Hin. members.
    + intros Hin. members.
  - split_and!.
    + split; [intros _|intros _; member].
      split; [exists x; member|]. left. exists x, e. member.
    + intros c cfg e' Hin. members.
    + intros y t e' Hin. members.
    + intros _. by eexists [_; _; _; _; _].
  - destruct (afterBridge_closes evs) as [[-> Hh]|[-> Hh]]; cbn [app]; rewrite Hh.
    + split_and!.
      * split; [intros _|intros _; member]. split; [exists x; member|]. by right.
      * intros c cfg e' Hin. members.
      * intros y t e' Hin. members.
      * intros _. by eexists [_; _; _; _; _].
    + split_and!.
      * split; [intros Hin; members|].
        intros [_ [(y & e & Hin)|Hh']]; [members|done].
      * intros c cfg e' _ Hin. members.
      * intros y t e' _ Hin. members.
      * intros Hin. members.
Qed.

End AnyProvider.

Section OverDocker.
Context {R W : Type} `{!TerminalClient R, !Upgrader W}.
Implicit Types p : DockerProvider R.

(** X24.  A terminal request for a path without an id or for an id that
    is not registered is refused before the upgrade: the answer is one
    HTTP error, 400 without an id and 404 for an unknown one, nothing is
    asked of the Docker client, and the provider is as it was. *)
Theorem terminal_refused_before_upgrade (path : string) (evs : list Terminal.Event)
    p (w : W) :
  let id := sandboxIDOf path in
  id = "" \/ sandboxes p !! id = None ->
  ServeHTTP path evs p w =
    ([if decide (id = "") then HttpError 400 "sandbox ID required"
      else HttpError 404 "sandbox not found"], p, w).
Proof.
  intros id Hid. unfold ServeHTTP. fold id.
  destruct (decide (id = "")) as [|Hne]; [done|].
  destruct Hid as [|Hnone]; [done|].
  unfold TerminalSetup.GetContainerID, DockerProvider_TerminalProvider.
  unfold Docker.GetContainerID. unfold_M. cbn [client sandboxes gcInterval log].
  rewrite Hnone. cbn. by destruct p.
Qed.

(** X25.  Of the provider the terminal handler changes nothing but the
    state of its Docker client: the registry, the collection interval
    and the log are afterwards as they were, and without an upgrade the
    client is untouched too.  The one exec that it creates is the TTY
    shell, in the container of the sandbox that the path names, and it is
    created on the provider's own client. *)
Theorem terminal_handler_only_reads_the_registry (path : string)
    (evs : list Terminal.Event) p (w : W) :
  let acts := (ServeHTTP path evs p w).1.1 in
  let p' := (ServeHTTP path evs p w).1.2 in
  sandboxes p' = sandboxes p /\ log p' = log p /\ gcInterval p' = gcInterval p /\
  (Upgraded ∉ acts -> p' = p) /\
  (forall cid config res,
     CallExecCreate cid config res ∈ acts ->
     config = shell /\
     (ExecCreate cid shell (client p)).1 = res /\
     exists sb, sandboxes p !! sandboxIDOf path = Some sb /\ cid = ContainerID sb).
Proof.
  unfold ServeHTTP.
  destruct (decide (sandboxIDOf path = "")) as [|_].
  { cbn. split_and!; try done. intros c cfg res Hin.
    apply elem_of_cons in Hin as [?|Hin]; [done|]. by apply elem_of_nil in Hin. }
  generalize (sandboxIDOf path). intros id.
  unfold TerminalSetup.GetContainerID, DockerProvider_TerminalProvider.
  unfold Docker.GetContainerID. unfold_M. cbn.
  destruct (sandboxes p !! id) as [sb|] eqn:Hsb; cbn.
  2:{ destruct p; cbn. split_and!; try done. intros c cfg res Hin.
      apply elem_of_cons in Hin as [?|Hin]; [done|]. by apply elem_of_nil in Hin. }
  destruct (Upgrade w) as [[f|] w1]; cbn.
  { destruct p; cbn in *. split_and!; try done. intros c cfg res Hin.
    destruct (uf_reply f) as [[st bd]|];
      [apply elem_of_cons in Hin as [?|Hin]; [done|]|]; by apply elem_of_nil in Hin. }
  unfold onClient. cbn.
  destruct (ExecCreate (ContainerID sb) shell (client p)) as [created r1] eqn:Hcreate.
  assert (Hcall : forall c cfg res,
            CallExecCreate c cfg res = CallExecCreate (ContainerID sb) shell created ->
            cfg = shell /\ (ExecCreate c shell (client p)).1 = res /\
            exists sb', Some sb = Some sb' /\ c = ContainerID sb').
  { intros c cfg res [= -> -> ->]. rewrite Hcreate. split_and!; try done. by exists sb. }
  destruct created as [e|execID]; cbn.
  { split_and!; try done.
    - intros Hno. exfalso. apply Hno. apply list_elem_of_here.
    - intros c cfg res Hin. members. by apply Hcall. }
  destruct (ExecAttach execID true r1) as [[e|] r2]; cbn.
  { split_and!; try done.
    - intros Hno. exfalso. apply Hno. apply list_elem_of_here.
    - intros c cfg res Hin. members. by apply Hcall. }
  destruct (ExecStart execID true r2) as [[e|] r3]; cbn.
  { split_and!; try done.
    - intros Hno. exfalso. apply Hno. apply list_elem_of_here.
    - intros c cfg res Hin. members. by apply Hcall. }
  split_and!; try done.
  - intros Hno. exfalso. apply Hno. apply list_elem_of_here.
  - intros c cfg res Hin.
    destruct (afterBridge_closes evs) as [[Hb _]|[Hb _]]; rewrite Hb in Hin;
      members; by apply Hcall.
Qed.

End OverDocker.

End TerminalSetupProps.

Section TerminalSetupExamples.
Import TerminalSetup Script ScriptLib.


Lemma terminal_refused_before_upgrade_witness :
  ServeHTTP "/terminal/deadbeef" [] (serving quiet) willing =
    ([if decide (sandboxIDOf "/terminal/deadbeef" = "")
      then HttpError 400 "sandbox ID required"
      else HttpError 404 "sandbox not found"], serving quiet, willing).
Proof.
  refine (terminal_refused_before_upgrade "/terminal/deadbeef" [] (serving quiet) willing _).
  right. vm_compute. reflexivity.
Defined.

(** The handler on a daemon whose exec start fails: the stream that was
    attached is released, the connection closed, and the daemon has
    served three calls. *)
Lemma start_failure_run :
  ServeHTTP "/terminal/0a1b2c3d" []
    (attended (mkDaemon None None (Some (errorString "exec is not running")) 0)) willing =
  ([Upgraded; CallExecCreate "c-sandbox-0a1b2c3d" shell (inr "exec-tty");
    CallExecAttach "exec-tty" true None;
    CallExecStart "exec-tty" true (Some (errorString "exec is not running"));
    WriteText "Error: exec is not running"; CloseResp; CloseConn],
   attended (mkDaemon None None (Some (errorString "exec is not running")) 3), willing).
Proof. vm_compute. reflexivity. Qed.

End TerminalSetupExamples.

(** ** The terminal bridge: what is relayed *)

Section Relay.
Import Terminal.

Lemma run_cons b ev evs : run b (ev :: evs) = run (step b ev) evs.
Proof. reflexivity. Qed.

Lemma run_app b evs evs' : run b (evs ++ evs') = run (run b evs) evs'.
Proof. unfold run. apply foldl_app. Qed.

(** A loop that has exited stays so, and delivers nothing more. *)
Lemma downstream_exited_run evs : forall b,
  downstream b = Exited ->
  downstream (run b evs) = Exited /\ toClient (run b evs) = toClient b.
Proof.
  induction evs as [|ev evs IH]; intros b Hd; [done|].
  rewrite run_cons.
  assert (downstream (step b ev) = Exited /\ toClient (step b ev) = toClient b)
    as [Hd' Hc].
  { destruct b as [d u h dn cc rc cg gg tc tk]. cbn in Hd. subst d.
    destruct ev as [[data| |]|[data|]|[| |]]; cbn; destruct u, h, dn, cc, rc, cg, gg; done. }
  destruct (IH _ Hd') as [? Hc']. split; [done|]. by rewrite Hc', Hc.
Qed.

Lemma upstream_exited_run evs : forall b,
  upstream b = Exited ->
  upstream (run b evs) = Exited /\ toContainer (run b evs) = toContainer b.
Proof.
  induction evs as [|ev evs IH]; intros b Hu; [done|].
  rewrite run_cons.
  assert (upstream (step b ev) = Exited /\ toContainer (step b ev) = toContainer b)
    as [Hu' Hc].
  { destruct b as [d u h dn cc rc cg gg tc tk]. cbn in Hu. subst u.
    destruct ev as [[data| |]|[data|]|[| |]]; cbn; destruct d, h, dn, cc, rc, cg, gg; done. }
  destruct (IH _ Hu') as [? Hc']. split; [done|]. by rewrite Hc', Hc.
Qed.

(** One event towards the client: an output is delivered, or the loop is
    no longer running afterwards; any other event delivers nothing. *)
Lemma step_toClient b ev :
  match ev with
  | FromContainer (Output data) =>
      toClient (step b ev) = toClient b ++ [data] \/
      (toClient (step b ev) = toClient b /\ downstream (step b ev) = Exited)
  | _ => toClient (step b ev) = toClient b
  end.
Proof.
  destruct b as [d u h dn cc rc cg gg tc tk].
  destruct ev as [[data| |]|[data|]|[| |]]; cbn;
    destruct d, u, h, dn, cc, rc, cg, gg; cbn; auto.
Qed.

Lemma step_toContainer b ev :
  match ev with
  | FromClient (Message data) =>
      toContainer (step b ev) = toContainer b ++ [data] \/
      (toContainer (step b ev) = toContainer b /\ upstream (step b ev) = Exited)
  | _ => toContainer (step b ev) = toContainer b
  end.
Proof.
  destruct b as [d u h dn cc rc cg gg tc tk].
  destruct ev as [[data| |]|[data|]|[| |]]; cbn;
    destruct d, u, h, dn, cc, rc, cg, gg; cbn; auto.
Qed.

Lemma run_toClient evs : forall b,
  exists l, l `prefix_of` outputs evs /\ toClient (run b evs) = toClient b ++ l.
Proof.
  induction evs as [|ev evs IH]; intros b.
  { exists []. split; [done|]. cbn. by rewrite app_nil_r. }
  rewrite run_cons. pose proof (step_toClient b ev) as Hs.
  destruct (IH (step b ev)) as (l & Hl & Hrun).
  destruct ev as [[data| |]|[data|]|[| |]]; cbn [outputs];
    try (exists l; split; [done|]; by rewrite Hrun, Hs).
  destruct Hs as [Hs|[Hs Hd]].
  - exists (data :: l). split; [by apply prefix_cons|].
    by rewrite Hrun, Hs, <- app_assoc.
  - exists []. split; [apply prefix_nil|].
    destruct (downstream_exited_run evs _ Hd) as [_ ->]. by rewrite Hs, app_nil_r.
Qed.

Lemma run_toContainer evs : forall b,
  exists l, l `prefix_of` messages evs /\ toContainer (run b evs) = toContainer b ++ l.
Proof.
  induction evs as [|ev evs IH]; intros b.
  { exists []. split; [done|]. cbn. by rewrite app_nil_r. }
  rewrite run_cons. pose proof (step_toContainer b ev) as Hs.
  destruct (IH (step b ev)) as (l & Hl & Hrun).
  destruct ev as [[data| |]|[data|]|[| |]]; cbn [messages];
    try (exists l; split; [done|]; by rewrite Hrun, Hs).
  destruct Hs as [Hs|[Hs Hu]].
  - exists (data :: l). split; [by apply prefix_cons|].
    by rewrite Hrun, Hs, <- app_assoc.
  - exists []. split; [apply prefix_nil|].
    destruct (upstream_exited_run evs _ Hu) as [_ ->]. by rewrite Hs, app_nil_r.
Qed.

(** X26.  The bridge neither invents, reorders nor skips: whatever the
    container, the client and the scheduler do, what has been delivered
    to the client is an initial part of what the container has put out,
    in the same order, and what has been written to the container's
    standard input is an initial part of what the client has sent. *)
Theorem bridge_delivers_in_order (evs : list Event) :
  toClient (run start evs) `prefix_of` outputs evs /\
  toContainer (run start evs) `prefix_of` messages evs.
Proof.
  destruct (run_toClient evs start) as (l & Hl & ->).
  destruct (run_toContainer evs start) as (l' & Hl' & ->). done.
Qed.

(** The state of a bridge on which nothing has ended yet *)
Lemma traffic_run evs : forall b,
  Forall traffic evs ->
  downstream b = Running -> upstream b = Running ->
  connClosed b = false -> respClosed b = false ->
  clientGone b = false -> containerGone b = false ->
  let b' := run b evs in
  toClient b' = toClient b ++ outputs evs /\
  toContainer b' = toContainer b ++ messages evs /\
  downstream b' = Running /\ upstream b' = Running /\
  handler b' = handler b /\ done b' = done b.
Proof.
  induction evs as [|ev evs IH]; intros b Hall Hd Hu Hc Hr Hcg Hgg.
  { cbn. by rewrite !app_nil_r. }
  apply Forall_cons in Hall as [Hev Hall]. cbn zeta. rewrite run_cons.
  destruct b as [d u h dn cc rc cg gg tc tk]. cbn in Hd, Hu, Hc, Hr, Hcg, Hgg. subst.
  destruct ev as [[data| |]|[data|]|[| |]]; try done; cbn [step]; cbn.
  - destruct (IH (mkBridge Running Running h dn false false false false (tc ++ [data]) tk)
                Hall eq_refl eq_refl eq_refl eq_refl eq_refl eq_refl)
      as (H1 & H2 & H3 & H4 & H5 & H6).
    cbn in *. rewrite H1, H2, <- app_assoc. done.
  - destruct (IH (mkBridge Running Running h dn false false false false tc (tk ++ [data]))
                Hall eq_refl eq_refl eq_refl eq_refl eq_refl eq_refl)
      as (H1 & H2 & H3 & H4 & H5 & H6).
    cbn in *. rewrite H1, H2, <- app_assoc. done.
Qed.

(** X27.  As long as neither side ends, the bridge relays everything:
    after any interleaving of container output and client messages, the
    client has received every output and the container every message, in
    order, both loops are still running and the handler is still waiting. *)
Theorem bridge_relays_all_traffic (evs : list Event) :
  Forall traffic evs ->
  let b := run start evs in
  toClient b = outputs evs /\ toContainer b = messages evs /\
  downstream b = Running /\ upstream b = Running /\ tornDown b = false.
Proof.
  intros Hall b.
  destruct (traffic_run evs start Hall eq_refl eq_refl eq_refl eq_refl eq_refl eq_refl)
    as (H1 & H2 & H3 & H4 & H5 & _).
  fold b in H1, H2, H3, H4, H5. split_and!; try done.
  unfold tornDown. by rewrite H5.
Qed.

(** X28.  The end of the container's stream tears the bridge down,
    whatever came before: once the read from the container returns the
    end of the stream or an error, the handler, when next scheduled,
    returns and closes both the connection and the exec stream, and the
    client-to-container loop, when next scheduled, exits. *)
Theorem container_end_tears_down (evs : list Event) (e : ContainerEvent) :
  (forall data, e <> Output data) ->
  let b := run start (evs ++ [FromContainer e; Schedule GoHandler; Schedule GoUpstream]) in
  tornDown b = true /\ upstream b = Exited /\ downstream b = Exited /\
  connClosed b = true /\ respClosed b = true.
Proof.
  intros He b.
  assert (Hd : downstream (run start (evs ++ [FromContainer e])) = Exited).
  { rewrite run_app. generalize (run start evs). intros b0.
    destruct b0 as [d u h dn cc rc cg gg tc tk].
    destruct e as [data| |]; [by destruct (He data)| |]; cbn; by destruct d. }
  pose proof (downstream_exit_tears_down (evs ++ [FromContainer e])) as Ht.
  cbn zeta in Ht. specialize (Ht Hd). rewrite <- run_app, <- app_assoc in Ht.
  cbn [app] in Ht. fold b in Ht. destruct Ht as (Ht & Hu & Hd').
  split_and!; try done.
  - unfold tornDown in Ht. destruct (handler b); [done|].
    by apply andb_true_iff in Ht as [? ?].
  - unfold tornDown in Ht. destruct (handler b); [done|].
    by apply andb_true_iff in Ht as [? ?].
Qed.

(** X29.  A bridge that has been torn down stays so and is silent: no
    event delivers anything further to the client or to the container. *)
Theorem torn_down_bridge_is_silent (b : Bridge) (evs : list Event) :
  tornDown b = true ->
  tornDown (run b evs) = true /\
  toClient (run b evs) = toClient b /\ toContainer (run b evs) = toContainer b.
Proof.
  revert b. induction evs as [|ev evs IH]; intros b Hb; [done|].
  rewrite run_cons.
  assert (tornDown (step b ev) = true /\ toClient (step b ev) = toClient b /\
          toContainer (step b ev) = toContainer b) as (Ht & Hc & Hk).
  { destruct b as [d u h dn cc rc cg gg tc tk]. unfold tornDown in *. cbn in Hb.
    destruct h; [done|]. apply andb_true_iff in Hb as [-> ->].
    destruct ev as [[data| |]|[data|]|[| |]]; cbn; destruct d, u, dn, cg, gg; done. }
  destruct (IH _ Ht) as (? & Hc' & Hk'). by rewrite Hc', Hk', Hc, Hk.
Qed.

Lemma bridge_relays_all_traffic_witness :
  let evs := [FromContainer (Output ["$"; " "]%byte); FromClient (Message ["l"; "s"]%byte);
              FromContainer (Output ["a"]%byte)] in
  let b := run start evs in
  toClient b = outputs evs /\ toContainer b = messages evs /\
  downstream b = Running /\ upstream b = Running /\ tornDown b = false.
Proof.
  refine (bridge_relays_all_traffic
            [FromContainer (Output ["$"; " "]%byte); FromClient (Message ["l"; "s"]%byte);
             FromContainer (Output ["a"]%byte)] _).
  repeat (apply List.Forall_cons; [exact I|]). apply List.Forall_nil.
Defined.

Lemma container_end_tears_down_witness :
  let b := run start ([FromClient Close] ++
             [FromContainer EndOfStream; Schedule GoHandler; Schedule GoUpstream]) in
  tornDown b = true /\ upstream b = Exited /\ downstream b = Exited /\
  connClosed b = true /\ respClosed b = true.
Proof.
  refine (container_end_tears_down [FromClient Close] EndOfStream _).
  intros data. discriminate.
Defined.

Lemma torn_down_bridge_is_silent_witness :
  let b := run start [FromContainer (Output ["$"]%byte); FromContainer EndOfStream;
                      Schedule GoHandler] in
  let evs := [FromContainer (Output ["x"]%byte); FromClient (Message ["y"]%byte)] in
  tornDown (run b evs) = true /\
  toClient (run b evs) = toClient b /\ toContainer (run b evs) = toContainer b.
Proof.
  refine (torn_down_bridge_is_silent
            (run start [FromContainer (Output ["$"]%byte); FromContainer EndOfStream;
                        Schedule GoHandler])
            [FromContainer (Output ["x"]%byte); FromClient (Message ["y"]%byte)] _).
  vm_compute. reflexivity.
Defined.

End Relay.

(** ** Exec for an unknown sandbox, through the dispatcher *)

Section ExecUnknown.
Context {R : Type} `{!Runtime R}.
Implicit Types p : DockerProvider R.

(** X30.  An exec request for an id that is not registered is answered
    with -32005 EXEC_FAILED, marked retryable, with the detail "sandbox
    not found: <id>"; no separate not-found code exists.  Nothing is asked
    of the runtime but the time, and the registry is as it was. *)
Theorem exec_on_unknown_sandbox_is_exec_failed rid id cmd timeout_ms maxOut maxErr now p :
  id <> "" -> cmd <> [] ->
  sandboxes p !! id = None ->
  let served :=
    ServeHTTP (request rid "sandbox.v1.exec" (execParams id cmd timeout_ms maxOut maxErr))
      now p in
  served.1 = errorResponse rid
               (rpcErr (-32005) "exec failed" "EXEC_FAILED" true
                  (DetailsErr ("sandbox not found: " +:+ id))) /\
  client served.2 = (time_Now (client p)).2 /\
  sandboxes served.2 = sandboxes p /\ log served.2 = log p.
Proof.
  intros Hid Hcmd Hsb.
  change (ServeHTTP (request rid "sandbox.v1.exec"
                      (execParams id cmd timeout_ms maxOut maxErr)) now p)
    with (serveExec {| req_JSONRPC := "2.0"; req_ID := rid;
                       req_Method := "sandbox.v1.exec";
                       req_Params := execParams id cmd timeout_ms maxOut maxErr |} p).
  unfold serveExec, execParams. cbn.
  destruct (decide (id = "")) as [|_]; [done|].
  destruct (len cmd =? 0) eqn:Hlen.
  { apply Z.eqb_eq in Hlen. destruct cmd; [done|]. unfold len in Hlen. cbn in Hlen. lia. }
  unfold Exec. unfold_M. cbn.
  destruct (time_Now (client p)) as [t0 r1]; cbn. rewrite Hsb; cbn. done.
Qed.

End ExecUnknown.

Section ExecUnknownExamples.
Import Script.

Lemma exec_on_unknown_sandbox_is_exec_failed_witness :
  let served :=
    ServeHTTP (request (Some "9") "sandbox.v1.exec" (execParams "deadbeef" ["ls"] 0 0 0))
      0 (serving quiet) in
  served.1 = errorResponse (Some "9")
               (rpcErr (-32005) "exec failed" "EXEC_FAILED" true
                  (DetailsErr ("sandbox not found: " +:+ "deadbeef"))) /\
  client served.2 = (time_Now (client (serving quiet))).2 /\
  sandboxes served.2 = sandboxes (serving quiet) /\ log served.2 = log (serving quiet).
Proof.
  refine (exec_on_unknown_sandbox_is_exec_failed (Some "9") "deadbeef" ["ls"] 0 0 0 0
            (serving quiet) _ _ _).
  - discriminate.
  - discriminate.
  - vm_compute. reflexivity.
Defined.

End ExecUnknownExamples.
